(** * SmartFishFeeder: the command-driven actuation pipeline

    A shallow embedding of [main/sg90_servo.c] (SG90 servo driver),
    [main/tcp_server.c] (command listener) and [main/main.c] (dispatch glue:
    [command_angle_map], [command_handler]), followed by the properties the
    natural-language specification states about them.

    C [float] is IEEE-754 binary32, taken from the Standard Library's
    [SpecFloat] with [prec = 24] and [emax = 128]; [esp_err_t] and file
    descriptors are [Z]; [char] is [ascii]; C strings are [string]. *)

From Stdlib Require Import ZArith List String Ascii Bool Lia.
From Stdlib Require Import SpecFloat.
From Stdlib Require Import DecimalString.
Import ListNotations.
Open Scope Z_scope.

(* ===================================================================== *)
(** * Definitions *)
(* ===================================================================== *)

(** ** IEEE-754 binary32 *)

Module F32.

Definition prec : Z := 24.
Definition emax : Z := 128.

Definition add : spec_float -> spec_float -> spec_float := SFadd prec emax.
Definition sub : spec_float -> spec_float -> spec_float := SFsub prec emax.
Definition mul : spec_float -> spec_float -> spec_float := SFmul prec emax.
Definition div : spec_float -> spec_float -> spec_float := SFdiv prec emax.
Definition ltb : spec_float -> spec_float -> bool := SFltb.
Definition leb : spec_float -> spec_float -> bool := SFleb.

(** Conversion of an integer to [float] (round to nearest, ties to even). *)
Definition of_Z (n : Z) : spec_float := binary_normalize prec emax n 0 false.

(** The literals [0.0f] and [180.0f]. *)
Definition zero : spec_float := S754_zero false.
Definition c180 : spec_float := Eval vm_compute in of_Z 180.

Definition valid (f : spec_float) : bool := valid_binary prec emax f.

Definition is_nan (f : spec_float) : bool :=
  match f with S754_nan => true | _ => false end.

Definition is_finite (f : spec_float) : bool :=
  match f with S754_zero _ | S754_finite _ _ _ => true | _ => false end.

(** Truncation toward zero, the value a C conversion to an integer type
    starts from; NaN and the infinities have none. *)
Definition trunc (f : spec_float) : option Z :=
  match f with
  | S754_zero _ => Some 0
  | S754_finite s m e => Some (cond_Zopp s (Z.shiftl (Zpos m) e))
  | _ => None
  end.

(** [(uint32_t) f]. Where the truncated value is not representable the C
    standard leaves the conversion undefined; [undef] is what the target
    produces there (reduced to 32 bits). *)
Definition to_uint32 (undef : spec_float -> Z) (f : spec_float) : Z :=
  match trunc f with
  | Some n => if (0 <=? n) && (n <? 2 ^ 32) then n else undef f mod 2 ^ 32
  | None => undef f mod 2 ^ 32
  end.

(** *** Values and rounding, for the proofs

    A valid finite binary32 number is an integer multiple of [2 ^ -149];
    [zv] gives that integer, and places the infinities just beyond the
    largest finite number, so that the order of valid floats is the order
    of their [zv]. *)
Definition zv (f : spec_float) : Z :=
  match f with
  | S754_zero _ => 0
  | S754_infinity s => cond_Zopp s (2 ^ 277)
  | S754_nan => 0
  | S754_finite s m e => cond_Zopp s (Zpos m * 2 ^ (e + 149))
  end.

(** Neither negative nor NaN. *)
Definition nn (f : spec_float) : bool :=
  match f with
  | S754_zero _ | S754_finite false _ _ | S754_infinity false => true
  | _ => false
  end.

(** Where [V] lies between two consecutive multiples of [u]: on the lower
    one, or below, at or above the middle. *)
Definition loc (V u : Z) : location :=
  if V mod u =? 0 then loc_Exact else loc_Inexact (2 * (V mod u) ?= u).

(** [V / u] rounded to the nearest integer, ties to even. *)
Definition rhe (V u : Z) : Z := round_nearest_even (V / u) (loc V u).

(** The float of a rounded mantissa [m <= 2 ^ 24] at exponent [e]: a carry
    into the next binade is renormalised, an exponent beyond the range gives
    an infinity. *)
Definition pack (s : bool) (m e : Z) : spec_float :=
  if m =? 0 then S754_zero s
  else if m =? 2 ^ 24 then
    (if e + 1 <=? 104 then S754_finite s (Z.to_pos (2 ^ 23)) (e + 1) else S754_infinity s)
  else if e <=? 104 then S754_finite s (Z.to_pos m) e else S754_infinity s.

(** The rounding of the non-negative value [(V / u) * 2 ^ ex], handed to
    [binary_round_aux] as the integer part of [V / u] and the position of
    the rest. *)
Definition round_in (V u ex : Z) : spec_float :=
  binary_round_aux 24 128 false (V / u) ex (loc V u).

(** The input of [round_in] carries at least the precision of the result. *)
Definition enough (V u ex : Z) : Prop :=
  0 <= V /\ 0 < u /\ ex <= fexp 24 128 (Zdigits2 (V / u) + ex).

(** The rounding of the dyadic value [T * 2 ^ -149], as a [zv]. *)
Definition RS (T : Z) : Z :=
  match T with
  | Z0 => 0
  | Zpos p => zv (binary_round 24 128 false p (-149))
  | Zneg p => - zv (binary_round 24 128 false p (-149))
  end.

End F32.

(** ** Error codes, characters and strings *)

(** [esp_err_t] is [int]; the three codes the sources name ([esp_err.h]). *)
Definition esp_err_t := Z.
Definition ESP_OK : esp_err_t := 0.
Definition ESP_FAIL : esp_err_t := -1.
Definition ESP_ERR_INVALID_STATE : esp_err_t := 259.

(** [pdPASS] of FreeRTOS, and the two [errno] values the accept loop tests
    (lwIP defines [EWOULDBLOCK] as [EAGAIN]). *)
Definition pdPASS : Z := 1.
Definition EAGAIN : Z := 11.
Definition EWOULDBLOCK : Z := 11.

Definition char_code (c : ascii) : Z := Z.of_N (N_of_ascii c).

(** The bytes a C string function sees: up to the first NUL. *)
Fixpoint c_str (s : string) : string :=
  match s with
  | EmptyString => EmptyString
  | String c rest => if (char_code c =? 0) then EmptyString else String c (c_str rest)
  end.

(** [snprintf(buf, size, ...)] keeps at most [size - 1] bytes of the
    formatted text. *)
Definition snprintf (size : nat) (formatted : string) : string :=
  substring 0 (size - 1) formatted.

(** [%d] of a non-negative [int]. *)
Definition fmt_d (n : Z) : string := NilZero.string_of_int (Z.to_int n).

(** [%c]. *)
Definition fmt_c (c : ascii) : string := String c EmptyString.

Definition newline : string := String "010"%char EmptyString.

(** The degree sign of the UTF-8 encoded sources: bytes [0xC2 0xB0]. *)
Definition degree : string := String "194"%char (String "176"%char EmptyString).

(** ** The world: hardware registers, globals, and the events a run emits *)

Record sg90_config_t := mk_sg90_config {
  signal_pin : Z;
  timer : Z;
  oper : Z;
  comparator : Z;
  generator : Z;
  min_pulse_width_us : spec_float;
  max_pulse_width_us : spec_float
}.

(** [command_callback_t]: the functions of the program whose address is ever
    stored in [server_state.callback]. *)
Inductive command_callback_t := Fn_command_handler.

Record tcp_server_state_t := mk_server_state {
  server_fd : Z;
  port : Z;
  running : bool;
  callback : option command_callback_t
}.

(** [static tcp_server_state_t server_state = { -1, 0, false, NULL }]. *)
Definition server_state_init : tcp_server_state_t :=
  {| server_fd := -1; port := 0; running := false; callback := None |}.

Record world := mk_world {
  compare_value : Z -> Z;                 (* MCPWM compare register, by handle *)
  server_state : tcp_server_state_t;      (* tcp_server.c: server_state *)
  g_servo_config : option sg90_config_t   (* main.c: g_servo_config *)
}.

Inductive log_level := LogE | LogW | LogI.

(** One constructor per [ESP_LOGx] statement of the modelled functions, with
    the values it formats. *)
Inductive log_msg :=
| MsgSetAngle (angle pulse_width : spec_float)
| MsgResetScheduled (reset_delay_ms : Z)
| MsgResetDone
| MsgCommand (command : ascii) (angle : Z)
| MsgMoved (angle : Z)
| MsgSendFailed
| MsgSendOk (response : string) (sent : Z)
| MsgTaskStart
| MsgAcceptFailed (errno : Z)
| MsgClientConnected (fd : Z)
| MsgClientAddress
| MsgReceived (received : Z)
| MsgValidCommand (cmd : ascii)
| MsgInvalidCommand (cmd : ascii)
| MsgClientClosed
| MsgRecvFailed (errno : Z)
| MsgConnectionClosed (fd : Z)
| MsgTaskExit
| MsgInit (port : Z)
| MsgSocketFailed
| MsgSocketCreated (fd : Z)
| MsgReuseaddrFailed
| MsgBindFailed
| MsgBound
| MsgListenFailed
| MsgInitDone (port : Z)
| MsgNotInitialized
| MsgAlreadyRunning
| MsgStarting
| MsgTaskCreateFailed
| MsgStopping
| MsgStopped
| MsgCallbackRegistered.

Inductive event :=
| EvLog (lvl : log_level) (tag : string) (msg : log_msg)
| EvSetCompare (cmpr ticks : Z) (ret : esp_err_t)
| EvDelay (ms : Z)
| EvSocket (ret : Z)
| EvSetsockopt (fd ret : Z)
| EvBind (fd port ret : Z)
| EvListen (fd backlog ret : Z)
| EvAccept (listen_fd ret : Z)
| EvRecv (fd len ret : Z)
| EvSend (fd : Z) (data : string) (ret : Z)
| EvClose (fd : Z)
| EvTaskCreate (name : string) (ret : Z)
| EvTaskDelete
| EvAbort.

(** What lies outside the repository and is not fixed by the C sources. *)
Record platform := mk_platform {
  (* the target's result of a float-to-uint32 conversion C leaves undefined *)
  fptoui_undef : spec_float -> Z;
  (* return code of the SDK's mcpwm_comparator_set_compare_value(handle, ticks) *)
  cmpr_set_ret : Z -> Z -> esp_err_t;
  (* return value of send(fd, data, strlen(data), 0) *)
  send_ret : Z -> string -> Z
}.

(** ** A state-and-trace monad with [abort()] *)

Inductive outcome (A : Type) :=
| Ret (a : A) (w : world)
| Abort.
Arguments Ret {A} a w.
Arguments Abort {A}.

Definition M (A : Type) : Type := world -> list event * outcome A.

Definition ret {A} (a : A) : M A := fun w => ([], Ret a w).

Definition bind {A B} (m : M A) (k : A -> M B) : M B :=
  fun w =>
    match m w with
    | (ev, Ret a w') => let (ev', r) := k a w' in (ev ++ ev', r)
    | (ev, Abort) => (ev, Abort)
    end.

Notation "x <- m ;; k" := (bind m (fun x => k))
  (at level 61, m at next level, right associativity).
Notation "m ;; k" := (bind m (fun _ => k))
  (at level 61, right associativity).

Definition emit (e : event) : M unit := fun w => ([e], Ret tt w).
Definition get : M world := fun w => ([], Ret w w).
Definition put (w : world) : M unit := fun _ => ([], Ret tt w).
Definition abort {A} : M A := fun _ => ([EvAbort], Abort).

Definition events {A} (r : list event * outcome A) : list event := fst r.
Definition result {A} (r : list event * outcome A) : outcome A := snd r.

(** [ESP_LOGx(TAG, ...)]. *)
Definition esp_log (lvl : log_level) (tag : string) (msg : log_msg) : M unit :=
  emit (EvLog lvl tag msg).

(** [ESP_ERROR_CHECK(x)]: [abort()] unless [x == ESP_OK]. *)
Definition ESP_ERROR_CHECK (m : M esp_err_t) : M unit :=
  r <- m ;; if r =? ESP_OK then ret tt else abort.

(** [vTaskDelay(pdMS_TO_TICKS(ms))]: the calling task is suspended. *)
Definition vTaskDelay_ms (ms : Z) : M unit := emit (EvDelay ms).

Definition is_log (e : event) : bool :=
  match e with EvLog _ _ _ => true | _ => false end.

(** The events of a run other than log lines. *)
Definition actions (l : list event) : list event :=
  filter (fun e => negb (is_log e)) l.

(** ** sg90_servo.c *)

Module Servo.
Section WithPlatform.
Variable plat : platform.

Definition TAG : string := "SG90_SERVO".

(** The SDK call: on [ESP_OK] the comparator's compare register holds
    [ticks]. *)
Definition mcpwm_comparator_set_compare_value (cmpr ticks : Z) : M esp_err_t :=
  fun w =>
    let r := cmpr_set_ret plat cmpr ticks in
    ([EvSetCompare cmpr ticks r],
     Ret r (if r =? ESP_OK
            then {| compare_value := fun h => if h =? cmpr then ticks else compare_value w h;
                    server_state := server_state w;
                    g_servo_config := g_servo_config w |}
            else w)).

(** Lines 97-101: the angle limits. *)
Definition clamp_angle (angle : spec_float) : spec_float :=
  if F32.ltb angle F32.zero then F32.zero
  else if F32.ltb F32.c180 angle then F32.c180
  else angle.

(** Lines 105-107, on the angle the limits left. *)
Definition pulse_width (config : sg90_config_t) (angle : spec_float) : spec_float :=
  F32.add (min_pulse_width_us config)
          (F32.mul (F32.div angle F32.c180)
                   (F32.sub (max_pulse_width_us config) (min_pulse_width_us config))).

(** The compare value [sg90_set_angle] hands to the comparator. *)
Definition duty (config : sg90_config_t) (angle : spec_float) : Z :=
  F32.to_uint32 (fptoui_undef plat) (pulse_width config (clamp_angle angle)).

Definition sg90_set_angle (config : sg90_config_t) (angle : spec_float) : M esp_err_t :=
  let angle := clamp_angle angle in
  let pulse_width := pulse_width config angle in
  esp_log LogI TAG (MsgSetAngle angle pulse_width) ;;
  ESP_ERROR_CHECK (mcpwm_comparator_set_compare_value
                     (comparator config)
                     (F32.to_uint32 (fptoui_undef plat) pulse_width)) ;;
  ret ESP_OK.

Definition sg90_set_angle_with_reset (config : sg90_config_t) (angle : spec_float)
    (reset_delay_ms : Z) : M esp_err_t :=
  r <- sg90_set_angle config angle ;;
  if negb (r =? ESP_OK) then ret r
  else
    esp_log LogI TAG (MsgResetScheduled reset_delay_ms) ;;
    vTaskDelay_ms reset_delay_ms ;;
    r <- sg90_set_angle config F32.zero ;;
    esp_log LogI TAG MsgResetDone ;;
    ret r.

End WithPlatform.
End Servo.

(** ** tcp_server.c *)

Module TcpServer.

Definition TAG : string := "TCP_SERVER".
Definition TCP_SERVER_BACKLOG : Z := 5.
Definition TCP_SERVER_BUFFER_SIZE : Z := 64.

Definition set_server_state (f : tcp_server_state_t -> tcp_server_state_t) : M unit :=
  fun w => ([], Ret tt {| compare_value := compare_value w;
                          server_state := f (server_state w);
                          g_servo_config := g_servo_config w |}).

Definition set_server_fd (fd : Z) : M unit :=
  set_server_state (fun s => {| server_fd := fd; port := port s;
                                running := running s; callback := callback s |}).

Definition set_port (p : Z) : M unit :=
  set_server_state (fun s => {| server_fd := server_fd s; port := p;
                                running := running s; callback := callback s |}).

Definition set_running (b : bool) : M unit :=
  set_server_state (fun s => {| server_fd := server_fd s; port := port s;
                                running := b; callback := callback s |}).

Definition set_callback (cb : option command_callback_t) : M unit :=
  set_server_state (fun s => {| server_fd := server_fd s; port := port s;
                                running := running s; callback := cb |}).

Definition get_server_state : M tcp_server_state_t :=
  fun w => ([], Ret (server_state w) w).

(** What the operating system answers to the calls of [tcp_server_init]. *)
Record init_env := mk_init_env {
  socket_ret : Z;
  setsockopt_ret : Z;
  bind_ret : Z;
  listen_ret : Z
}.

Definition tcp_server_init (env : init_env) (port0 : Z) : M esp_err_t :=
  esp_log LogI TAG (MsgInit port0) ;;
  let port := if port0 =? 0 then 8080 else port0 in
  set_port port ;;
  set_server_fd (-1) ;;
  emit (EvSocket (socket_ret env)) ;;
  set_server_fd (socket_ret env) ;;
  if socket_ret env <? 0 then
    esp_log LogE TAG MsgSocketFailed ;;
    ret ESP_FAIL
  else
    let fd := socket_ret env in
    esp_log LogI TAG (MsgSocketCreated fd) ;;
    emit (EvSetsockopt fd (setsockopt_ret env)) ;;
    (if setsockopt_ret env <? 0 then esp_log LogE TAG MsgReuseaddrFailed else ret tt) ;;
    emit (EvBind fd port (bind_ret env)) ;;
    if bind_ret env <? 0 then
      esp_log LogE TAG MsgBindFailed ;;
      emit (EvClose fd) ;;
      set_server_fd (-1) ;;
      ret ESP_FAIL
    else
      esp_log LogI TAG MsgBound ;;
      emit (EvListen fd TCP_SERVER_BACKLOG (listen_ret env)) ;;
      if listen_ret env <? 0 then
        esp_log LogE TAG MsgListenFailed ;;
        emit (EvClose fd) ;;
        set_server_fd (-1) ;;
        ret ESP_FAIL
      else
        esp_log LogI TAG (MsgInitDone port) ;;
        ret ESP_OK.

(** [tcp_server_start]; [task_create_ret] is what [xTaskCreate] returns.
    The created task, [tcp_server_task], runs in its own context. *)
Definition tcp_server_start (task_create_ret : Z) : M esp_err_t :=
  s <- get_server_state ;;
  if server_fd s <? 0 then
    esp_log LogE TAG MsgNotInitialized ;;
    ret ESP_ERR_INVALID_STATE
  else if running s then
    esp_log LogW TAG MsgAlreadyRunning ;;
    ret ESP_OK
  else
    esp_log LogI TAG MsgStarting ;;
    emit (EvTaskCreate "tcp_server" task_create_ret) ;;
    if negb (task_create_ret =? pdPASS) then
      esp_log LogE TAG MsgTaskCreateFailed ;;
      ret ESP_FAIL
    else ret ESP_OK.

Definition tcp_server_stop : M unit :=
  esp_log LogI TAG MsgStopping ;;
  set_running false ;;
  s <- get_server_state ;;
  (if 0 <=? server_fd s then
     emit (EvClose (server_fd s)) ;;
     set_server_fd (-1)
   else ret tt) ;;
  esp_log LogI TAG MsgStopped.


Definition tcp_server_is_running : M bool :=
  s <- get_server_state ;;
  ret (running s && (0 <=? server_fd s)).

Definition tcp_server_get_port : M Z :=
  s <- get_server_state ;;
  ret (port s).

Section WithPlatform.
Variable plat : platform.

(** [response] is [None] for a NULL pointer. *)
Definition tcp_server_send_response (client_fd : Z) (response : option string) : M Z :=
  match response with
  | None => ret (-1)
  | Some response =>
    if client_fd <? 0 then ret (-1)
    else
      let data := c_str response in
      let sent := send_ret plat client_fd data in
      emit (EvSend client_fd data sent) ;;
      if sent <? 0 then
        esp_log LogE TAG MsgSendFailed ;;
        ret (-1)
      else
        esp_log LogI TAG (MsgSendOk data sent) ;;
        ret sent
  end.

(** What the operating system answers to [recv] on an accepted connection:
    the bytes the peer has made available (none: orderly close), or an
    error with its [errno]. *)
Inductive recv_outcome :=
| RecvData (bytes : list ascii)
| RecvError (errno : Z).

(** What happens around one test of [while (server_state.running)]: either
    [tcp_server_stop] has run in another task, or the loop body gets these
    answers from [accept] (return value, [errno]) and [recv]. *)
Inductive task_input :=
| InStop
| InAccept (accept_ret errno : Z) (rx : recv_outcome).

(** How the function pointer in [server_state.callback] is called. *)
Variable invoke : command_callback_t -> ascii -> Z -> M unit.

Definition is_digit (cmd : ascii) : bool :=
  (char_code "0" <=? char_code cmd) && (char_code cmd <=? char_code "9").

Definition is_newline (cmd : ascii) : bool :=
  (char_code cmd =? 10) || (char_code cmd =? 13).

(** Lines 94-110: the [for] loop over the received bytes. *)
Fixpoint process_buffer (buffer : list ascii) (client_fd : Z) : M unit :=
  match buffer with
  | [] => ret tt
  | cmd :: rest =>
    (if is_digit cmd then
       esp_log LogI TAG (MsgValidCommand cmd) ;;
       s <- get_server_state ;;
       match callback s with
       | Some f => invoke f cmd client_fd
       | None => ret tt
       end
     else if is_newline cmd then ret tt
     else esp_log LogW TAG (MsgInvalidCommand cmd)) ;;
    process_buffer rest client_fd
  end.

(** [recv(client_fd, buffer, sizeof(buffer) - 1, 0)]: at most 63 bytes are
    stored and counted. *)
Definition recv_buffer (rx : recv_outcome) : list ascii :=
  match rx with
  | RecvData bytes => firstn (Z.to_nat (TCP_SERVER_BUFFER_SIZE - 1)) bytes
  | RecvError _ => []
  end.

Definition recv_received (rx : recv_outcome) : Z :=
  match rx with
  | RecvData _ => Z.of_nat (List.length (recv_buffer rx))
  | RecvError _ => -1
  end.

Definition recv_errno (rx : recv_outcome) : Z :=
  match rx with
  | RecvData _ => 0
  | RecvError errno => errno
  end.

(** Lines 60-123: one pass through the body of the [while] loop. *)
Definition loop_body (accept_ret errno : Z) (rx : recv_outcome) : M unit :=
  s <- get_server_state ;;
  emit (EvAccept (server_fd s) accept_ret) ;;
  let client_fd := accept_ret in
  if client_fd <? 0 then
    if (errno =? EAGAIN) || (errno =? EWOULDBLOCK) then
      vTaskDelay_ms 100
    else
      esp_log LogE TAG (MsgAcceptFailed errno) ;;
      vTaskDelay_ms 100
  else
    esp_log LogI TAG (MsgClientConnected client_fd) ;;
    esp_log LogI TAG MsgClientAddress ;;
    let received := recv_received rx in
    emit (EvRecv client_fd (TCP_SERVER_BUFFER_SIZE - 1) received) ;;
    (if 0 <? received then
       esp_log LogI TAG (MsgReceived received) ;;
       process_buffer (recv_buffer rx) client_fd
     else if received =? 0 then
       esp_log LogI TAG MsgClientClosed
     else
       if negb (recv_errno rx =? EAGAIN) && negb (recv_errno rx =? EWOULDBLOCK) then
         esp_log LogE TAG (MsgRecvFailed (recv_errno rx))
       else ret tt) ;;
    emit (EvClose client_fd) ;;
    esp_log LogI TAG (MsgConnectionClosed client_fd) ;;
    vTaskDelay_ms 10.

(** The [while (server_state.running)] loop, unrolled along the inputs; the
    model stops where they end. *)
Fixpoint serve_loop (inputs : list task_input) : M unit :=
  match inputs with
  | [] => ret tt
  | InStop :: rest => tcp_server_stop ;; serve_loop rest
  | InAccept accept_ret errno rx :: rest =>
    s <- get_server_state ;;
    if running s then
      loop_body accept_ret errno rx ;;
      serve_loop rest
    else
      esp_log LogI TAG MsgTaskExit ;;
      emit EvTaskDelete
  end.

Definition tcp_server_task (inputs : list task_input) : M unit :=
  esp_log LogI TAG MsgTaskStart ;;
  set_running true ;;
  serve_loop inputs.

End WithPlatform.
End TcpServer.

(** ** main.c *)

Module Main.

Definition TAG : string := "MAIN".
Definition SERVO_SIGNAL_PIN : Z := 17.

(** [static const uint8_t command_angle_map[10]]. *)
Definition command_angle_map : list Z :=
  [0; 18; 36; 54; 72; 90; 108; 126; 144; 180].

(** The table lookup [command_angle_map[d]]. *)
Definition angle_for_digit (d : Z) : Z := nth (Z.to_nat d) command_angle_map 0.

(** [servo_config] of [servo_control_task], as declared there (all handles
    NULL). *)
Definition servo_config : sg90_config_t :=
  {| signal_pin := SERVO_SIGNAL_PIN;
     timer := 0; oper := 0; comparator := 0; generator := 0;
     min_pulse_width_us := F32.of_Z 500;
     max_pulse_width_us := F32.of_Z 2500 |}.

Section WithPlatform.
Variable plat : platform.

Definition command_handler (command : ascii) (client_fd : Z) : M unit :=
  if (char_code command <? char_code "0") || (char_code "9" <? char_code command) then ret tt
  else
    let angle := angle_for_digit (char_code command - char_code "0") in
    esp_log LogI TAG (MsgCommand command angle) ;;
    w <- get ;;
    match g_servo_config w with
    | Some config =>
      Servo.sg90_set_angle_with_reset plat config (F32.of_Z angle) 1000 ;;
      esp_log LogI TAG (MsgMoved angle) ;;
      let response :=
        snprintf 64 ("OK: Command " ++ fmt_c command ++ " -> Angle " ++ fmt_d angle
                     ++ degree ++ " (auto reset in 1s)" ++ newline) in
      TcpServer.tcp_server_send_response plat client_fd (Some response) ;;
      ret tt
    | None =>
      let response := snprintf 64 ("ERROR: Servo not initialized" ++ newline) in
      TcpServer.tcp_server_send_response plat client_fd (Some response) ;;
      ret tt
    end.

(** Calling through a [command_callback_t]. *)
Definition invoke (f : command_callback_t) : ascii -> Z -> M unit :=
  match f with
  | Fn_command_handler => command_handler
  end.

(** The listener task of the program, with the handler [servo_control_task]
    registers. *)
Definition tcp_server_task : list TcpServer.task_input -> M unit :=
  TcpServer.tcp_server_task invoke.

End WithPlatform.

End Main.

(** ** Vocabulary of the properties *)

(** [sg90_set_angle_with_reset] without its error branch. *)
Definition set_angle_then_home (plat : platform) (config : sg90_config_t)
    (angle : spec_float) (reset_delay_ms : Z) : M esp_err_t :=
  Servo.sg90_set_angle plat config angle ;;
  esp_log LogI Servo.TAG (MsgResetScheduled reset_delay_ms) ;;
  vTaskDelay_ms reset_delay_ms ;;
  r <- Servo.sg90_set_angle plat config F32.zero ;;
  esp_log LogI Servo.TAG MsgResetDone ;;
  ret r.

(** The responses written to a connection, and the compare values written
    to the comparator, in the order of a run. *)
Definition sends (l : list event) : list (Z * string) :=
  flat_map (fun e => match e with EvSend fd data _ => [(fd, data)] | _ => [] end) l.

Definition duty_writes (l : list event) : list (Z * Z) :=
  flat_map (fun e => match e with EvSetCompare c t _ => [(c, t)] | _ => [] end) l.

(** The success response as the specification words it. *)
Definition spec_ok_response (c : ascii) (angle : Z) : string :=
  "OK: Command " ++ fmt_c c ++ " -> Angle " ++ fmt_d angle ++ degree
  ++ " (auto reset in 1s)" ++ newline.

Definition spec_error_response : string :=
  "ERROR: Servo not initialized" ++ newline.

(** The descriptors a run has closed. *)
Definition closes (l : list event) : list Z :=
  flat_map (fun e => match e with EvClose fd => [fd] | _ => [] end) l.

Definition task_creations (l : list event) : list string :=
  flat_map (fun e => match e with EvTaskCreate name _ => [name] | _ => [] end) l.

Definition init_fails (env : TcpServer.init_env) : Prop :=
  TcpServer.socket_ret env < 0 \/ TcpServer.bind_ret env < 0 \/ TcpServer.listen_ret env < 0.

(** Running [f] on each element of a list, in order. *)
Fixpoint for_each {A} (l : list A) (f : A -> M unit) : M unit :=
  match l with
  | [] => ret tt
  | x :: rest => f x ;; for_each rest f
  end.

(** One call through the registered callback, if there is one. *)
Definition dispatch (invoke : command_callback_t -> ascii -> Z -> M unit)
    (client_fd : Z) (cmd : ascii) : M unit :=
  s <- TcpServer.get_server_state ;;
  match callback s with
  | Some f => invoke f cmd client_fd
  | None => ret tt
  end.

(** The log line the loop itself writes for a byte that is not a digit. *)
Definition drop_log (cmd : ascii) : list event :=
  if TcpServer.is_newline cmd then []
  else [EvLog LogW TcpServer.TAG (MsgInvalidCommand cmd)].

(** The bytes a run has reported as invalid commands, in order. *)
Definition warnings (l : list event) : list ascii :=
  flat_map (fun e => match e with
                     | EvLog LogW _ (MsgInvalidCommand c) => [c]
                     | _ => []
                     end) l.

(** A byte that is neither a command nor a line end. *)
Definition is_other (c : ascii) : bool :=
  negb (TcpServer.is_digit c) && negb (TcpServer.is_newline c).

(** The responses and compare values a list of digit commands produces. *)
Definition digit_responses (fd : Z) (ds : list ascii) : list (Z * string) :=
  map (fun c => (fd, spec_ok_response c (Main.angle_for_digit (char_code c - char_code "0")))) ds.

Definition digit_duties (plat : platform) (config : sg90_config_t) (ds : list ascii) :
    list (Z * Z) :=
  flat_map (fun c =>
    [(comparator config,
      Servo.duty plat config (F32.of_Z (Main.angle_for_digit (char_code c - char_code "0"))));
     (comparator config, Servo.duty plat config F32.zero)]) ds.

(** The discipline of a listener task, as an automaton over its events:
    it is either between connections or serving one accepted descriptor,
    on which it has or has not yet read. *)
Inductive conn_state :=
| Listening
| Serving (fd : Z) (has_read : bool).

Definition conn_step (s : conn_state) (e : event) : option conn_state :=
  match s, e with
  | _, EvLog _ _ _ => Some s
  | Listening, EvAccept _ ret => Some (if ret <? 0 then Listening else Serving ret false)
  | Listening, EvDelay ms => if (ms =? 10) || (ms =? 100) then Some s else None
  | Listening, EvClose _ => Some s
  | Listening, EvTaskDelete => Some s
  | Serving fd false, EvRecv fd' _ _ => if fd' =? fd then Some (Serving fd true) else None
  | Serving fd true, EvSetCompare _ _ _ => Some s
  | Serving fd true, EvDelay _ => Some s
  | Serving fd true, EvSend fd' _ _ => if fd' =? fd then Some s else None
  | Serving fd true, EvAbort => Some s
  | Serving fd true, EvClose fd' => if fd' =? fd then Some Listening else None
  | _, _ => None
  end.

Fixpoint conn_trace (s : conn_state) (l : list event) : option conn_state :=
  match l with
  | [] => Some s
  | e :: rest =>
    match conn_step s e with
    | Some s' => conn_trace s' rest
    | None => None
    end
  end.

(** An angle within the limits of the servo, 0 to 180 degrees. *)
Definition angle_in_range (a : spec_float) : bool :=
  F32.leb F32.zero a && F32.leb a F32.c180.

(** A platform for concrete runs: the driver accepts a compare value up to
    the timer period ([SG90_PERIOD_TICKS], 20000), [send] transmits the whole
    text, and a conversion C leaves undefined yields 0. *)
Definition reference_platform : platform :=
  {| fptoui_undef := fun _ => 0;
     cmpr_set_ret := fun _ ticks => if ticks <=? 20000 then ESP_OK else 258;
     send_ret := fun _ data => Z.of_nat (String.length data) |}.

(** [servo_config] once [sg90_init] has stored handles in it (here 1 to 4). *)
Definition live_servo_config : sg90_config_t :=
  {| signal_pin := signal_pin Main.servo_config;
     timer := 1; oper := 2; comparator := 3; generator := 4;
     min_pulse_width_us := min_pulse_width_us Main.servo_config;
     max_pulse_width_us := max_pulse_width_us Main.servo_config |}.

(** The world once [servo_control_task] has set everything up: listening on
    descriptor 3, handler registered, servo at home. *)
Definition ready_world : world :=
  {| compare_value := fun h => if h =? 3 then 500 else 0;
     server_state := {| server_fd := 3; port := 8080; running := false;
                        callback := Some Fn_command_handler |};
     g_servo_config := Some live_servo_config |}.

(** The same before the servo task has published its configuration. *)
Definition unconfigured_world : world :=
  {| compare_value := fun _ => 0;
     server_state := server_state ready_world;
     g_servo_config := None |}.

(** The pulse width as the specification words it: the angle limited to
    [0,180], then [min_us + (angle / 180) * (max_us - min_us)]. *)
Definition spec_pulse_width_for_angle (angle min_us max_us : spec_float) : spec_float :=
  let limited :=
    if F32.ltb angle F32.zero then F32.zero
    else if F32.ltb F32.c180 angle then F32.c180
    else angle in
  F32.add min_us (F32.mul (F32.div limited F32.c180) (F32.sub max_us min_us)).

(** A calibration from the lowest to the highest finite binary32 number. *)
Definition widest_config : sg90_config_t :=
  {| signal_pin := Main.SERVO_SIGNAL_PIN;
     timer := 1; oper := 2; comparator := 3; generator := 4;
     min_pulse_width_us := S754_finite true 16777215 104;
     max_pulse_width_us := S754_finite false 16777215 104 |}.

(** The suspensions of the calling task, in milliseconds, and the results
    of [accept] with the descriptor listened on, in the order of a run. *)
Definition delays (l : list event) : list Z :=
  flat_map (fun e => match e with EvDelay ms => [ms] | _ => [] end) l.


(** The non-log events of one completed digit command. *)
Definition digit_actions (plat : platform) (config : sg90_config_t) (fd : Z) (c : ascii) :
    list event :=
  let angle := Main.angle_for_digit (char_code c - char_code "0") in
  [EvSetCompare (comparator config) (Servo.duty plat config (F32.of_Z angle)) ESP_OK;
   EvDelay 1000;
   EvSetCompare (comparator config) (Servo.duty plat config F32.zero) ESP_OK;
   EvSend fd (spec_ok_response c angle) (send_ret plat fd (spec_ok_response c angle))].

(** The digit bytes one pass of the listener's loop hands to the callback. *)
Definition digits_served (accept_ret : Z) (rx : TcpServer.recv_outcome) : list ascii :=
  if accept_ret <? 0 then [] else filter TcpServer.is_digit (TcpServer.recv_buffer rx).


(** The program's statics as the C initialisers leave them. *)
Definition boot_world : world :=
  {| compare_value := fun _ => 0;
     server_state := server_state_init;
     g_servo_config := None |}.

(** ** The rest of the program: SDK calls and the WiFi statics *)

(** [wifi_event_callback_t]: the one function of the program ever registered
    through [wifi_register_event_callback], [wifi_event_handler] of main.c. *)
Inductive wifi_event_callback_t := Fn_wifi_event_handler.

(** The two [static] handlers wifi_config.c registers with the event loop. *)
Inductive event_handler_t := Fn_wifi_config_event_handler | Fn_ip_event_handler.

(** The file-scope variables of wifi_config.c, and the [static] local
    [wifi_initialized] of [wifi_init_sta]. The two arrays of [wifi_config.sta]
    are held as the C strings they contain; a handle is 0 when NULL. *)
Record wifi_statics := mk_wifi_statics {
  sta_ssid : string;
  sta_password : string;
  sta_netif : Z;
  wifi_connected : bool;
  user_callback : option wifi_event_callback_t;
  user_callback_arg : Z;
  wifi_initialized : bool
}.

Definition wifi_statics_init : wifi_statics :=
  {| sta_ssid := EmptyString; sta_password := EmptyString; sta_netif := 0;
     wifi_connected := false; user_callback := None; user_callback_arg := 0;
     wifi_initialized := false |}.

Record system := mk_system {
  sys_world : world;
  sys_wifi : wifi_statics
}.

(** Codes of [esp_err.h] and [nvs.h], and the event bases and ids of
    [esp_wifi_types.h] and [esp_netif_types.h], that the sources name. *)
Definition ESP_ERR_INVALID_ARG : esp_err_t := 258.
Definition ESP_ERR_TIMEOUT : esp_err_t := 263.
Definition ESP_ERR_NVS_NO_FREE_PAGES : esp_err_t := 4365.
Definition ESP_ERR_NVS_NEW_VERSION_FOUND : esp_err_t := 4368.
Definition WIFI_EVENT : string := "WIFI_EVENT".
Definition IP_EVENT : string := "IP_EVENT".
Definition ESP_EVENT_ANY_ID : Z := -1.
Definition WIFI_EVENT_STA_START : Z := 2.
Definition WIFI_EVENT_STA_CONNECTED : Z := 4.
Definition WIFI_EVENT_STA_DISCONNECTED : Z := 5.
Definition IP_EVENT_STA_GOT_IP : Z := 0.
Definition IP_EVENT_STA_LOST_IP : Z := 1.
Definition WIFI_MODE_STA : Z := 1.
Definition WIFI_IF_STA : Z := 0.

Inductive gen_action := MCPWM_GEN_ACTION_LOW | MCPWM_GEN_ACTION_HIGH.
Inductive timer_direction := MCPWM_TIMER_DIRECTION_UP.
Inductive timer_event := MCPWM_TIMER_EVENT_EMPTY.
Inductive timer_command := MCPWM_TIMER_STOP_EMPTY | MCPWM_TIMER_START_NO_STOP.

(** The calls into the SDK and the kernel made outside the functions
    modelled above, each with the arguments that vary; configuration
    structs the program fills with constants are left out.
    [nvs_flash_init] is called at two places of [wifi_init_sta], told apart
    by [after_erase]. *)
Inductive sdk_call :=
| gpio_config (pin_bit_mask : Z)
| gpio_set_level (gpio_num level : Z)
| mcpwm_new_timer (group_id resolution_hz period_ticks : Z)
| mcpwm_new_operator (group_id : Z)
| mcpwm_operator_connect_timer (oper timer : Z)
| mcpwm_new_comparator (oper : Z)
| mcpwm_new_generator (oper gen_gpio_num : Z)
| mcpwm_generator_set_actions_on_timer_event
    (gen : Z) (ev_acts : list (timer_direction * timer_event * gen_action))
| mcpwm_generator_set_actions_on_compare_event
    (gen : Z) (ev_acts : list (timer_direction * Z * gen_action))
| mcpwm_timer_enable (timer : Z)
| mcpwm_timer_start_stop (timer : Z) (command : timer_command)
| mcpwm_del_generator (gen : Z)
| mcpwm_del_comparator (cmpr : Z)
| mcpwm_del_operator (oper : Z)
| mcpwm_del_timer (timer : Z)
| nvs_flash_init (after_erase : bool)
| nvs_flash_erase
| esp_netif_init
| esp_event_loop_create_default
| esp_wifi_init
| esp_netif_get_default_netif
| esp_netif_create_default_wifi_sta
| esp_event_handler_register (event_base : string) (event_id : Z) (handler : event_handler_t)
| esp_wifi_set_mode (mode : Z)
| esp_wifi_set_config (interface : Z) (ssid password : string)
| esp_wifi_start
| esp_wifi_connect
| esp_wifi_disconnect
| esp_netif_get_ip_info (netif : Z)
| xTaskGetTickCount.

(** One constructor per [ESP_LOGx] statement of the functions below. *)
Inductive sys_msg :=
| MsgServoInit
| MsgServoPin (pin : Z)
| MsgServoRange (min_us max_us : spec_float)
| MsgServoInitDone
| MsgServoDeinit
| MsgStaStart
| MsgStaConnected
| MsgStaDisconnected
| MsgGotIp
| MsgLostIp
| MsgSsidFromMacro (ssid : string)
| MsgSsidFromEnv (ssid : string)
| MsgNoSsid
| MsgPasswordFromMacro
| MsgPasswordFromEnv
| MsgNoPassword
| MsgWifiInitStart
| MsgWifiAlreadyInitialized
| MsgNetifInit
| MsgNetifInitRet (ret : esp_err_t)
| MsgEventLoop
| MsgEventLoopRet (ret : esp_err_t)
| MsgEventLoopExists
| MsgWifiDriver
| MsgWifiDriverRet (ret : esp_err_t)
| MsgWifiDriverExists
| MsgNetifCheck
| MsgNetifExists (netif : Z)
| MsgNetifCreate
| MsgNetifCreateFailed
| MsgNetifCreated (netif : Z)
| MsgSsidGiven (ssid : string)
| MsgSsidEmpty
| MsgWifiInitDone
| MsgWaitTimeout
| MsgWifiDisconnected
| MsgHotspotConnected
| MsgHotspotDisconnected
| MsgIpObtained
| MsgServoTaskStart
| MsgServoReady (pin : Z)
| MsgWaitingForWifi
| MsgWifiTimeoutStandalone
| MsgTcpInit (port : Z)
| MsgBannerLine
| MsgServiceReady
| MsgWifiState (connected : bool)
| MsgIpAddress (ip : string)
| MsgTcpPort (port : Z)
| MsgUsage
| MsgInitialAngle
| MsgAppTitle
| MsgAppHardware
| MsgAppFeatures
| MsgConnectingTo (ssid : string)
| MsgConnectingUnconfigured
| MsgWifiInitFailed (ret : esp_err_t).

Inductive sys_event :=
| Core (e : event)
| Sdk (c : sdk_call) (ret : Z)
| SysLog (lvl : log_level) (tag : string) (msg : sys_msg).

(** What the target answers: the return code of a call; the handle a
    successful [mcpwm_new_*] stores or an [esp_netif_*] getter returns; the
    value of a shift C leaves undefined; [getenv]; the four bytes of the
    address [esp_netif_get_ip_info] stores; the sizes of the [ssid] and
    [password] arrays of [wifi_sta_config_t]; [portTICK_PERIOD_MS]. *)
Record sdk_env := mk_sdk_env {
  sdk_ret : sdk_call -> esp_err_t;
  sdk_handle : sdk_call -> Z;
  shift_undef : Z -> Z;
  getenv : string -> option string;
  ip_info : Z -> Z * Z * Z * Z;
  ssid_size : nat;
  password_size : nat;
  portTICK_PERIOD_MS : Z
}.

(** The macros a build may define ([#ifdef WIFI_SSID], [#ifdef
    WIFI_PASSWORD]). *)
Record build_config := mk_build_config {
  WIFI_SSID : option string;
  WIFI_PASSWORD : option string
}.

Definition P (A : Type) : Type := system -> list sys_event * option (A * system).

Module Sys.

Definition ret {A} (a : A) : P A := fun s => ([], Some (a, s)).

Definition bind {A B} (m : P A) (k : A -> P B) : P B :=
  fun s =>
    match m s with
    | (ev, Some (a, s')) => let (ev', r) := k a s' in (ev ++ ev', r)
    | (ev, None) => (ev, None)
    end.

(** A function of the first part runs on the world inside the system. *)
Definition lift {A} (m : M A) : P A :=
  fun s =>
    match m (sys_world s) with
    | (ev, Ret a w) => (map Core ev, Some (a, {| sys_world := w; sys_wifi := sys_wifi s |}))
    | (ev, Abort) => (map Core ev, None)
    end.

Definition emit (e : sys_event) : P unit := fun s => ([e], Some (tt, s)).
Definition abort {A} : P A := fun _ => ([Core EvAbort], None).
Definition log (lvl : log_level) (tag : string) (msg : sys_msg) : P unit :=
  emit (SysLog lvl tag msg).

Definition get_wifi : P wifi_statics := fun s => ([], Some (sys_wifi s, s)).
Definition set_wifi (f : wifi_statics -> wifi_statics) : P unit :=
  fun s => ([], Some (tt, {| sys_world := sys_world s; sys_wifi := f (sys_wifi s) |})).

(** An SDK call, with the code it returns. *)
Definition call (env : sdk_env) (c : sdk_call) : P esp_err_t :=
  fun s => ([Sdk c (sdk_ret env c)], Some (sdk_ret env c, s)).

(** An SDK call that returns a handle. *)
Definition call_handle (env : sdk_env) (c : sdk_call) : P Z :=
  fun s => ([Sdk c (sdk_handle env c)], Some (sdk_handle env c, s)).

End Sys.

Declare Scope sys_scope.
Delimit Scope sys_scope with sys.
Notation "x <- m ;; k" := (Sys.bind m (fun x => k))
  (at level 61, m at next level, right associativity) : sys_scope.
Notation "m ;; k" := (Sys.bind m (fun _ => k))
  (at level 61, right associativity) : sys_scope.

(** [ESP_ERROR_CHECK(x)] on a code already at hand, and on a call. *)
Definition check_code (r : esp_err_t) : P unit :=
  if r =? ESP_OK then Sys.ret tt else Sys.abort.

Definition checked (env : sdk_env) (c : sdk_call) : P unit :=
  (r <- Sys.call env c ;; check_code r)%sys.

Fixpoint sys_for_each {A} (l : list A) (f : A -> P unit) : P unit :=
  match l with
  | [] => Sys.ret tt
  | x :: rest => (f x ;; sys_for_each rest f)%sys
  end.

(** ** sg90_servo.c: set-up and tear-down *)

Module Sg90.
Section WithEnv.
Variable plat : platform.
Variable env : sdk_env.

Definition SG90_RESOLUTION_HZ : Z := 1000000.
Definition SG90_PERIOD_TICKS : Z := 20000.

(** [ESP_ERROR_CHECK(mcpwm_new_*(..., &handle))]: the handle stored. *)
Definition checked_new (c : sdk_call) : P Z :=
  (checked env c ;; Sys.ret (sdk_handle env c))%sys.

(** [1ULL << pin]. *)
Definition pin_bit_mask (pin : Z) : Z :=
  if (0 <=? pin) && (pin <? 64) then Z.shiftl 1 pin else shift_undef env pin mod 2 ^ 64.

(** [sg90_init]; [config] points to a struct the caller owns, whose handles
    the function fills in: the struct as it is on return comes back with
    the code. *)
Definition sg90_init (config : sg90_config_t) : P (esp_err_t * sg90_config_t) :=
  (Sys.log LogI Servo.TAG MsgServoInit ;;
   Sys.log LogI Servo.TAG (MsgServoPin (signal_pin config)) ;;
   Sys.log LogI Servo.TAG
     (MsgServoRange (min_pulse_width_us config) (max_pulse_width_us config)) ;;
   checked env (gpio_config (pin_bit_mask (signal_pin config))) ;;
   Sys.call env (gpio_set_level (signal_pin config) 0) ;;
   t <- checked_new (mcpwm_new_timer 0 SG90_RESOLUTION_HZ SG90_PERIOD_TICKS) ;;
   o <- checked_new (mcpwm_new_operator 0) ;;
   checked env (mcpwm_operator_connect_timer o t) ;;
   c <- checked_new (mcpwm_new_comparator o) ;;
   g <- checked_new (mcpwm_new_generator o (signal_pin config)) ;;
   checked env (mcpwm_generator_set_actions_on_timer_event g
                  [(MCPWM_TIMER_DIRECTION_UP, MCPWM_TIMER_EVENT_EMPTY,
                    MCPWM_GEN_ACTION_HIGH)]) ;;
   checked env (mcpwm_generator_set_actions_on_compare_event g
                  [(MCPWM_TIMER_DIRECTION_UP, c, MCPWM_GEN_ACTION_LOW)]) ;;
   checked env (mcpwm_timer_enable t) ;;
   checked env (mcpwm_timer_start_stop t MCPWM_TIMER_START_NO_STOP) ;;
   let config := {| signal_pin := signal_pin config;
                    timer := t; oper := o; comparator := c; generator := g;
                    min_pulse_width_us := min_pulse_width_us config;
                    max_pulse_width_us := max_pulse_width_us config |} in
   Sys.lift (Servo.sg90_set_angle plat config F32.zero) ;;
   Sys.log LogI Servo.TAG MsgServoInitDone ;;
   Sys.ret (ESP_OK, config))%sys.

(** [sg90_deinit]: the return codes of the SDK are not looked at. *)
Definition sg90_deinit (config : sg90_config_t) : P (esp_err_t * sg90_config_t) :=
  (Sys.log LogI Servo.TAG MsgServoDeinit ;;
   (if negb (generator config =? 0) then
      Sys.call env (mcpwm_generator_set_actions_on_timer_event (generator config) []) ;;
      Sys.call env (mcpwm_generator_set_actions_on_compare_event (generator config) []) ;;
      Sys.call env (mcpwm_del_generator (generator config)) ;;
      Sys.ret tt
    else Sys.ret tt) ;;
   (if negb (comparator config =? 0) then
      Sys.call env (mcpwm_del_comparator (comparator config)) ;; Sys.ret tt
    else Sys.ret tt) ;;
   (if negb (oper config =? 0) then
      Sys.call env (mcpwm_del_operator (oper config)) ;; Sys.ret tt
    else Sys.ret tt) ;;
   (if negb (timer config =? 0) then
      Sys.call env (mcpwm_timer_start_stop (timer config) MCPWM_TIMER_STOP_EMPTY) ;;
      Sys.call env (mcpwm_del_timer (timer config)) ;;
      Sys.ret tt
    else Sys.ret tt) ;;
   Sys.ret (ESP_OK,
            {| signal_pin := signal_pin config;
               timer := 0; oper := 0; comparator := 0; generator := 0;
               min_pulse_width_us := min_pulse_width_us config;
               max_pulse_width_us := max_pulse_width_us config |}))%sys.

End WithEnv.
End Sg90.

(** ** wifi_config.c *)

Module Wifi.

Definition TAG : string := "WIFI_CONFIG".

Definition set_connected (b : bool) : P unit :=
  Sys.set_wifi (fun st =>
    {| sta_ssid := sta_ssid st; sta_password := sta_password st;
       sta_netif := sta_netif st; wifi_connected := b;
       user_callback := user_callback st; user_callback_arg := user_callback_arg st;
       wifi_initialized := wifi_initialized st |}).

Definition set_netif (h : Z) : P unit :=
  Sys.set_wifi (fun st =>
    {| sta_ssid := sta_ssid st; sta_password := sta_password st;
       sta_netif := h; wifi_connected := wifi_connected st;
       user_callback := user_callback st; user_callback_arg := user_callback_arg st;
       wifi_initialized := wifi_initialized st |}).

Definition set_ssid (v : string) : P unit :=
  Sys.set_wifi (fun st =>
    {| sta_ssid := v; sta_password := sta_password st;
       sta_netif := sta_netif st; wifi_connected := wifi_connected st;
       user_callback := user_callback st; user_callback_arg := user_callback_arg st;
       wifi_initialized := wifi_initialized st |}).

Definition set_password (v : string) : P unit :=
  Sys.set_wifi (fun st =>
    {| sta_ssid := sta_ssid st; sta_password := v;
       sta_netif := sta_netif st; wifi_connected := wifi_connected st;
       user_callback := user_callback st; user_callback_arg := user_callback_arg st;
       wifi_initialized := wifi_initialized st |}).

Definition set_user_callback (cb : option wifi_event_callback_t) (arg : Z) : P unit :=
  Sys.set_wifi (fun st =>
    {| sta_ssid := sta_ssid st; sta_password := sta_password st;
       sta_netif := sta_netif st; wifi_connected := wifi_connected st;
       user_callback := cb; user_callback_arg := arg;
       wifi_initialized := wifi_initialized st |}).

Definition set_initialized (b : bool) : P unit :=
  Sys.set_wifi (fun st =>
    {| sta_ssid := sta_ssid st; sta_password := sta_password st;
       sta_netif := sta_netif st; wifi_connected := wifi_connected st;
       user_callback := user_callback st; user_callback_arg := user_callback_arg st;
       wifi_initialized := b |}).

(** [strncpy(dst, src, sizeof(dst) - 1); dst[sizeof(dst) - 1] = '\0';]: the
    C string [dst] holds afterwards. *)
Definition strncpy_str (size : nat) (src : string) : string :=
  substring 0 (size - 1) (c_str src).

(** What one pass of the waiting loop meets: the events the event loop
    handles while the caller is suspended, and the tick count read
    afterwards. *)
Record wait_round := mk_wait_round {
  arrived : list (string * Z);
  tick_now : Z
}.

Section WithEnv.
Variable env : sdk_env.
Variable build : build_config.

(** How the function pointer in [user_callback] is called. *)
Variable invoke_user : wifi_event_callback_t -> Z -> string -> Z -> P unit.

Definition wifi_event_handler (event_base : string) (event_id : Z) : P unit :=
  ((if event_id =? WIFI_EVENT_STA_START then Sys.log LogI TAG MsgStaStart
    else if event_id =? WIFI_EVENT_STA_CONNECTED then Sys.log LogI TAG MsgStaConnected
    else if event_id =? WIFI_EVENT_STA_DISCONNECTED then
      Sys.log LogW TAG MsgStaDisconnected ;;
      set_connected false ;;
      Sys.call env esp_wifi_connect ;;
      Sys.ret tt
    else Sys.ret tt) ;;
   st <- Sys.get_wifi ;;
   match user_callback st with
   | Some f => invoke_user f (user_callback_arg st) event_base event_id
   | None => Sys.ret tt
   end)%sys.

Definition ip_event_handler (event_base : string) (event_id : Z) : P unit :=
  (if event_id =? IP_EVENT_STA_GOT_IP then
     set_connected true ;;
     Sys.log LogI TAG MsgGotIp
   else if event_id =? IP_EVENT_STA_LOST_IP then
     Sys.log LogW TAG MsgLostIp ;;
     set_connected false
   else Sys.ret tt)%sys.

Definition load_wifi_config_from_env : P unit :=
  ((match WIFI_SSID build with
    | Some m =>
      set_ssid (strncpy_str (ssid_size env) m) ;;
      Sys.log LogI TAG (MsgSsidFromMacro m)
    | None =>
      match getenv env "WIFI_SSID" with
      | Some v =>
        set_ssid (strncpy_str (ssid_size env) v) ;;
        Sys.log LogI TAG (MsgSsidFromEnv v)
      | None => Sys.log LogW TAG MsgNoSsid
      end
    end) ;;
   match WIFI_PASSWORD build with
   | Some m =>
     set_password (strncpy_str (password_size env) m) ;;
     Sys.log LogI TAG MsgPasswordFromMacro
   | None =>
     match getenv env "WIFI_PASSWORD" with
     | Some v =>
       set_password (strncpy_str (password_size env) v) ;;
       Sys.log LogI TAG MsgPasswordFromEnv
     | None => Sys.log LogW TAG MsgNoPassword
     end
   end)%sys.

(** [wifi_init_sta] from line 191 on: the part both branches of the
    interface test lead to. [None] is a NULL argument. *)
Definition wifi_init_sta_configure (ssid password : option string) : P esp_err_t :=
  (Sys.call env (esp_event_handler_register WIFI_EVENT ESP_EVENT_ANY_ID
                   Fn_wifi_config_event_handler) ;;
   Sys.call env (esp_event_handler_register IP_EVENT IP_EVENT_STA_GOT_IP
                   Fn_ip_event_handler) ;;
   set_initialized true ;;
   (match ssid, password with
    | Some s, Some p =>
      set_ssid (strncpy_str (ssid_size env) s) ;;
      set_password (strncpy_str (password_size env) p) ;;
      Sys.log LogI TAG (MsgSsidGiven s)
    | _, _ => load_wifi_config_from_env
    end) ;;
   st <- Sys.get_wifi ;;
   if (String.length (sta_ssid st) =? 0)%nat then
     Sys.log LogE TAG MsgSsidEmpty ;;
     Sys.ret ESP_ERR_INVALID_ARG
   else
     checked env (esp_wifi_set_mode WIFI_MODE_STA) ;;
     checked env (esp_wifi_set_config WIFI_IF_STA (sta_ssid st) (sta_password st)) ;;
     checked env esp_wifi_start ;;
     checked env esp_wifi_connect ;;
     Sys.log LogI TAG MsgWifiInitDone ;;
     Sys.ret ESP_OK)%sys.

(** [wifi_init_sta], lines 127-190, then the part above. *)
Definition wifi_init_sta (ssid password : option string) : P esp_err_t :=
  (Sys.log LogI TAG MsgWifiInitStart ;;
   st <- Sys.get_wifi ;;
   if wifi_initialized st then
     Sys.log LogW TAG MsgWifiAlreadyInitialized ;;
     Sys.ret ESP_OK
   else
     r <- Sys.call env (nvs_flash_init false) ;;
     r <- (if (r =? ESP_ERR_NVS_NO_FREE_PAGES) || (r =? ESP_ERR_NVS_NEW_VERSION_FOUND) then
             checked env nvs_flash_erase ;;
             Sys.call env (nvs_flash_init true)
           else Sys.ret r) ;;
     check_code r ;;
     Sys.log LogI TAG MsgNetifInit ;;
     r <- Sys.call env esp_netif_init ;;
     Sys.log LogI TAG (MsgNetifInitRet r) ;;
     (if negb (r =? ESP_OK) && negb (r =? ESP_ERR_INVALID_STATE) then check_code r
      else Sys.ret tt) ;;
     Sys.log LogI TAG MsgEventLoop ;;
     r <- Sys.call env esp_event_loop_create_default ;;
     Sys.log LogI TAG (MsgEventLoopRet r) ;;
     (if r =? ESP_ERR_INVALID_STATE then Sys.log LogW TAG MsgEventLoopExists
      else Sys.ret tt) ;;
     Sys.log LogI TAG MsgWifiDriver ;;
     r <- Sys.call env esp_wifi_init ;;
     Sys.log LogI TAG (MsgWifiDriverRet r) ;;
     (if r =? ESP_ERR_INVALID_STATE then Sys.log LogW TAG MsgWifiDriverExists
      else check_code r) ;;
     Sys.log LogI TAG MsgNetifCheck ;;
     existing <- Sys.call_handle env esp_netif_get_default_netif ;;
     if negb (existing =? 0) then
       Sys.log LogW TAG (MsgNetifExists existing) ;;
       set_netif existing ;;
       wifi_init_sta_configure ssid password
     else
       Sys.log LogI TAG MsgNetifCreate ;;
       created <- Sys.call_handle env esp_netif_create_default_wifi_sta ;;
       set_netif created ;;
       if created =? 0 then
         Sys.log LogE TAG MsgNetifCreateFailed ;;
         Sys.ret ESP_FAIL
       else
         Sys.log LogI TAG (MsgNetifCreated created) ;;
         wifi_init_sta_configure ssid password)%sys.

(** The event loop of the SDK, once [wifi_init_sta] has registered the two
    handlers (lines 192-195): an event of base [WIFI_EVENT], whatever its
    id, goes to [wifi_event_handler]; the event [IP_EVENT_STA_GOT_IP] of
    base [IP_EVENT] goes to [ip_event_handler]; no other event is handled. *)
Definition deliver (ev : string * Z) : P unit :=
  let (event_base, event_id) := ev in
  if String.eqb event_base WIFI_EVENT then wifi_event_handler event_base event_id
  else if String.eqb event_base IP_EVENT && (event_id =? IP_EVENT_STA_GOT_IP)
  then ip_event_handler event_base event_id
  else Sys.ret tt.

(** The [while (!wifi_connected)] loop, unrolled along the rounds; [None]
    when the rounds end with the caller still waiting. *)
Fixpoint wait_loop (timeout_ms tick_start : Z) (rounds : list wait_round) :
    P (option esp_err_t) :=
  (st <- Sys.get_wifi ;;
   if wifi_connected st then Sys.ret (Some ESP_OK)
   else
     match rounds with
     | [] => Sys.ret None
     | r :: rest =>
       Sys.lift (vTaskDelay_ms 100) ;;
       sys_for_each (arrived r) deliver ;;
       Sys.emit (Sdk xTaskGetTickCount (tick_now r)) ;;
       if timeout_ms <?
          (((tick_now r - tick_start) mod 2 ^ 32) * portTICK_PERIOD_MS env) mod 2 ^ 32
       then
         Sys.log LogW TAG MsgWaitTimeout ;;
         Sys.ret (Some ESP_ERR_TIMEOUT)
       else wait_loop timeout_ms tick_start rest
     end)%sys.

(** [wifi_wait_connected]; [tick_start] is what the first
    [xTaskGetTickCount] returns. *)
Definition wifi_wait_connected (timeout_ms tick_start : Z) (rounds : list wait_round) :
    P (option esp_err_t) :=
  (Sys.emit (Sdk xTaskGetTickCount tick_start) ;;
   wait_loop timeout_ms tick_start rounds)%sys.

Definition wifi_is_connected : P bool :=
  (st <- Sys.get_wifi ;; Sys.ret (wifi_connected st))%sys.

(** [IPSTR] with [IP2STR]: the four bytes of the address, in decimal. *)
Definition ipstr (ip : Z * Z * Z * Z) : string :=
  let '(a, b, c, d) := ip in
  fmt_d (a mod 256) ++ "." ++ fmt_d (b mod 256) ++ "." ++ fmt_d (c mod 256) ++ "." ++
  fmt_d (d mod 256).

Definition wifi_get_ip_address : P string :=
  (st <- Sys.get_wifi ;;
   if negb (sta_netif st =? 0) && wifi_connected st then
     r <- Sys.call env (esp_netif_get_ip_info (sta_netif st)) ;;
     if r =? ESP_OK then Sys.ret (snprintf 16 (ipstr (ip_info env (sta_netif st))))
     else Sys.ret "0.0.0.0"%string
   else Sys.ret "0.0.0.0"%string)%sys.

Definition wifi_disconnect : P unit :=
  (st <- Sys.get_wifi ;;
   if wifi_connected st then
     Sys.call env esp_wifi_disconnect ;;
     set_connected false ;;
     Sys.log LogI TAG MsgWifiDisconnected
   else Sys.ret tt)%sys.

Definition wifi_register_event_callback (callback : option wifi_event_callback_t)
    (handler_arg : Z) : P esp_err_t :=
  (set_user_callback callback handler_arg ;; Sys.ret ESP_OK)%sys.

End WithEnv.
End Wifi.

(** ** main.c: the tasks *)

Module App.

(** [wifi_event_handler] of main.c; [strcmp] compares the C strings. *)
Definition wifi_event_handler (handler_arg : Z) (event_base : string) (event_id : Z) :
    P unit :=
  if String.eqb (c_str event_base) (c_str WIFI_EVENT) then
    if event_id =? WIFI_EVENT_STA_CONNECTED then Sys.log LogI Main.TAG MsgHotspotConnected
    else if event_id =? WIFI_EVENT_STA_DISCONNECTED
    then Sys.log LogW Main.TAG MsgHotspotDisconnected
    else Sys.ret tt
  else if String.eqb (c_str event_base) (c_str IP_EVENT) then
    if event_id =? IP_EVENT_STA_GOT_IP then Sys.log LogI Main.TAG MsgIpObtained
    else Sys.ret tt
  else Sys.ret tt.

(** Calling through a [wifi_event_callback_t]. *)
Definition invoke_user (f : wifi_event_callback_t) : Z -> string -> Z -> P unit :=
  match f with
  | Fn_wifi_event_handler => wifi_event_handler
  end.



Section WithEnv.
Variable plat : platform.
Variable env : sdk_env.
Variable build : build_config.



(** [app_main]; [task_create_ret] is what [xTaskCreate] returns. The task
    it creates, [servo_control_task], runs in its own context. *)
Definition app_main (task_create_ret : Z) : P unit :=
  (Sys.log LogI Main.TAG MsgBannerLine ;;
   Sys.log LogI Main.TAG MsgAppTitle ;;
   Sys.log LogI Main.TAG MsgAppHardware ;;
   Sys.log LogI Main.TAG MsgAppFeatures ;;
   Sys.log LogI Main.TAG MsgBannerLine ;;
   Wifi.wifi_register_event_callback (Some Fn_wifi_event_handler) 0 ;;
   (match WIFI_SSID build with
    | Some m => Sys.log LogI Main.TAG (MsgConnectingTo m)
    | None => Sys.log LogI Main.TAG MsgConnectingUnconfigured
    end) ;;
   r <- Wifi.wifi_init_sta env build None None ;;
   (if negb (r =? ESP_OK) then Sys.log LogE Main.TAG (MsgWifiInitFailed r)
    else Sys.ret tt) ;;
   Sys.lift (emit (EvTaskCreate "servo_control" task_create_ret)))%sys.

End WithEnv.
End App.

(** ** Vocabulary for the rest of the program *)

(** The SDK calls of a run, in order, and its events of the first part. *)
Definition sdk_calls (l : list sys_event) : list sdk_call :=
  flat_map (fun e => match e with Sdk c _ => [c] | _ => [] end) l.

Definition core_events (l : list sys_event) : list event :=
  flat_map (fun e => match e with Core e => [e] | _ => [] end) l.

(** A list of calls up to and including the first that is not [ok]. *)
Fixpoint until_failed (ok : sdk_call -> bool) (l : list sdk_call) : list sdk_call :=
  match l with
  | [] => []
  | c :: rest => c :: (if ok c then until_failed ok rest else [])
  end.

(** The calls [sg90_init] makes when none fails, with the handles each
    [mcpwm_new_*] yields. *)
Definition init_timer (env : sdk_env) : Z :=
  sdk_handle env (mcpwm_new_timer 0 Sg90.SG90_RESOLUTION_HZ Sg90.SG90_PERIOD_TICKS).
Definition init_oper (env : sdk_env) : Z := sdk_handle env (mcpwm_new_operator 0).
Definition init_comparator (env : sdk_env) : Z :=
  sdk_handle env (mcpwm_new_comparator (init_oper env)).
Definition init_generator (env : sdk_env) (config : sg90_config_t) : Z :=
  sdk_handle env (mcpwm_new_generator (init_oper env) (signal_pin config)).

Definition init_calls (env : sdk_env) (config : sg90_config_t) : list sdk_call :=
  [gpio_config (Sg90.pin_bit_mask env (signal_pin config));
   gpio_set_level (signal_pin config) 0;
   mcpwm_new_timer 0 1000000 20000;
   mcpwm_new_operator 0;
   mcpwm_operator_connect_timer (init_oper env) (init_timer env);
   mcpwm_new_comparator (init_oper env);
   mcpwm_new_generator (init_oper env) (signal_pin config);
   mcpwm_generator_set_actions_on_timer_event (init_generator env config)
     [(MCPWM_TIMER_DIRECTION_UP, MCPWM_TIMER_EVENT_EMPTY, MCPWM_GEN_ACTION_HIGH)];
   mcpwm_generator_set_actions_on_compare_event (init_generator env config)
     [(MCPWM_TIMER_DIRECTION_UP, init_comparator env, MCPWM_GEN_ACTION_LOW)];
   mcpwm_timer_enable (init_timer env);
   mcpwm_timer_start_stop (init_timer env) MCPWM_TIMER_START_NO_STOP].

(** The struct [sg90_init] leaves behind. *)
Definition initialised (env : sdk_env) (config : sg90_config_t) : sg90_config_t :=
  {| signal_pin := signal_pin config;
     timer := init_timer env; oper := init_oper env;
     comparator := init_comparator env; generator := init_generator env config;
     min_pulse_width_us := min_pulse_width_us config;
     max_pulse_width_us := max_pulse_width_us config |}.

(** Whether [sg90_init] goes past a call: the level set on the pin is the
    one call whose code it does not check. *)
Definition init_passes (env : sdk_env) (c : sdk_call) : bool :=
  match c with
  | gpio_set_level _ _ => true
  | _ => sdk_ret env c =? ESP_OK
  end.

(** The calls [sg90_deinit] makes: for each handle that is not NULL. *)
Definition deinit_calls (config : sg90_config_t) : list sdk_call :=
  (if generator config =? 0 then []
   else [mcpwm_generator_set_actions_on_timer_event (generator config) [];
         mcpwm_generator_set_actions_on_compare_event (generator config) [];
         mcpwm_del_generator (generator config)]) ++
  (if comparator config =? 0 then [] else [mcpwm_del_comparator (comparator config)]) ++
  (if oper config =? 0 then [] else [mcpwm_del_operator (oper config)]) ++
  (if timer config =? 0 then []
   else [mcpwm_timer_start_stop (timer config) MCPWM_TIMER_STOP_EMPTY;
         mcpwm_del_timer (timer config)]).

(** The struct with its four handles NULL. *)
Definition released (config : sg90_config_t) : sg90_config_t :=
  {| signal_pin := signal_pin config;
     timer := 0; oper := 0; comparator := 0; generator := 0;
     min_pulse_width_us := min_pulse_width_us config;
     max_pulse_width_us := max_pulse_width_us config |}.

(** A target that accepts every call, hands out the handles 11 to 14 for
    the servo, has no network interface until one is created (handle 21)
    and no environment variables, the array sizes of ESP-IDF and a tick of
    10 ms. *)
Definition willing_sdk : sdk_env :=
  {| sdk_ret := fun _ => ESP_OK;
     sdk_handle := fun c => match c with
                            | mcpwm_new_timer _ _ _ => 11
                            | mcpwm_new_operator _ => 12
                            | mcpwm_new_comparator _ => 13
                            | mcpwm_new_generator _ _ => 14
                            | esp_netif_create_default_wifi_sta => 21
                            | _ => 0
                            end;
     shift_undef := fun _ => 0;
     getenv := fun _ => None;
     ip_info := fun _ => (192, 168, 4, 1);
     ssid_size := 32;
     password_size := 64;
     portTICK_PERIOD_MS := 10 |}.

(** The system as the C initialisers leave it. *)
Definition boot_system : system :=
  {| sys_world := boot_world; sys_wifi := wifi_statics_init |}.

(** [wifi_connected] after the event loop has handled an event. *)
Definition flag_after (connected : bool) (ev : string * Z) : bool :=
  let (event_base, event_id) := ev in
  if String.eqb event_base WIFI_EVENT then
    if event_id =? WIFI_EVENT_STA_DISCONNECTED then false else connected
  else if String.eqb event_base IP_EVENT && (event_id =? IP_EVENT_STA_GOT_IP) then true
  else connected.

(** The SDK calls the handlers make for an event: a reconnection attempt
    for each disconnection. *)
Definition handler_calls (ev : string * Z) : list sdk_call :=
  let (event_base, event_id) := ev in
  if String.eqb event_base WIFI_EVENT && (event_id =? WIFI_EVENT_STA_DISCONNECTED)
  then [esp_wifi_connect] else [].

(** What [wifi_event_handler] of main.c logs, and what it logs for an event
    of the event loop when it is the registered callback. *)
Definition user_reports (l : list sys_event) : list sys_msg :=
  flat_map (fun e => match e with
                     | SysLog _ tag msg => if String.eqb tag Main.TAG then [msg] else []
                     | _ => []
                     end) l.

Definition hotspot_report (ev : string * Z) : list sys_msg :=
  let (event_base, event_id) := ev in
  if String.eqb event_base WIFI_EVENT then
    if event_id =? WIFI_EVENT_STA_CONNECTED then [MsgHotspotConnected]
    else if event_id =? WIFI_EVENT_STA_DISCONNECTED then [MsgHotspotDisconnected]
    else []
  else [].

(** The statics of wifi_config.c with another value of [wifi_connected]. *)
Definition with_connected (b : bool) (s : system) : system :=
  {| sys_world := sys_world s;
     sys_wifi := {| sta_ssid := sta_ssid (sys_wifi s);
                    sta_password := sta_password (sys_wifi s);
                    sta_netif := sta_netif (sys_wifi s);
                    wifi_connected := b;
                    user_callback := user_callback (sys_wifi s);
                    user_callback_arg := user_callback_arg (sys_wifi s);
                    wifi_initialized := wifi_initialized (sys_wifi s) |} |}.

(** The booted system with the callback of [app_main] registered. *)
Definition listening_system : system :=
  {| sys_world := boot_world;
     sys_wifi := {| sta_ssid := "feeder"; sta_password := "secret"; sta_netif := 21;
                    wifi_connected := false;
                    user_callback := Some Fn_wifi_event_handler; user_callback_arg := 0;
                    wifi_initialized := true |} |}.

(** The one message of main.c that tells of an address. *)
Definition is_ip_obtained (m : sys_msg) : bool :=
  match m with MsgIpObtained => true | _ => false end.

(** Whether the station was started in a run. *)
Definition wifi_started (l : list sys_event) : bool :=
  existsb (fun c => match c with esp_wifi_start => true | _ => false end) (sdk_calls l).

(** The credentials handed to [esp_wifi_set_config] in a run. *)
Definition config_sent (l : list sys_event) : list (string * string) :=
  flat_map (fun c => match c with
                     | esp_wifi_set_config _ ssid password => [(ssid, password)]
                     | _ => []
                     end) (sdk_calls l).

(** Where [wifi_init_sta] takes a credential from: the arguments when both
    are given, else the macro of the build, else the environment variable,
    else what the array held. *)
Definition credential (size : nat) (given macro env_value : option string) (both : bool)
    (old : string) : string :=
  match given, both with
  | Some x, true => Wifi.strncpy_str size x
  | _, _ =>
    match macro, env_value with
    | Some m, _ => Wifi.strncpy_str size m
    | None, Some v => Wifi.strncpy_str size v
    | None, None => old
    end
  end.

Definition both_given (ssid password : option string) : bool :=
  match ssid, password with Some _, Some _ => true | _, _ => false end.

(** A build without the two macros. *)
Definition no_macros : build_config := {| WIFI_SSID := None; WIFI_PASSWORD := None |}.




(* ===================================================================== *)
(** * Properties *)
(* ===================================================================== *)

(** ** Running monadic code *)

Lemma run_bind_ret {A B} (m : M A) (k : A -> M B) w ev a w' :
  m w = (ev, Ret a w') ->
  bind m k w = (ev ++ events (k a w'), result (k a w')).
Proof.
  intros H. unfold bind. rewrite H. destruct (k a w'); reflexivity.
Qed.

Lemma run_bind_abort {A B} (m : M A) (k : A -> M B) w ev :
  m w = (ev, Abort) -> bind m k w = (ev, Abort).
Proof.
  intros H. unfold bind. rewrite H. reflexivity.
Qed.

Lemma bind_ext_on {A B} (m : M A) (k k' : A -> M B) w :
  (forall ev a w', m w = (ev, Ret a w') -> k a w' = k' a w') ->
  bind m k w = bind m k' w.
Proof.
  intros H. unfold bind. destruct (m w) as [ev [a w'|]]; [|reflexivity].
  rewrite (H ev a w' eq_refl). reflexivity.
Qed.

Lemma run_pair {A} (r : list event * outcome A) : r = (events r, result r).
Proof. destruct r; reflexivity. Qed.

Lemma actions_app l1 l2 : actions (l1 ++ l2) = actions l1 ++ actions l2.
Proof. unfold actions. apply filter_app. Qed.

(** ** The servo driver *)

Section ServoFacts.
Variable plat : platform.

(** The driver write at the end of [sg90_set_angle], as a function of the
    SDK's verdict on the compare value. *)
Lemma sg90_set_angle_run config angle w :
  let ticks := Servo.duty plat config angle in
  let a := Servo.clamp_angle angle in
  let log := EvLog LogI Servo.TAG (MsgSetAngle a (Servo.pulse_width config a)) in
  Servo.sg90_set_angle plat config angle w =
    if cmpr_set_ret plat (comparator config) ticks =? ESP_OK
    then ([log; EvSetCompare (comparator config) ticks ESP_OK],
          Ret ESP_OK {| compare_value := fun h => if h =? comparator config then ticks
                                                  else compare_value w h;
                        server_state := server_state w;
                        g_servo_config := g_servo_config w |})
    else ([log; EvSetCompare (comparator config) ticks
                  (cmpr_set_ret plat (comparator config) ticks); EvAbort], Abort).
Proof.
  cbv zeta. unfold Servo.sg90_set_angle, Servo.duty, ESP_ERROR_CHECK, esp_log, emit,
    Servo.mcpwm_comparator_set_compare_value, bind, ret, abort.
  destruct (cmpr_set_ret plat (comparator config) _ =? ESP_OK) eqn:E.
  - apply Z.eqb_eq in E. rewrite E. reflexivity.
  - reflexivity.
Qed.

End ServoFacts.

Section ServoReset.
Variable plat : platform.

Lemma with_reset_straight config angle reset_delay_ms w :
  Servo.sg90_set_angle_with_reset plat config angle reset_delay_ms w =
  set_angle_then_home plat config angle reset_delay_ms w.
Proof.
  unfold Servo.sg90_set_angle_with_reset, set_angle_then_home.
  apply bind_ext_on. intros ev a w' H.
  rewrite sg90_set_angle_run in H. cbv zeta in H.
  destruct (cmpr_set_ret plat (comparator config) (Servo.duty plat config angle) =? ESP_OK);
    inversion H; reflexivity.
Qed.

(** The whole run of [sg90_set_angle_with_reset], by the SDK's verdicts on
    the two compare values. *)
Lemma with_reset_run config angle reset_delay_ms w :
  let c := comparator config in
  let t1 := Servo.duty plat config angle in
  let t0 := Servo.duty plat config F32.zero in
  let r := Servo.sg90_set_angle_with_reset plat config angle reset_delay_ms w in
  if cmpr_set_ret plat c t1 =? ESP_OK then
    if cmpr_set_ret plat c t0 =? ESP_OK then
      actions (events r) = [EvSetCompare c t1 ESP_OK; EvDelay reset_delay_ms;
                            EvSetCompare c t0 ESP_OK] /\
      result r = Ret ESP_OK {| compare_value := fun h => if h =? c then t0 else
                                                 if h =? c then t1 else compare_value w h;
                               server_state := server_state w;
                               g_servo_config := g_servo_config w |}
    else
      actions (events r) = [EvSetCompare c t1 ESP_OK; EvDelay reset_delay_ms;
                            EvSetCompare c t0 (cmpr_set_ret plat c t0); EvAbort] /\
      result r = Abort
  else
    actions (events r) = [EvSetCompare c t1 (cmpr_set_ret plat c t1); EvAbort] /\
    result r = Abort.
Proof.
  cbv zeta. rewrite with_reset_straight. unfold set_angle_then_home.
  pose proof (sg90_set_angle_run plat config angle w) as R1. cbv zeta in R1.
  destruct (cmpr_set_ret plat (comparator config) (Servo.duty plat config angle) =? ESP_OK).
  - rewrite (run_bind_ret _ _ _ _ _ _ R1).
    unfold esp_log, vTaskDelay_ms.
    erewrite run_bind_ret by reflexivity. erewrite run_bind_ret by reflexivity.
    pose proof (fun w1 => sg90_set_angle_run plat config F32.zero w1) as R0.
    cbv zeta in R0.
    destruct (cmpr_set_ret plat (comparator config) (Servo.duty plat config F32.zero) =? ESP_OK).
    + cbv beta. rewrite (run_bind_ret _ _ _ _ _ _ (R0 _)). split; reflexivity.
    + cbv beta. rewrite (run_bind_abort _ _ _ _ (R0 _)). split; reflexivity.
  - rewrite (run_bind_abort _ _ _ _ R1). split; reflexivity.
Qed.

(** Progress: when the SDK accepts both compare values the call returns. *)
Lemma with_reset_returns config angle reset_delay_ms w :
  cmpr_set_ret plat (comparator config) (Servo.duty plat config angle) = ESP_OK ->
  cmpr_set_ret plat (comparator config) (Servo.duty plat config F32.zero) = ESP_OK ->
  exists w', result (Servo.sg90_set_angle_with_reset plat config angle reset_delay_ms w)
             = Ret ESP_OK w'.
Proof.
  intros H1 H0. pose proof (with_reset_run config angle reset_delay_ms w) as R.
  cbv zeta in R. rewrite H1, H0 in R. cbn in R. destruct R as [_ R]. eauto.
Qed.

(** C2. For every configuration, angle and delay: a call of
    [sg90_set_angle_with_reset] that returns has first written the duty of
    the commanded angle, then suspended the caller for the delay, then
    written the duty of the home angle 0; on return the comparator holds the
    home duty, whatever the commanded angle was, and the code returned is
    [ESP_OK]. *)
Theorem set_angle_with_reset_ends_at_home config angle reset_delay_ms w r w' :
  result (Servo.sg90_set_angle_with_reset plat config angle reset_delay_ms w) = Ret r w' ->
  actions (events (Servo.sg90_set_angle_with_reset plat config angle reset_delay_ms w)) =
    [EvSetCompare (comparator config) (Servo.duty plat config angle) ESP_OK;
     EvDelay reset_delay_ms;
     EvSetCompare (comparator config) (Servo.duty plat config F32.zero) ESP_OK] /\
  compare_value w' (comparator config) = Servo.duty plat config F32.zero /\
  r = ESP_OK.
Proof.
  intros H. pose proof (with_reset_run config angle reset_delay_ms w) as R.
  cbv zeta in R.
  destruct (cmpr_set_ret plat (comparator config) (Servo.duty plat config angle) =? ESP_OK).
  - destruct (cmpr_set_ret plat (comparator config) (Servo.duty plat config F32.zero) =? ESP_OK).
    + destruct R as [Ra Rr]. rewrite Rr in H. inversion H; subst. split; [exact Ra|].
      split; [|reflexivity]. cbn. rewrite Z.eqb_refl. reflexivity.
    + destruct R as [_ Rr]. rewrite Rr in H. discriminate.
  - destruct R as [_ Rr]. rewrite Rr in H. discriminate.
Qed.

(** C10. [sg90_set_angle] either returns [ESP_OK] or aborts the process;
    hence the early [return ret] of [sg90_set_angle_with_reset] is never
    taken (the function is its straight-line remainder), and it too either
    returns [ESP_OK] or aborts. *)
Theorem set_angle_only_returns_ok config angle reset_delay_ms w :
  ((exists w', result (Servo.sg90_set_angle plat config angle w) = Ret ESP_OK w') \/
   result (Servo.sg90_set_angle plat config angle w) = Abort) /\
  Servo.sg90_set_angle_with_reset plat config angle reset_delay_ms w =
    set_angle_then_home plat config angle reset_delay_ms w /\
  ((exists w', result (Servo.sg90_set_angle_with_reset plat config angle reset_delay_ms w)
               = Ret ESP_OK w') \/
   result (Servo.sg90_set_angle_with_reset plat config angle reset_delay_ms w) = Abort).
Proof.
  split; [|split].
  - rewrite sg90_set_angle_run. cbv zeta.
    destruct (cmpr_set_ret plat (comparator config) (Servo.duty plat config angle) =? ESP_OK).
    + left. eexists. reflexivity.
    + right. reflexivity.
  - apply with_reset_straight.
  - pose proof (with_reset_run config angle reset_delay_ms w) as R. cbv zeta in R.
    destruct (cmpr_set_ret plat (comparator config) (Servo.duty plat config angle) =? ESP_OK).
    + destruct (cmpr_set_ret plat (comparator config) (Servo.duty plat config F32.zero) =? ESP_OK).
      * left. destruct R as [_ R]. eexists. exact R.
      * right. apply R.
    + right. apply R.
Qed.

End ServoReset.

(** ** The digit-to-angle table and the command handler *)

Lemma sends_app l1 l2 : sends (l1 ++ l2) = sends l1 ++ sends l2.
Proof. unfold sends. apply flat_map_app. Qed.

Lemma duty_writes_app l1 l2 : duty_writes (l1 ++ l2) = duty_writes l1 ++ duty_writes l2.
Proof. unfold duty_writes. apply flat_map_app. Qed.

Lemma sends_actions l : sends (actions l) = sends l.
Proof.
  unfold sends, actions. induction l as [|e l IH]; [reflexivity|].
  destruct e; cbn; rewrite IH; reflexivity.
Qed.

Lemma duty_writes_actions l : duty_writes (actions l) = duty_writes l.
Proof.
  unfold duty_writes, actions. induction l as [|e l IH]; [reflexivity|].
  destruct e; cbn; rewrite IH; reflexivity.
Qed.

Lemma is_digit_cases c :
  TcpServer.is_digit c = true ->
  In c ["0"; "1"; "2"; "3"; "4"; "5"; "6"; "7"; "8"; "9"]%char.
Proof.
  destruct c as [[] [] [] [] [] [] [] []]; intros H; try discriminate H;
    cbn; tauto.
Qed.

Lemma is_digit_guard c :
  TcpServer.is_digit c = true ->
  (char_code c <? char_code "0") || (char_code "9" <? char_code c) = false.
Proof.
  unfold TcpServer.is_digit. intros H. apply andb_true_iff in H. destruct H as [H1 H2].
  apply Z.leb_le in H1. apply Z.leb_le in H2.
  apply orb_false_iff. split; apply Z.ltb_ge; assumption.
Qed.

Lemma not_digit_guard c :
  TcpServer.is_digit c = false ->
  (char_code c <? char_code "0") || (char_code "9" <? char_code c) = true.
Proof.
  unfold TcpServer.is_digit. intros H. apply andb_false_iff in H.
  apply orb_true_iff. destruct H as [H|H]; apply Z.leb_gt in H; [left|right];
    apply Z.ltb_lt; assumption.
Qed.

(** The 64-byte buffer holds every success response, and none contains a
    NUL byte. *)
Lemma ok_response_fits c :
  TcpServer.is_digit c = true ->
  c_str (snprintf 64 (spec_ok_response c
           (Main.angle_for_digit (char_code c - char_code "0")))) =
  spec_ok_response c (Main.angle_for_digit (char_code c - char_code "0")).
Proof.
  intros H. apply is_digit_cases in H. cbn in H.
  repeat (destruct H as [H|H]; [subst c; vm_compute; reflexivity|]). contradiction.
Qed.

Lemma error_response_fits :
  c_str (snprintf 64 ("ERROR: Servo not initialized" ++ newline)) = spec_error_response.
Proof. vm_compute. reflexivity. Qed.

(** C1. The digit-to-angle mapping [command_angle_map[d]] is, for the digits
    0..9 in order, exactly 0, 18, 36, 54, 72, 90, 108, 126, 144, 180: steps
    of 18 up to digit 8 and a last entry of 180, not 162; and this is the
    angle [command_handler] reports for the command character of digit d. *)
Theorem angle_for_digit_is_the_table :
  map Main.angle_for_digit [0; 1; 2; 3; 4; 5; 6; 7; 8; 9] =
    [0; 18; 36; 54; 72; 90; 108; 126; 144; 180] /\
  (forall d, 0 <= d <= 9 ->
     Main.angle_for_digit d = if d =? 9 then 180 else 18 * d) /\
  Main.angle_for_digit 9 = 180 /\
  Main.angle_for_digit 9 <> 162 /\
  Main.angle_for_digit 9 - Main.angle_for_digit 8 = 36 /\
  (forall plat c fd w, TcpServer.is_digit c = true ->
     exists rest,
       events (Main.command_handler plat c fd w) =
       EvLog LogI Main.TAG
         (MsgCommand c (Main.angle_for_digit (char_code c - char_code "0"))) :: rest).
Proof.
  split; [reflexivity|]. split.
  { intros d Hd.
    assert (d = 0 \/ d = 1 \/ d = 2 \/ d = 3 \/ d = 4 \/ d = 5 \/ d = 6 \/ d = 7 \/
            d = 8 \/ d = 9) as C by lia.
    repeat (destruct C as [C|C]; [subst d; reflexivity|]). subst d. reflexivity. }
  split; [reflexivity|]. split; [discriminate|]. split; [reflexivity|].
  intros plat c fd w H. unfold Main.command_handler.
  rewrite (is_digit_guard c H). unfold esp_log.
  erewrite run_bind_ret by reflexivity. eexists. reflexivity.
Qed.

Section HandlerFacts.
Variable plat : platform.

Lemma send_response_run fd s w :
  0 <= fd ->
  let data := c_str s in
  let sent := send_ret plat fd data in
  TcpServer.tcp_server_send_response plat fd (Some s) w =
    ([EvSend fd data sent;
      if sent <? 0 then EvLog LogE TcpServer.TAG MsgSendFailed
      else EvLog LogI TcpServer.TAG (MsgSendOk data sent)],
     Ret (if sent <? 0 then -1 else sent) w).
Proof.
  intros Hfd. cbv zeta. unfold TcpServer.tcp_server_send_response.
  apply Z.ltb_ge in Hfd. rewrite Hfd.
  unfold bind, emit, esp_log, ret.
  destruct (send_ret plat fd (c_str s) <? 0); reflexivity.
Qed.

(** The run of [command_handler] on a digit when the servo configuration is
    set and the SDK accepts both compare values. *)
Lemma command_handler_ok_run config c fd w :
  TcpServer.is_digit c = true ->
  0 <= fd ->
  g_servo_config w = Some config ->
  let angle := Main.angle_for_digit (char_code c - char_code "0") in
  let r := Main.command_handler plat c fd w in
  let m := Servo.sg90_set_angle_with_reset plat config (F32.of_Z angle) 1000 w in
  match result m with
  | Ret _ w1 =>
      actions (events r) = actions (events m) ++
        [EvSend fd (spec_ok_response c angle)
           (send_ret plat fd (spec_ok_response c angle))] /\
      result r = Ret tt w1
  | Abort => events r = EvLog LogI Main.TAG (MsgCommand c angle) :: events m /\
             result r = Abort
  end.
Proof.
  intros Hd Hfd Hcfg. cbv zeta. unfold Main.command_handler.
  rewrite (is_digit_guard c Hd). unfold esp_log.
  erewrite run_bind_ret by reflexivity.
  erewrite run_bind_ret by reflexivity. cbv beta. rewrite Hcfg.
  destruct (Servo.sg90_set_angle_with_reset plat config
              (F32.of_Z (Main.angle_for_digit (char_code c - char_code "0"))) 1000 w)
    as [ev [r1 w1|]] eqn:E.
  - erewrite run_bind_ret by exact E. cbv beta.
    erewrite run_bind_ret by reflexivity. cbv beta.
    fold (spec_ok_response c (Main.angle_for_digit (char_code c - char_code "0"))).
    pose proof (send_response_run fd
      (snprintf 64 (spec_ok_response c
         (Main.angle_for_digit (char_code c - char_code "0")))) w1 Hfd) as S.
    cbv zeta in S. rewrite (ok_response_fits c Hd) in S.
    erewrite run_bind_ret by exact S. cbn [result events fst snd].
    split; [|reflexivity].
    rewrite !actions_app.
    destruct (send_ret plat fd _ <? 0); reflexivity.
  - erewrite run_bind_abort by exact E. split; reflexivity.
Qed.

(** C7. With the servo configuration set, a digit command that
    [command_handler] completes (no hardware fault aborts it) makes exactly
    one write to the connection it was given: the text
    "OK: Command <c> -> Angle <n>° (auto reset in 1s)\n" with <n> the table
    angle of <c>. *)
Theorem digit_command_response config c fd w w' :
  TcpServer.is_digit c = true ->
  0 <= fd ->
  g_servo_config w = Some config ->
  result (Main.command_handler plat c fd w) = Ret tt w' ->
  sends (events (Main.command_handler plat c fd w)) =
    [(fd, spec_ok_response c (Main.angle_for_digit (char_code c - char_code "0")))].
Proof.
  intros Hd Hfd Hcfg Hret.
  pose proof (command_handler_ok_run config c fd w Hd Hfd Hcfg) as R. cbv zeta in R.
  pose proof (with_reset_run plat config
    (F32.of_Z (Main.angle_for_digit (char_code c - char_code "0"))) 1000 w) as W.
  cbv zeta in W.
  destruct (result (Servo.sg90_set_angle_with_reset plat config
              (F32.of_Z (Main.angle_for_digit (char_code c - char_code "0"))) 1000 w))
    as [r1 w1|] eqn:E.
  - destruct R as [Ra _]. rewrite <- sends_actions, Ra, sends_app, sends_actions.
    destruct (cmpr_set_ret plat (comparator config) _ =? ESP_OK);
      [destruct (cmpr_set_ret plat (comparator config) _ =? ESP_OK)|];
      destruct W as [Wa Wr]; try discriminate Wr.
    rewrite <- sends_actions, Wa. reflexivity.
  - destruct R as [_ Rr]. rewrite Rr in Hret. discriminate.
Qed.

(** The run of [command_handler] on a digit while [g_servo_config] is
    NULL. *)
Lemma command_handler_uninit_run c fd w :
  TcpServer.is_digit c = true ->
  0 <= fd ->
  g_servo_config w = None ->
  actions (events (Main.command_handler plat c fd w)) =
    [EvSend fd spec_error_response (send_ret plat fd spec_error_response)] /\
  result (Main.command_handler plat c fd w) = Ret tt w.
Proof.
  intros Hd Hfd Hcfg. unfold Main.command_handler.
  rewrite (is_digit_guard c Hd). unfold esp_log.
  erewrite run_bind_ret by reflexivity.
  erewrite run_bind_ret by reflexivity. cbv beta. rewrite Hcfg.
  pose proof (send_response_run fd
    (snprintf 64 ("ERROR: Servo not initialized" ++ newline)) w Hfd) as S.
  cbv zeta in S. rewrite error_response_fits in S.
  erewrite run_bind_ret by exact S. cbn [result events fst snd app].
  destruct (send_ret plat fd spec_error_response <? 0); split; reflexivity.
Qed.

(** C8. With no servo configuration set ([g_servo_config == NULL]) a digit
    command writes "ERROR: Servo not initialized\n" to the connection and
    nothing to the comparator: no compare value is written, and the world
    (the compare registers included) is left as it was. *)
Theorem digit_command_uninitialized c fd w :
  TcpServer.is_digit c = true ->
  0 <= fd ->
  g_servo_config w = None ->
  sends (events (Main.command_handler plat c fd w)) = [(fd, spec_error_response)] /\
  duty_writes (events (Main.command_handler plat c fd w)) = [] /\
  actions (events (Main.command_handler plat c fd w)) =
    [EvSend fd spec_error_response (send_ret plat fd spec_error_response)] /\
  result (Main.command_handler plat c fd w) = Ret tt w.
Proof.
  intros Hd Hfd Hcfg.
  destruct (command_handler_uninit_run c fd w Hd Hfd Hcfg) as [Ha Hr].
  rewrite <- sends_actions, <- duty_writes_actions, Ha.
  repeat split; try reflexivity. exact Hr.
Qed.

End HandlerFacts.

(** ** Listener initialisation *)

(** The run of [tcp_server_init], by the outcomes of [socket], [bind] and
    [listen]. *)
Lemma tcp_server_init_run env port0 w :
  let r := TcpServer.tcp_server_init env port0 w in
  let p := if port0 =? 0 then 8080 else port0 in
  let st fd := {| compare_value := compare_value w;
                  server_state := {| server_fd := fd; port := p;
                                     running := running (server_state w);
                                     callback := callback (server_state w) |};
                  g_servo_config := g_servo_config w |} in
  let fd := TcpServer.socket_ret env in
  if fd <? 0 then
    result r = Ret ESP_FAIL (st fd) /\ closes (events r) = [] /\
    In (EvLog LogE TcpServer.TAG MsgSocketFailed) (events r)
  else if TcpServer.bind_ret env <? 0 then
    result r = Ret ESP_FAIL (st (-1)) /\ closes (events r) = [fd] /\
    In (EvLog LogE TcpServer.TAG MsgBindFailed) (events r)
  else if TcpServer.listen_ret env <? 0 then
    result r = Ret ESP_FAIL (st (-1)) /\ closes (events r) = [fd] /\
    In (EvLog LogE TcpServer.TAG MsgListenFailed) (events r)
  else
    result r = Ret ESP_OK (st fd) /\ closes (events r) = [] /\
    In (EvListen fd TcpServer.TCP_SERVER_BACKLOG (TcpServer.listen_ret env)) (events r).
Proof.
  cbv zeta. unfold TcpServer.tcp_server_init.
  unfold bind, esp_log, emit, ret, TcpServer.set_port, TcpServer.set_server_fd,
    TcpServer.set_server_state.
  destruct (TcpServer.socket_ret env <? 0) eqn:Es.
  - cbn. repeat split; auto 10.
  - destruct (TcpServer.setsockopt_ret env <? 0) eqn:Eo;
      (destruct (TcpServer.bind_ret env <? 0) eqn:Eb;
       [|destruct (TcpServer.listen_ret env <? 0) eqn:El]);
      cbn; repeat split; auto 10.
Qed.

(** C9. Whenever [socket], [bind] or [listen] fails, [tcp_server_init]
    returns [ESP_FAIL], never [ESP_OK], and leaves no listening socket: the
    stored descriptor is negative, and a socket that had been created has
    been closed and the stored descriptor reset to -1. A start attempted
    after such an initialisation is refused ([ESP_ERR_INVALID_STATE]) and
    creates no task. A failed [socket] and a failed [bind] are both
    failures of the initialisation, each logged as its own error. *)
Theorem tcp_server_init_failure env port0 task_create_ret w :
  init_fails env ->
  exists w',
    result (TcpServer.tcp_server_init env port0 w) = Ret ESP_FAIL w' /\
    ESP_FAIL <> ESP_OK /\
    server_fd (server_state w') < 0 /\
    (0 <= TcpServer.socket_ret env ->
       server_fd (server_state w') = -1 /\
       closes (events (TcpServer.tcp_server_init env port0 w)) = [TcpServer.socket_ret env]) /\
    (TcpServer.socket_ret env < 0 ->
       closes (events (TcpServer.tcp_server_init env port0 w)) = [] /\
       In (EvLog LogE TcpServer.TAG MsgSocketFailed)
          (events (TcpServer.tcp_server_init env port0 w))) /\
    (0 <= TcpServer.socket_ret env -> TcpServer.bind_ret env < 0 ->
       In (EvLog LogE TcpServer.TAG MsgBindFailed)
          (events (TcpServer.tcp_server_init env port0 w))) /\
    result (TcpServer.tcp_server_start task_create_ret w') = Ret ESP_ERR_INVALID_STATE w' /\
    task_creations (events (TcpServer.tcp_server_start task_create_ret w')) = [].
Proof.
  intros Hf. unfold init_fails in Hf.
  pose proof (tcp_server_init_run env port0 w) as R. cbv zeta in R.
  assert (forall fd p, fd < 0 ->
            let w' := {| compare_value := compare_value w;
                         server_state := {| server_fd := fd; port := p;
                                            running := running (server_state w);
                                            callback := callback (server_state w) |};
                         g_servo_config := g_servo_config w |} in
            result (TcpServer.tcp_server_start task_create_ret w') = Ret ESP_ERR_INVALID_STATE w' /\
            task_creations (events (TcpServer.tcp_server_start task_create_ret w')) = [])
    as Start.
  { intros fd p Hfd. cbv zeta. unfold TcpServer.tcp_server_start.
    erewrite run_bind_ret by reflexivity. cbn [server_fd server_state].
    apply Z.ltb_lt in Hfd. rewrite Hfd. split; reflexivity. }
  destruct (TcpServer.socket_ret env <? 0) eqn:Es.
  - apply Z.ltb_lt in Es. destruct R as (Rr & Rc & Rl).
    eexists. split; [exact Rr|]. split; [discriminate|]. cbn [server_fd server_state].
    split; [exact Es|]. split; [lia|]. split; [auto|]. split; [lia|].
    apply Start. exact Es.
  - apply Z.ltb_ge in Es.
    destruct (TcpServer.bind_ret env <? 0) eqn:Eb;
      [|destruct (TcpServer.listen_ret env <? 0) eqn:El].
    + destruct R as (Rr & Rc & Rl).
      eexists. split; [exact Rr|]. split; [discriminate|]. cbn [server_fd server_state].
      split; [lia|]. split; [auto|]. split; [lia|]. split; [auto|].
      apply Start. lia.
    + apply Z.ltb_ge in Eb. destruct R as (Rr & Rc & Rl).
      eexists. split; [exact Rr|]. split; [discriminate|]. cbn [server_fd server_state].
      split; [lia|]. split; [auto|]. split; [lia|]. split; [lia|].
      apply Start. lia.
    + apply Z.ltb_ge in Eb. apply Z.ltb_ge in El. lia.
Qed.

(** Conversely, initialisation succeeds when the three calls do; a failed
    [setsockopt] is only logged. *)
Lemma tcp_server_init_success env port0 w :
  0 <= TcpServer.socket_ret env -> 0 <= TcpServer.bind_ret env ->
  0 <= TcpServer.listen_ret env ->
  exists w', result (TcpServer.tcp_server_init env port0 w) = Ret ESP_OK w' /\
             server_fd (server_state w') = TcpServer.socket_ret env /\
             port (server_state w') = (if port0 =? 0 then 8080 else port0).
Proof.
  intros Hs Hb Hl. pose proof (tcp_server_init_run env port0 w) as R. cbv zeta in R.
  apply Z.ltb_ge in Hs, Hb, Hl. rewrite Hs, Hb, Hl in R.
  destruct R as (Rr & _). eexists. split; [exact Rr|]. split; reflexivity.
Qed.

(** ** The listener's byte loop *)

Lemma result_bind {A B} (m : M A) (k : A -> M B) w :
  result (bind m k w) =
  match result (m w) with Ret a w' => result (k a w') | Abort => Abort end.
Proof.
  unfold bind. destruct (m w) as [ev [a w'|]]; [|reflexivity].
  cbn. destruct (k a w'); reflexivity.
Qed.

Lemma events_bind {A B} (m : M A) (k : A -> M B) w :
  events (bind m k w) =
  events (m w) ++ match result (m w) with Ret a w' => events (k a w') | Abort => [] end.
Proof.
  unfold bind. destruct (m w) as [ev [a w'|]]; cbn.
  - destruct (k a w'); reflexivity.
  - symmetry. apply app_nil_r.
Qed.

Section ByteLoop.
Variable invoke : command_callback_t -> ascii -> Z -> M unit.

Lemma process_buffer_digits buf fd w :
  result (TcpServer.process_buffer invoke buf fd w) =
    result (for_each (filter TcpServer.is_digit buf) (dispatch invoke fd) w) /\
  actions (events (TcpServer.process_buffer invoke buf fd w)) =
    actions (events (for_each (filter TcpServer.is_digit buf) (dispatch invoke fd) w)).
Proof.
  revert w. induction buf as [|c rest IH]; intros w; [split; reflexivity|].
  cbn [TcpServer.process_buffer filter].
  destruct (TcpServer.is_digit c) eqn:Hd.
  - cbn [for_each]. fold (dispatch invoke fd c).
    rewrite !result_bind, !events_bind, !result_bind, !actions_app.
    unfold esp_log. cbn [emit result events fst snd actions filter is_log negb app].
    destruct (result (dispatch invoke fd c w)) as [[] w1|].
    + destruct (IH w1) as [IHr IHa]. unfold actions in *. rewrite IHr, IHa.
      split; reflexivity.
    + split; reflexivity.
  - rewrite result_bind, events_bind, actions_app.
    destruct (TcpServer.is_newline c).
    + cbn [ret result events fst snd app]. apply IH.
    + unfold esp_log. cbn [emit result events fst snd app]. apply IH.
Qed.

Lemma process_buffer_no_digit buf fd w :
  filter TcpServer.is_digit buf = [] ->
  TcpServer.process_buffer invoke buf fd w = (flat_map drop_log buf, Ret tt w).
Proof.
  induction buf as [|c rest IH]; intros H; [reflexivity|].
  cbn [filter] in H. cbn [TcpServer.process_buffer flat_map].
  destruct (TcpServer.is_digit c) eqn:Hd; [discriminate|].
  unfold drop_log at 1. destruct (TcpServer.is_newline c).
  - erewrite run_bind_ret by reflexivity. rewrite (IH H). reflexivity.
  - unfold esp_log. erewrite run_bind_ret by reflexivity. rewrite (IH H). reflexivity.
Qed.

End ByteLoop.

(** Splitting a run into its events and its result, bind by bind. *)
Ltac mstep :=
  repeat (rewrite ?events_bind, ?result_bind;
          cbn [esp_log emit vTaskDelay_ms ret get put abort events result fst snd
               TcpServer.get_server_state TcpServer.set_server_state
               TcpServer.set_running TcpServer.set_server_fd TcpServer.set_port
               TcpServer.set_callback]).

Lemma warnings_app l1 l2 : warnings (l1 ++ l2) = warnings l1 ++ warnings l2.
Proof. unfold warnings. apply flat_map_app. Qed.

Lemma recv_nothing rx :
  (0 <? TcpServer.recv_received rx) = false -> TcpServer.recv_buffer rx = [].
Proof.
  intros H. destruct rx as [bytes|en]; [|reflexivity].
  unfold TcpServer.recv_received in H. apply Z.ltb_ge in H.
  destruct (TcpServer.recv_buffer (TcpServer.RecvData bytes)); [reflexivity|].
  cbn [List.length] in H. lia.
Qed.

Section ListenerPass.
Variable invoke : command_callback_t -> ascii -> Z -> M unit.

(** One pass of the loop on an accepted connection: the bytes [recv]
    stored, all of them, go through the byte loop. *)
Lemma loop_body_digits accept_ret errno rx w :
  0 <= accept_ret ->
  result (TcpServer.loop_body invoke accept_ret errno rx w) =
    result (for_each (filter TcpServer.is_digit (TcpServer.recv_buffer rx))
              (dispatch invoke accept_ret) w) /\
  actions (events (TcpServer.loop_body invoke accept_ret errno rx w)) =
    EvAccept (server_fd (server_state w)) accept_ret ::
    EvRecv accept_ret 63 (TcpServer.recv_received rx) ::
    actions (events (for_each (filter TcpServer.is_digit (TcpServer.recv_buffer rx))
                       (dispatch invoke accept_ret) w)) ++
    match result (for_each (filter TcpServer.is_digit (TcpServer.recv_buffer rx))
              (dispatch invoke accept_ret) w) with
    | Ret _ _ => [EvClose accept_ret; EvDelay 10]
    | Abort => []
    end.
Proof.
  intros Ha. apply Z.ltb_ge in Ha. unfold TcpServer.loop_body. mstep.
  rewrite Ha. mstep.
  destruct (0 <? TcpServer.recv_received rx) eqn:Er.
  - mstep.
    destruct (process_buffer_digits invoke (TcpServer.recv_buffer rx) accept_ret w)
      as [Pr Pa].
    rewrite Pr. cbn [app]. unfold actions at 1. cbn [filter is_log negb].
    match goal with |- context [filter _ (?l1 ++ ?l2)] =>
      change (filter (fun e => negb (is_log e)) (l1 ++ l2)) with (actions (l1 ++ l2)) end.
    rewrite actions_app, Pa.
    destruct (result (for_each _ _ w)) as [[] w1|]; mstep; split; reflexivity.
  - rewrite (recv_nothing rx Er). cbn [filter for_each].
    destruct (TcpServer.recv_received rx =? 0);
      [|destruct (negb (TcpServer.recv_errno rx =? EAGAIN) &&
                  negb (TcpServer.recv_errno rx =? EWOULDBLOCK))];
      mstep; split; reflexivity.
Qed.

End ListenerPass.

Section ProgramLoop.
Variable plat : platform.

(** A completed digit command, event by event. *)
Lemma command_handler_digit_run config c fd w w' :
  TcpServer.is_digit c = true ->
  0 <= fd ->
  g_servo_config w = Some config ->
  result (Main.command_handler plat c fd w) = Ret tt w' ->
  let angle := Main.angle_for_digit (char_code c - char_code "0") in
  let resp := spec_ok_response c angle in
  actions (events (Main.command_handler plat c fd w)) =
    [EvSetCompare (comparator config) (Servo.duty plat config (F32.of_Z angle)) ESP_OK;
     EvDelay 1000;
     EvSetCompare (comparator config) (Servo.duty plat config F32.zero) ESP_OK;
     EvSend fd resp (send_ret plat fd resp)] /\
  server_state w' = server_state w /\
  g_servo_config w' = g_servo_config w /\
  compare_value w' (comparator config) = Servo.duty plat config F32.zero.
Proof.
  intros Hd Hfd Hcfg Hret. cbv zeta.
  pose proof (command_handler_ok_run plat config c fd w Hd Hfd Hcfg) as R. cbv zeta in R.
  pose proof (with_reset_run plat config
    (F32.of_Z (Main.angle_for_digit (char_code c - char_code "0"))) 1000 w) as W.
  cbv zeta in W.
  destruct (cmpr_set_ret plat (comparator config) _ =? ESP_OK);
    [destruct (cmpr_set_ret plat (comparator config) _ =? ESP_OK)|];
    destruct W as [Wa Wr]; rewrite Wr in R; destruct R as [Ra Rr];
    rewrite Rr in Hret; try discriminate Hret.
  inversion Hret; subst w'. rewrite Ra, Wa. cbn.
  rewrite Z.eqb_refl. repeat split; reflexivity.
Qed.

Lemma dispatch_program fd c w :
  callback (server_state w) = Some Fn_command_handler ->
  dispatch (Main.invoke plat) fd c w = Main.command_handler plat c fd w.
Proof.
  intros H. unfold dispatch. erewrite run_bind_ret by reflexivity. cbv beta.
  rewrite H. cbn [Main.invoke]. symmetry. apply run_pair.
Qed.

Lemma for_each_digit_commands config fd ds : forall w w',
  Forall (fun c => TcpServer.is_digit c = true) ds ->
  0 <= fd ->
  g_servo_config w = Some config ->
  callback (server_state w) = Some Fn_command_handler ->
  result (for_each ds (dispatch (Main.invoke plat) fd) w) = Ret tt w' ->
  sends (events (for_each ds (dispatch (Main.invoke plat) fd) w)) = digit_responses fd ds /\
  duty_writes (events (for_each ds (dispatch (Main.invoke plat) fd) w)) =
    digit_duties plat config ds.
Proof.
  induction ds as [|c ds IH]; intros w w' Hds Hfd Hcfg Hcb Hret; [split; reflexivity|].
  inversion Hds as [|? ? Hc Hds']; subst.
  cbn [for_each] in *. rewrite result_bind in Hret. rewrite events_bind.
  rewrite (dispatch_program fd c w Hcb) in *.
  destruct (result (Main.command_handler plat c fd w)) as [[] w1|] eqn:E; [|discriminate].
  destruct (command_handler_digit_run config c fd w w1 Hc Hfd Hcfg E) as (Ha & Hs & Hg & _).
  cbv zeta in Ha.
  assert (g_servo_config w1 = Some config) as Hcfg1 by (rewrite Hg; exact Hcfg).
  assert (callback (server_state w1) = Some Fn_command_handler) as Hcb1
    by (rewrite Hs; exact Hcb).
  destruct (IH w1 w' Hds' Hfd Hcfg1 Hcb1 Hret) as [IHs IHd].
  rewrite sends_app, duty_writes_app, IHs, IHd.
  rewrite <- (sends_actions (events (Main.command_handler plat c fd w))).
  rewrite <- (duty_writes_actions (events (Main.command_handler plat c fd w))).
  rewrite Ha. split; reflexivity.
Qed.

Lemma sg90_set_angle_warnings config angle w :
  warnings (events (Servo.sg90_set_angle plat config angle w)) = [].
Proof.
  rewrite sg90_set_angle_run. cbv zeta.
  destruct (cmpr_set_ret plat (comparator config) _ =? ESP_OK); reflexivity.
Qed.

Lemma send_response_warnings fd resp w :
  warnings (events (TcpServer.tcp_server_send_response plat fd resp w)) = [].
Proof.
  unfold TcpServer.tcp_server_send_response. destruct resp as [s|]; [|reflexivity].
  destruct (fd <? 0); [reflexivity|]. mstep.
  destruct (send_ret plat fd (c_str s) <? 0); reflexivity.
Qed.

Lemma command_handler_warnings c fd w :
  warnings (events (Main.command_handler plat c fd w)) = [].
Proof.
  unfold Main.command_handler.
  destruct ((char_code c <? char_code "0") || (char_code "9" <? char_code c));
    [reflexivity|].
  mstep. destruct (g_servo_config w) as [config|].
  - mstep. rewrite with_reset_straight. unfold set_angle_then_home. mstep.
    rewrite !warnings_app, sg90_set_angle_warnings.
    destruct (result (Servo.sg90_set_angle plat config _ w)) as [r1 w1|]; [|reflexivity].
    mstep. rewrite !warnings_app, sg90_set_angle_warnings.
    destruct (result (Servo.sg90_set_angle plat config F32.zero w1)) as [r2 w2|];
      [|reflexivity].
    mstep. rewrite !warnings_app, send_response_warnings.
    destruct (result (TcpServer.tcp_server_send_response _ _ _ _)); reflexivity.
  - mstep. rewrite !warnings_app, send_response_warnings.
    destruct (result (TcpServer.tcp_server_send_response _ _ _ _)); reflexivity.
Qed.

Lemma process_buffer_warnings buf fd : forall w w',
  result (TcpServer.process_buffer (Main.invoke plat) buf fd w) = Ret tt w' ->
  warnings (events (TcpServer.process_buffer (Main.invoke plat) buf fd w)) =
    filter is_other buf.
Proof.
  induction buf as [|c rest IH]; intros w w' Hret; [reflexivity|].
  cbn [TcpServer.process_buffer filter] in *. unfold is_other at 1.
  rewrite result_bind in Hret. rewrite events_bind, warnings_app.
  destruct (TcpServer.is_digit c).
  - cbn [negb andb]. revert Hret. mstep. rewrite !warnings_app.
    destruct (callback (server_state w)) as [[]|]; cbn [Main.invoke].
    + rewrite command_handler_warnings.
      destruct (result (Main.command_handler plat c fd w)) as [[] w1|]; [|discriminate].
      intros Hret. apply (IH _ _ Hret).
    + mstep. intros Hret. apply (IH _ _ Hret).
  - cbn [negb andb]. destruct (TcpServer.is_newline c); revert Hret; mstep; intros Hret;
      cbn [negb warnings flat_map app]; rewrite (IH _ _ Hret); reflexivity.
Qed.

Lemma loop_body_warnings accept_ret errno rx w w' :
  0 <= accept_ret ->
  result (TcpServer.loop_body (Main.invoke plat) accept_ret errno rx w) = Ret tt w' ->
  warnings (events (TcpServer.loop_body (Main.invoke plat) accept_ret errno rx w)) =
    filter is_other (TcpServer.recv_buffer rx).
Proof.
  intros Ha. apply Z.ltb_ge in Ha. unfold TcpServer.loop_body. mstep. rewrite Ha. mstep.
  destruct (0 <? TcpServer.recv_received rx) eqn:Er.
  - mstep.
    destruct (result (TcpServer.process_buffer (Main.invoke plat) (TcpServer.recv_buffer rx)
                        accept_ret w)) as [[] w1|] eqn:E; [|discriminate].
    intros _. cbn [app warnings flat_map].
    fold (warnings (events (TcpServer.process_buffer (Main.invoke plat)
                              (TcpServer.recv_buffer rx) accept_ret w) ++
                    [EvClose accept_ret;
                     EvLog LogI TcpServer.TAG (MsgConnectionClosed accept_ret);
                     EvDelay 10])).
    rewrite warnings_app, (process_buffer_warnings _ _ _ _ E). apply app_nil_r.
  - rewrite (recv_nothing rx Er).
    destruct (TcpServer.recv_received rx =? 0);
      [|destruct (negb (TcpServer.recv_errno rx =? EAGAIN) &&
                  negb (TcpServer.recv_errno rx =? EWOULDBLOCK))];
      mstep; reflexivity.
Qed.

(** A completed run of the listener task on one accepted connection. *)
Lemma tcp_server_task_connection config accept_ret errno rx w w' :
  0 <= accept_ret ->
  g_servo_config w = Some config ->
  callback (server_state w) = Some Fn_command_handler ->
  result (Main.tcp_server_task plat [TcpServer.InAccept accept_ret errno rx] w) = Ret tt w' ->
  sends (events (Main.tcp_server_task plat [TcpServer.InAccept accept_ret errno rx] w)) =
    digit_responses accept_ret (filter TcpServer.is_digit (TcpServer.recv_buffer rx)) /\
  duty_writes (events (Main.tcp_server_task plat [TcpServer.InAccept accept_ret errno rx] w)) =
    digit_duties plat config (filter TcpServer.is_digit (TcpServer.recv_buffer rx)) /\
  warnings (events (Main.tcp_server_task plat [TcpServer.InAccept accept_ret errno rx] w)) =
    filter is_other (TcpServer.recv_buffer rx).
Proof.
  intros Ha Hcfg Hcb.
  unfold Main.tcp_server_task, TcpServer.tcp_server_task. mstep.
  cbn [TcpServer.serve_loop]. mstep. cbn [server_state running app]. mstep.
  set (w1 := {| compare_value := compare_value w;
                server_state := {| server_fd := server_fd (server_state w);
                                   port := port (server_state w);
                                   running := true;
                                   callback := callback (server_state w) |};
                g_servo_config := g_servo_config w |}).
  destruct (result (TcpServer.loop_body (Main.invoke plat) accept_ret errno rx w1))
    as [[] w2|] eqn:E; [|discriminate].
  intros _. cbn [ret events fst]. rewrite app_nil_r.
  change (sends (?e :: ?l)) with (sends l).
  change (duty_writes (?e :: ?l)) with (duty_writes l).
  change (warnings (?e :: ?l)) with (warnings l).
  destruct (loop_body_digits (Main.invoke plat) accept_ret errno rx w1 Ha) as [Lr La].
  rewrite E in Lr. symmetry in Lr. rewrite Lr in La.
  assert (Forall (fun c => TcpServer.is_digit c = true)
            (filter TcpServer.is_digit (TcpServer.recv_buffer rx))) as Hds.
  { apply Forall_forall. intros c Hin. apply filter_In in Hin. apply Hin. }
  destruct (for_each_digit_commands config accept_ret _ w1 w2 Hds Ha Hcfg Hcb Lr)
    as [Fs Fd].
  split; [|split].
  - rewrite <- sends_actions, La.
    change (sends (?a :: ?b :: ?l)) with (sends l).
    rewrite sends_app, sends_actions. rewrite Fs. apply app_nil_r.
  - rewrite <- duty_writes_actions, La.
    change (duty_writes (?a :: ?b :: ?l)) with (duty_writes l).
    rewrite duty_writes_app, duty_writes_actions. rewrite Fd.
    apply app_nil_r.
  - apply (loop_body_warnings accept_ret errno rx w1 w2 Ha E).
Qed.

(** C5. For every connection the listener accepts, the bytes it handles
    are the bytes [recv] stored (the first 63 of what arrived), all of them
    and in order: a pass of the loop has the result and the actions of the
    accept, the read, one call through the registered handler for each byte
    in '0'..'9' in buffer order, then the close and the pause. The byte loop
    itself does what calling the handler once per digit byte does; a buffer
    without digits leaves the world untouched and emits nothing but one
    warning per byte that is neither CR nor LF. With [command_handler]
    registered and the servo configuration set, a run of the listener task
    that completes a connection has written exactly one response per digit
    byte, in order, and the two compare values of each command, and has
    warned about exactly the bytes that are neither digits nor CR or LF;
    for "a7\n" that is the one response of digit 7. *)
Theorem listener_dispatches_digits_only :
  (forall invoke buf fd w,
     result (TcpServer.process_buffer invoke buf fd w) =
       result (for_each (filter TcpServer.is_digit buf) (dispatch invoke fd) w) /\
     actions (events (TcpServer.process_buffer invoke buf fd w)) =
       actions (events (for_each (filter TcpServer.is_digit buf) (dispatch invoke fd) w))) /\
  (forall invoke buf fd w,
     filter TcpServer.is_digit buf = [] ->
     TcpServer.process_buffer invoke buf fd w = (flat_map drop_log buf, Ret tt w)) /\
  (forall invoke accept_ret errno rx w,
     0 <= accept_ret ->
     result (TcpServer.loop_body invoke accept_ret errno rx w) =
       result (for_each (filter TcpServer.is_digit (TcpServer.recv_buffer rx))
                 (dispatch invoke accept_ret) w) /\
     actions (events (TcpServer.loop_body invoke accept_ret errno rx w)) =
       EvAccept (server_fd (server_state w)) accept_ret ::
       EvRecv accept_ret 63 (TcpServer.recv_received rx) ::
       actions (events (for_each (filter TcpServer.is_digit (TcpServer.recv_buffer rx))
                          (dispatch invoke accept_ret) w)) ++
       match result (for_each (filter TcpServer.is_digit (TcpServer.recv_buffer rx))
                       (dispatch invoke accept_ret) w) with
       | Ret _ _ => [EvClose accept_ret; EvDelay 10]
       | Abort => []
       end) /\
  (forall bytes,
     TcpServer.recv_buffer (TcpServer.RecvData bytes) = firstn 63 bytes /\
     TcpServer.recv_received (TcpServer.RecvData bytes) =
       Z.of_nat (List.length (firstn 63 bytes))) /\
  (forall config buf fd w w',
     0 <= fd ->
     g_servo_config w = Some config ->
     callback (server_state w) = Some Fn_command_handler ->
     result (TcpServer.process_buffer (Main.invoke plat) buf fd w) = Ret tt w' ->
     sends (events (TcpServer.process_buffer (Main.invoke plat) buf fd w)) =
       digit_responses fd (filter TcpServer.is_digit buf) /\
     duty_writes (events (TcpServer.process_buffer (Main.invoke plat) buf fd w)) =
       digit_duties plat config (filter TcpServer.is_digit buf)) /\
  (forall config accept_ret errno rx w w',
     0 <= accept_ret ->
     g_servo_config w = Some config ->
     callback (server_state w) = Some Fn_command_handler ->
     result (Main.tcp_server_task plat [TcpServer.InAccept accept_ret errno rx] w) =
       Ret tt w' ->
     sends (events (Main.tcp_server_task plat
                      [TcpServer.InAccept accept_ret errno rx] w)) =
       digit_responses accept_ret
         (filter TcpServer.is_digit (TcpServer.recv_buffer rx)) /\
     duty_writes (events (Main.tcp_server_task plat
                            [TcpServer.InAccept accept_ret errno rx] w)) =
       digit_duties plat config (filter TcpServer.is_digit (TcpServer.recv_buffer rx)) /\
     warnings (events (Main.tcp_server_task plat
                         [TcpServer.InAccept accept_ret errno rx] w)) =
       filter is_other (TcpServer.recv_buffer rx)) /\
  (forall fd, digit_responses fd (filter TcpServer.is_digit ["a"; "7"; "010"]%char) =
     [(fd, "OK: Command 7 -> Angle 126" ++ degree ++ " (auto reset in 1s)" ++ newline)])%string.
Proof.
  split; [exact process_buffer_digits|]. split; [exact process_buffer_no_digit|].
  split; [exact loop_body_digits|]. split; [intros bytes; split; reflexivity|].
  split; [|split; [exact tcp_server_task_connection|reflexivity]].
  intros config buf fd w w' Hfd Hcfg Hcb Hret.
  destruct (process_buffer_digits (Main.invoke plat) buf fd w) as [Hr Ha].
  rewrite Hr in Hret.
  assert (Forall (fun c => TcpServer.is_digit c = true) (filter TcpServer.is_digit buf)) as Hds.
  { apply Forall_forall. intros c Hin. apply filter_In in Hin. apply Hin. }
  destruct (for_each_digit_commands config fd _ w w' Hds Hfd Hcfg Hcb Hret) as [Hs Hd].
  rewrite <- sends_actions, <- duty_writes_actions, Ha, sends_actions, duty_writes_actions.
  split; assumption.
Qed.

End ProgramLoop.

(** ** The serve loop, one connection at a time *)

Lemma conn_step_log s lvl tag msg : conn_step s (EvLog lvl tag msg) = Some s.
Proof. destruct s as [|fd []]; reflexivity. Qed.

Lemma conn_trace_app s l1 l2 :
  conn_trace s (l1 ++ l2) =
  match conn_trace s l1 with Some s1 => conn_trace s1 l2 | None => None end.
Proof.
  revert s. induction l1 as [|e l1 IH]; intros s; [reflexivity|].
  cbn. destruct (conn_step s e); [apply IH|reflexivity].
Qed.

Lemma conn_trace_actions s l : conn_trace s (actions l) = conn_trace s l.
Proof.
  revert s. unfold actions. induction l as [|e l IH]; intros s; [reflexivity|].
  destruct e; cbn; try (destruct (conn_step s _); [apply IH|reflexivity]).
  destruct s as [|? []]; cbn; apply IH.
Qed.

(** While a connection is served no accept happens before its close. *)
Lemma serving_until_closed mid : forall fd rd s lfd ret rest,
  conn_trace (Serving fd rd) (mid ++ EvAccept lfd ret :: rest) = Some s ->
  In (EvClose fd) mid.
Proof.
  induction mid as [|e mid IH]; intros fd rd s lfd ret rest H.
  - cbn in H. destruct rd; discriminate.
  - cbn [app conn_trace] in H.
    destruct (conn_step (Serving fd rd) e) as [s1|] eqn:E; [|discriminate].
    destruct e; destruct rd; cbn in E; try discriminate E;
      try (inversion E; subst s1; right; eapply IH; exact H).
    + destruct (fd0 =? fd); [|discriminate]. inversion E; subst s1.
      right. eapply IH; exact H.
    + destruct (fd0 =? fd); [|discriminate]. inversion E; subst s1.
      right. eapply IH; exact H.
    + destruct (fd0 =? fd) eqn:F; [|discriminate]. apply Z.eqb_eq in F. subst fd0.
      left. reflexivity.
Qed.

(** A delay of 1000 ms is only possible while a connection is served. *)
Lemma long_delay_is_inside pre post s :
  conn_trace Listening (pre ++ EvDelay 1000 :: post) = Some s ->
  exists fd, conn_trace Listening pre = Some (Serving fd true) /\
             conn_trace (Serving fd true) post = Some s.
Proof.
  rewrite conn_trace_app. intros H.
  destruct (conn_trace Listening pre) as [[|fd [|]]|]; cbn in H; try discriminate.
  exists fd. split; [reflexivity|exact H].
Qed.

Section ServeLoop.
Variable plat : platform.

Lemma command_handler_conn c fd w :
  0 <= fd ->
  conn_trace (Serving fd true) (events (Main.command_handler plat c fd w)) =
  Some (Serving fd true).
Proof.
  intros Hfd. destruct (TcpServer.is_digit c) eqn:Hd.
  - destruct (g_servo_config w) as [config|] eqn:Hcfg.
    + pose proof (command_handler_ok_run plat config c fd w Hd Hfd Hcfg) as R.
      cbv zeta in R.
      pose proof (with_reset_run plat config
        (F32.of_Z (Main.angle_for_digit (char_code c - char_code "0"))) 1000 w) as W.
      cbv zeta in W.
      destruct (cmpr_set_ret plat (comparator config) _ =? ESP_OK);
        [destruct (cmpr_set_ret plat (comparator config) _ =? ESP_OK)|];
        destruct W as [Wa Wr]; rewrite Wr in R; destruct R as [Ra Rr].
      * rewrite <- conn_trace_actions, Ra, Wa. cbn. rewrite Z.eqb_refl. reflexivity.
      * rewrite Ra. cbn [conn_trace conn_step]. rewrite <- conn_trace_actions, Wa.
        reflexivity.
      * rewrite Ra. cbn [conn_trace conn_step]. rewrite <- conn_trace_actions, Wa.
        reflexivity.
    + destruct (command_handler_uninit_run plat c fd w Hd Hfd Hcfg) as (Ha & _).
      rewrite <- conn_trace_actions, Ha. cbn. rewrite Z.eqb_refl. reflexivity.
  - unfold Main.command_handler. rewrite (not_digit_guard c Hd). reflexivity.
Qed.

Lemma process_buffer_conn buf fd : forall w,
  0 <= fd ->
  conn_trace (Serving fd true)
    (events (TcpServer.process_buffer (Main.invoke plat) buf fd w)) = Some (Serving fd true).
Proof.
  induction buf as [|c rest IH]; intros w Hfd; [reflexivity|].
  cbn [TcpServer.process_buffer]. rewrite events_bind, conn_trace_app.
  assert (conn_trace (Serving fd true)
            (events ((if TcpServer.is_digit c
                      then esp_log LogI TcpServer.TAG (MsgValidCommand c) ;;
                           s <- TcpServer.get_server_state ;;
                           match callback s with
                           | Some f => Main.invoke plat f c fd
                           | None => ret tt
                           end
                      else if TcpServer.is_newline c then ret tt
                      else esp_log LogW TcpServer.TAG (MsgInvalidCommand c)) w)) =
          Some (Serving fd true)) as Hc.
  { destruct (TcpServer.is_digit c).
    - unfold esp_log. erewrite run_bind_ret by reflexivity. cbv beta.
      erewrite run_bind_ret by reflexivity. cbv beta.
      cbn [events fst app conn_trace conn_step].
      destruct (callback (server_state w)) as [[]|]; [|reflexivity].
      cbn [Main.invoke]. apply command_handler_conn. exact Hfd.
    - destruct (TcpServer.is_newline c); reflexivity. }
  rewrite Hc.
  match goal with |- context [result ?r] => destruct (result r) as [[] w1|] end;
    [apply IH; exact Hfd|reflexivity].
Qed.

(** Splitting a run into its events and its result, bind by bind. *)
Ltac mrun :=
  repeat (rewrite ?events_bind, ?result_bind;
          cbn [esp_log emit vTaskDelay_ms ret get put abort events result fst snd
               TcpServer.get_server_state TcpServer.set_server_state
               TcpServer.set_running TcpServer.set_server_fd TcpServer.set_port
               TcpServer.set_callback]).

(** One pass of the loop body starts and ends between connections, unless
    the process aborted while serving. *)
Lemma loop_body_conn accept_ret errno rx w :
  conn_trace Listening
    (events (TcpServer.loop_body (Main.invoke plat) accept_ret errno rx w)) =
  Some (match result (TcpServer.loop_body (Main.invoke plat) accept_ret errno rx w) with
        | Ret _ _ => Listening
        | Abort => Serving accept_ret true
        end).
Proof.
  unfold TcpServer.loop_body. mrun.
  destruct (accept_ret <? 0) eqn:Ea.
  - destruct ((errno =? EAGAIN) || (errno =? EWOULDBLOCK)); mrun;
      cbn [app conn_trace conn_step]; rewrite Ea; reflexivity.
  - pose proof Ea as Ea'. apply Z.ltb_ge in Ea'.
    pose proof (process_buffer_conn (TcpServer.recv_buffer rx) accept_ret w Ea') as P.
    destruct (0 <? TcpServer.recv_received rx);
      [|destruct (TcpServer.recv_received rx =? 0);
        [|destruct (negb (TcpServer.recv_errno rx =? EAGAIN) &&
                    negb (TcpServer.recv_errno rx =? EWOULDBLOCK))]];
      mrun; repeat (cbn [app conn_trace conn_step]; rewrite ?Ea, ?Z.eqb_refl);
      try reflexivity.
    rewrite conn_trace_app, P.
    destruct (result (TcpServer.process_buffer _ _ _ _)) as [[] w1|]; [|reflexivity].
    mrun. cbn. rewrite Z.eqb_refl. reflexivity.
Qed.

Lemma tcp_server_stop_conn w :
  conn_trace Listening (events (TcpServer.tcp_server_stop w)) = Some Listening /\
  exists w', result (TcpServer.tcp_server_stop w) = Ret tt w'.
Proof.
  unfold TcpServer.tcp_server_stop. mrun. cbn [server_state server_fd].
  destruct (0 <=? server_fd (server_state w)); mrun; cbn; split; eauto.
Qed.

Lemma serve_loop_conn inputs : forall w,
  exists s,
    conn_trace Listening (events (TcpServer.serve_loop (Main.invoke plat) inputs w)) = Some s /\
    match result (TcpServer.serve_loop (Main.invoke plat) inputs w) with
    | Ret _ _ => s = Listening
    | Abort => exists fd, s = Serving fd true
    end.
Proof.
  induction inputs as [|[|accept_ret errno rx] rest IH]; intros w.
  - exists Listening. split; reflexivity.
  - cbn [TcpServer.serve_loop]. rewrite events_bind, result_bind, conn_trace_app.
    destruct (tcp_server_stop_conn w) as [Hs [w1 Hr]]. rewrite Hs, Hr. apply IH.
  - cbn [TcpServer.serve_loop]. mrun. cbn [app].
    destruct (running (server_state w)).
    + rewrite events_bind, result_bind, conn_trace_app, loop_body_conn.
      destruct (result (TcpServer.loop_body _ _ _ _ _)) as [[] w1|].
      * apply IH.
      * exists (Serving accept_ret true). split; eauto.
    + mrun. exists Listening. split; reflexivity.
Qed.

(** C6. Every run of the listener task, whatever connections and bytes
    arrive, stays within the one-connection-at-a-time discipline: an accept
    happens only between connections; on an accepted connection there is at
    most one read, then the commands' compare-value writes, auto-home delays
    and responses, then the close; no accept happens while a connection is
    open. In particular, from a 1000 ms auto-home delay onwards no connection
    is accepted before the connection being served has been closed. A run
    that does not abort ends between connections. *)
Theorem serve_loop_one_connection_at_a_time inputs w :
  (exists s,
     conn_trace Listening (events (Main.tcp_server_task plat inputs w)) = Some s /\
     match result (Main.tcp_server_task plat inputs w) with
     | Ret _ _ => s = Listening
     | Abort => exists fd, s = Serving fd true
     end) /\
  (forall pre post,
     events (Main.tcp_server_task plat inputs w) = pre ++ EvDelay 1000 :: post ->
     exists fd,
       conn_trace Listening pre = Some (Serving fd true) /\
       forall mid listen_fd ret rest,
         post = mid ++ EvAccept listen_fd ret :: rest -> In (EvClose fd) mid).
Proof.
  assert (exists s,
     conn_trace Listening (events (Main.tcp_server_task plat inputs w)) = Some s /\
     match result (Main.tcp_server_task plat inputs w) with
     | Ret _ _ => s = Listening
     | Abort => exists fd, s = Serving fd true
     end) as H.
  { unfold Main.tcp_server_task, TcpServer.tcp_server_task. mrun. cbn [app conn_trace conn_step].
    apply serve_loop_conn. }
  split; [exact H|].
  intros pre post E. destruct H as (s & Hs & _). rewrite E in Hs.
  destruct (long_delay_is_inside pre post s Hs) as (fd & Hpre & Hpost).
  exists fd. split; [exact Hpre|].
  intros mid lfd ret rest Hp. subst post.
  eapply serving_until_closed. exact Hpost.
Qed.

End ServeLoop.

(** ** The angle limits *)

Lemma SFcompare_antisym x y :
  SFcompare y x = option_map CompOpp (SFcompare x y).
Proof.
  destruct x as [sx|sx| |sx mx ex], y as [sy|sy| |sy my ey]; cbn;
    try reflexivity;
    try (destruct sx; reflexivity); try (destruct sy; reflexivity);
    try (destruct sx, sy; reflexivity).
  rewrite (Z.compare_antisym ex ey).
  change (Pos.compare_cont Eq mx my) with (Pos.compare mx my).
  change (Pos.compare_cont Eq my mx) with (Pos.compare my mx).
  rewrite (Pos.compare_antisym mx my).
  destruct sx, sy; cbn; try reflexivity;
    destruct (ex ?= ey); cbn; try reflexivity;
    destruct (mx ?= my)%positive; reflexivity.
Qed.

Lemma SFcompare_not_nan x y :
  F32.is_nan x = false -> F32.is_nan y = false -> exists c, SFcompare x y = Some c.
Proof.
  destruct x, y; cbn; intros Hx Hy; try discriminate; eauto.
Qed.

(** When neither [a < b] nor NaN is involved, [b <= a]. *)
Lemma not_ltb_leb a b :
  F32.is_nan a = false -> F32.is_nan b = false ->
  F32.ltb a b = false -> F32.leb b a = true.
Proof.
  intros Ha Hb H. unfold F32.ltb, F32.leb, SFltb, SFleb in *.
  rewrite (SFcompare_antisym a b).
  destruct (SFcompare_not_nan a b Ha Hb) as [c Hc]. rewrite Hc in *.
  destruct c; cbn; try reflexivity. discriminate.
Qed.

Lemma clamp_angle_cases a :
  (F32.ltb a F32.zero = true /\ Servo.clamp_angle a = F32.zero) \/
  (F32.ltb a F32.zero = false /\ F32.ltb F32.c180 a = true /\
   Servo.clamp_angle a = F32.c180) \/
  (F32.ltb a F32.zero = false /\ F32.ltb F32.c180 a = false /\ Servo.clamp_angle a = a).
Proof.
  unfold Servo.clamp_angle.
  destruct (F32.ltb a F32.zero); [left; auto|].
  destruct (F32.ltb F32.c180 a); [right; left; auto|right; right; auto].
Qed.

(** C3. The claim does not hold of the code at a NaN angle. Neither
    comparison of the limit test ([angle < 0.0f], [angle > 180.0f]) holds
    for NaN, so [sg90_set_angle] leaves the angle as it is: the angle the
    pulse width is computed from is not within [0,180], the pulse width is
    NaN whatever the calibration, and the compare value handed to the
    comparator is the result of a conversion to [uint32_t] that C leaves
    undefined (0 where the target yields 0 there). *)
Theorem set_angle_nan_is_not_limited plat config w :
  Servo.clamp_angle S754_nan = S754_nan /\
  angle_in_range (Servo.clamp_angle S754_nan) = false /\
  Servo.pulse_width config (Servo.clamp_angle S754_nan) = S754_nan /\
  duty_writes (events (Servo.sg90_set_angle plat config S754_nan w)) =
    [(comparator config, fptoui_undef plat S754_nan mod 2 ^ 32)] /\
  duty_writes (events (Servo.sg90_set_angle reference_platform live_servo_config
                         S754_nan ready_world)) = [(3, 0)].
Proof.
  assert (Servo.pulse_width config (Servo.clamp_angle S754_nan) = S754_nan) as P.
  { unfold Servo.pulse_width, F32.add, F32.mul, F32.div, F32.sub.
    change (SFdiv F32.prec F32.emax (Servo.clamp_angle S754_nan) F32.c180) with S754_nan.
    destruct (SFsub F32.prec F32.emax (max_pulse_width_us config) (min_pulse_width_us config));
      destruct (min_pulse_width_us config); reflexivity. }
  split; [reflexivity|]. split; [reflexivity|]. split; [exact P|]. split; [|reflexivity].
  rewrite sg90_set_angle_run. cbv zeta. unfold Servo.duty. rewrite P.
  destruct (cmpr_set_ret plat (comparator config) _ =? ESP_OK); reflexivity.
Qed.

(** The limits do hold for every angle that is not NaN: [sg90_set_angle]
    brings it into [0,180] before the pulse width is computed: an angle below 0
    becomes 0, an angle above 180 becomes 180, an angle within the limits
    is kept; and the one compare value the call writes is the one computed
    from the limited angle. *)
Theorem set_angle_clamps plat config a w :
  F32.is_nan a = false ->
  angle_in_range (Servo.clamp_angle a) = true /\
  (F32.ltb a F32.zero = true -> Servo.clamp_angle a = F32.zero) /\
  (F32.ltb F32.c180 a = true -> Servo.clamp_angle a = F32.c180) /\
  (angle_in_range a = true -> Servo.clamp_angle a = a) /\
  duty_writes (events (Servo.sg90_set_angle plat config a w)) =
    [(comparator config,
      F32.to_uint32 (fptoui_undef plat)
        (Servo.pulse_width config (Servo.clamp_angle a)))].
Proof.
  intros Hnan.
  assert (F32.ltb a F32.zero = true -> F32.ltb F32.c180 a = false) as Hexcl.
  { destruct a as [s|s| |s m e]; try discriminate Hnan; cbn; try reflexivity;
      destruct s; cbn; intros H; try discriminate H; reflexivity. }
  split; [|split; [|split; [|split]]].
  - destruct (clamp_angle_cases a) as [[_ E]|[(_ & _ & E)|(H0 & H180 & E)]];
      rewrite E; try reflexivity.
    unfold angle_in_range. rewrite (not_ltb_leb a F32.zero Hnan eq_refl H0).
    rewrite (not_ltb_leb F32.c180 a eq_refl Hnan H180). reflexivity.
  - intros H. unfold Servo.clamp_angle. rewrite H. reflexivity.
  - intros H. unfold Servo.clamp_angle. rewrite H.
    destruct (F32.ltb a F32.zero) eqn:H0; [|reflexivity].
    rewrite (Hexcl eq_refl) in H. discriminate.
  - unfold angle_in_range. intros H. apply andb_true_iff in H. destruct H as [H0 H180].
    unfold Servo.clamp_angle.
    assert (F32.ltb a F32.zero = false) as L0.
    { unfold F32.ltb, F32.leb, SFltb, SFleb in *. rewrite (SFcompare_antisym F32.zero a).
      destruct (SFcompare F32.zero a) as [[]|]; cbn; try reflexivity; discriminate. }
    assert (F32.ltb F32.c180 a = false) as L180.
    { unfold F32.ltb, F32.leb, SFltb, SFleb in *. rewrite (SFcompare_antisym a F32.c180).
      destruct (SFcompare a F32.c180) as [[]|]; cbn; try reflexivity; discriminate. }
    rewrite L0, L180. reflexivity.
  - rewrite sg90_set_angle_run. cbv zeta. unfold Servo.duty.
    destruct (cmpr_set_ret plat (comparator config) _ =? ESP_OK); reflexivity.
Qed.

(** ** Rounding in binary32 *)

Lemma fexp32 e : fexp 24 128 e = Z.max (e - 24) (-149).
Proof. reflexivity. Qed.

Lemma digits2_size p : digits2_pos p = Pos.size p.
Proof. induction p; cbn; rewrite ?IHp; reflexivity. Qed.

Lemma Zdigits2_pos_bounds p :
  2 ^ (Zpos (digits2_pos p) - 1) <= Zpos p < 2 ^ Zpos (digits2_pos p).
Proof.
  rewrite digits2_size. split.
  - pose proof (Pos.size_le p) as H.
    assert (2 ^ Zpos (Pos.size p) <= 2 * Zpos p) as H'.
    { change 2 with (Zpos 2) at 1. rewrite <- Pos2Z.inj_pow.
      change (2 * Zpos p) with (Zpos p~0). apply Pos2Z.pos_le_pos. exact H. }
    replace (Zpos (Pos.size p)) with (Zpos (Pos.size p) - 1 + 1) in H' by lia.
    rewrite Z.pow_add_r in H' by lia. change (2 ^ 1) with 2 in H'. lia.
  - pose proof (Pos.size_gt p) as H.
    change 2 with (Zpos 2). rewrite <- Pos2Z.inj_pow. apply Pos2Z.pos_lt_pos. exact H.
Qed.

Lemma Zdigits2_bounds m : 0 < m -> 2 ^ (Zdigits2 m - 1) <= m < 2 ^ Zdigits2 m.
Proof.
  destruct m as [|p|p]; try lia. intros _. apply Zdigits2_pos_bounds.
Qed.

Lemma Zdigits2_nonneg m : 0 <= Zdigits2 m.
Proof. destruct m; cbn; lia. Qed.

Lemma Zdigits2_pos m : 0 < m -> 0 < Zdigits2 m.
Proof. destruct m; cbn; lia. Qed.

Lemma Zdigits2_lt m : 0 <= m -> m < 2 ^ Zdigits2 m.
Proof.
  intros H. destruct (Z.eq_dec m 0) as [->|N]; [cbn; lia|].
  apply Zdigits2_bounds. lia.
Qed.

(** Powers of two. *)
Lemma pow2_pos n : 0 <= n -> 0 < 2 ^ n.
Proof. intros. apply Z.pow_pos_nonneg; lia. Qed.

Lemma pow2_le a b : 0 <= a <= b -> 2 ^ a <= 2 ^ b.
Proof. intros. apply Z.pow_le_mono_r; lia. Qed.

Lemma pow2_lt a b : 0 <= a < b -> 2 ^ a < 2 ^ b.
Proof. intros. apply Z.pow_lt_mono_r; lia. Qed.

Lemma pow2_lt_inv a b : 0 <= a -> 0 <= b -> 2 ^ a < 2 ^ b -> a < b.
Proof. intros Ha Hb H. apply (Z.pow_lt_mono_r_iff 2); lia. Qed.

Lemma pow2_S n : 0 <= n -> 2 ^ (n + 1) = 2 * 2 ^ n.
Proof. intros. rewrite Z.pow_add_r by lia. change (2 ^ 1) with 2. lia. Qed.

Lemma record_loc m l : loc_of_shr_record (shr_record_of_loc m l) = l /\ shr_m (shr_record_of_loc m l) = m.
Proof. destruct l as [|[]]; split; reflexivity. Qed.

Lemma shr_1_spec m r s : 0 <= m ->
  shr_1 (Build_shr_record m r s) = Build_shr_record (m / 2) (Z.odd m) (r || s).
Proof.
  intros H. destruct m as [|p|p]; [reflexivity| |lia].
  destruct p; cbn [shr_1].
  - f_equal. rewrite Pos2Z.inj_xI.
    replace (2 * Zpos p + 1) with (1 + Zpos p * 2) by lia. rewrite Z.div_add by lia. reflexivity.
  - f_equal. rewrite Pos2Z.inj_xO. replace (2 * Zpos p) with (Zpos p * 2) by lia.
    rewrite Z.div_mul by lia. reflexivity.
  - reflexivity.
Qed.

Lemma div_mod_2u V u : 0 <= V -> 0 < u ->
  V / (2 * u) = (V / u) / 2 /\ V mod (2 * u) = ((V / u) mod 2) * u + V mod u.
Proof.
  intros HV Hu.
  pose proof (Z.div_mod V u ltac:(lia)) as E1.
  pose proof (Z.mod_pos_bound V u Hu) as B1.
  pose proof (Z.div_mod (V / u) 2 ltac:(lia)) as E2.
  pose proof (Z.mod_pos_bound (V / u) 2 ltac:(lia)) as B2.
  assert (V = (2 * u) * ((V / u) / 2) + (((V / u) mod 2) * u + V mod u)) as E by nia.
  assert (0 <= ((V / u) mod 2) * u + V mod u < 2 * u) as B by nia.
  symmetry in E.
  pose proof (Z.div_mod_unique (2*u) (V / (2*u)) ((V / u) / 2) (V mod (2*u)) (((V / u) mod 2) * u + V mod u)) as U.
  pose proof (Z.div_mod V (2*u) ltac:(lia)) as E3.
  pose proof (Z.mod_pos_bound V (2*u) ltac:(lia)) as B3.
  apply U; try lia.
Qed.

Lemma shr_1_loc V u : 0 <= V -> 0 < u ->
  shr_1 (shr_record_of_loc (V / u) (F32.loc V u)) = shr_record_of_loc (V / (2 * u)) (F32.loc V (2 * u)).
Proof.
  intros HV Hu.
  destruct (div_mod_2u V u HV Hu) as [Q R].
  pose proof (Z.mod_pos_bound V u Hu) as B1.
  pose proof (Z.mod_pos_bound (V / u) 2 ltac:(lia)) as B2.
  assert (0 <= V / u) as Hq by (apply Z.div_pos; lia).
  assert (Z.odd (V / u) = ((V / u) mod 2 =? 1)) as Hodd.
  { rewrite Zmod_odd. destruct (Z.odd (V / u)); reflexivity. }
  unfold F32.loc at 2. rewrite R, Q.
  assert (forall r s, shr_1 (Build_shr_record (V / u) r s) = Build_shr_record (V / u / 2) ((V / u) mod 2 =? 1) (r || s)) as S1.
  { intros. rewrite shr_1_spec by lia. rewrite Hodd. reflexivity. }
  unfold F32.loc. destruct (V mod u =? 0) eqn:E0.
  - apply Z.eqb_eq in E0. rewrite E0. cbn [shr_record_of_loc]. rewrite S1.
    destruct ((V / u) mod 2 =? 1) eqn:E1.
    + apply Z.eqb_eq in E1. rewrite E1.
      replace (1 * u + 0 =? 0) with false by (symmetry; apply Z.eqb_neq; lia).
      replace (2 * (1 * u + 0) ?= 2 * u) with Eq by (symmetry; apply Z.compare_eq_iff; lia).
      reflexivity.
    + apply Z.eqb_neq in E1. assert ((V / u) mod 2 = 0) as E1' by lia. rewrite E1'.
      reflexivity.
  - apply Z.eqb_neq in E0.
    destruct ((V / u) mod 2 =? 1) eqn:E1.
    + apply Z.eqb_eq in E1. rewrite E1.
      replace (1 * u + V mod u =? 0) with false by (symmetry; apply Z.eqb_neq; lia).
      replace (2 * (1 * u + V mod u) ?= 2 * u) with Gt by (symmetry; apply Z.compare_gt_iff; lia).
      destruct (2 * (V mod u) ?= u); cbn [shr_record_of_loc]; rewrite S1; reflexivity.
    + apply Z.eqb_neq in E1. assert ((V / u) mod 2 = 0) as E1' by lia. rewrite E1'.
      replace (0 * u + V mod u =? 0) with false by (symmetry; apply Z.eqb_neq; lia).
      replace (2 * (0 * u + V mod u) ?= 2 * u) with Lt by (symmetry; apply Z.compare_lt_iff; lia).
      destruct (2 * (V mod u) ?= u); cbn [shr_record_of_loc]; rewrite S1; reflexivity.
Qed.

Lemma pow2_xO p : 2 ^ Zpos p~0 = 2 ^ Zpos p * 2 ^ Zpos p.
Proof. rewrite <- Z.pow_add_r by lia. f_equal. lia. Qed.

Lemma pow2_xI p : 2 ^ Zpos p~1 = 2 * (2 ^ Zpos p * 2 ^ Zpos p).
Proof.
  rewrite <- Z.pow_add_r by lia. rewrite <- (Z.pow_succ_r 2) by lia. f_equal. lia.
Qed.

Lemma iter_pos_shr V : forall p u, 0 <= V -> 0 < u ->
  iter_pos shr_1 p (shr_record_of_loc (V / u) (F32.loc V u)) =
  shr_record_of_loc (V / (u * 2 ^ Zpos p)) (F32.loc V (u * 2 ^ Zpos p)).
Proof.
  induction p as [p IH|p IH|]; intros u HV Hu; cbn [iter_pos].
  - rewrite shr_1_loc by lia. rewrite IH by lia.
    rewrite IH by (try apply Z.mul_pos_pos; try apply pow2_pos; lia).
    replace (2 * u * 2 ^ Zpos p * 2 ^ Zpos p) with (u * 2 ^ Zpos p~1); [reflexivity|].
    rewrite pow2_xI. lia.
  - rewrite IH by lia. rewrite IH by (try apply Z.mul_pos_pos; try apply pow2_pos; lia).
    replace (u * 2 ^ Zpos p * 2 ^ Zpos p) with (u * 2 ^ Zpos p~0); [reflexivity|].
    rewrite pow2_xO. lia.
  - rewrite shr_1_loc by lia. change (2 ^ 1) with 2. replace (u * 2) with (2 * u) by lia.
    reflexivity.
Qed.

(** A right shift by [n] bits coarsens the unit by [2 ^ n]. *)
Lemma shr_loc V u e n : 0 <= V -> 0 < u -> 0 <= n ->
  shr (shr_record_of_loc (V / u) (F32.loc V u)) e n =
  (shr_record_of_loc (V / (u * 2 ^ n)) (F32.loc V (u * 2 ^ n)), e + n).
Proof.
  intros HV Hu Hn. destruct n as [|p|p]; [|cbn [shr]|lia].
  - cbn. rewrite Z.mul_1_r, Z.add_0_r. reflexivity.
  - rewrite iter_pos_shr by lia. reflexivity.
Qed.

Lemma rhe_cases V u : 0 <= V -> 0 < u ->
  let q := V / u in let r := V mod u in
  (2 * r < u /\ F32.rhe V u = q) \/
  (2 * r > u /\ F32.rhe V u = q + 1) \/
  (2 * r = u /\ F32.rhe V u = if Z.even q then q else q + 1).
Proof.
  intros HV Hu. cbv zeta. unfold F32.rhe, F32.loc.
  pose proof (Z.mod_pos_bound V u Hu) as B.
  destruct (V mod u =? 0) eqn:E0.
  - apply Z.eqb_eq in E0. left. cbn [round_nearest_even]. split; [lia|reflexivity].
  - destruct (2 * (V mod u) ?= u) eqn:C.
    + pose proof (proj1 (Z.compare_eq_iff _ _) C) as C'. right. right.
      cbn [round_nearest_even]. split; [lia|reflexivity].
    + pose proof (proj1 (Z.compare_lt_iff _ _) C) as C'. left.
      cbn [round_nearest_even]. split; [lia|reflexivity].
    + pose proof (proj1 (Z.compare_gt_iff _ _) C) as C'. right. left.
      cbn [round_nearest_even]. split; [lia|reflexivity].
Qed.

Lemma rhe_bounds V u : 0 <= V -> 0 < u -> V / u <= F32.rhe V u <= V / u + 1.
Proof.
  intros HV Hu. destruct (rhe_cases V u HV Hu) as [[_ E]|[[_ E]|[_ E]]]; rewrite E;
    try lia. destruct (Z.even (V / u)); lia.
Qed.

Lemma rhe_mono V1 V2 u : 0 <= V1 <= V2 -> 0 < u -> F32.rhe V1 u <= F32.rhe V2 u.
Proof.
  intros HV Hu.
  pose proof (Z.div_mod V1 u ltac:(lia)) as E1.
  pose proof (Z.div_mod V2 u ltac:(lia)) as E2.
  pose proof (Z.mod_pos_bound V1 u Hu) as B1.
  pose proof (Z.mod_pos_bound V2 u Hu) as B2.
  assert (V1 / u <= V2 / u) as Q by (apply Z.div_le_mono; lia).
  destruct (Z.eq_dec (V1 / u) (V2 / u)) as [Eq|Ne].
  - assert (V1 mod u <= V2 mod u) as R by nia.
    destruct (rhe_cases V1 u ltac:(lia) Hu) as [[C1 H1]|[[C1 H1]|[C1 H1]]];
    destruct (rhe_cases V2 u ltac:(lia) Hu) as [[C2 H2]|[[C2 H2]|[C2 H2]]];
    rewrite H1, H2, <- ?Eq; try lia; destruct (Z.even (V1 / u)); lia.
  - pose proof (rhe_bounds V1 u ltac:(lia) Hu). pose proof (rhe_bounds V2 u ltac:(lia) Hu). lia.
Qed.

Lemma compare_scale a x y : 0 < a -> (x ?= y) = (a * x ?= a * y).
Proof.
  intros Ha. symmetry.
  destruct (Z.compare_spec x y);
    [apply Z.compare_eq_iff|apply Z.compare_lt_iff|apply Z.compare_gt_iff]; nia.
Qed.

Lemma rhe_scale a V u : 0 < a -> 0 < u -> F32.rhe (a * V) (a * u) = F32.rhe V u.
Proof.
  intros Ha Hu. unfold F32.rhe, F32.loc.
  rewrite Z.div_mul_cancel_l by lia. rewrite Z.mul_mod_distr_l by lia.
  replace (a * (V mod u) =? 0) with (V mod u =? 0).
  2:{ destruct (V mod u =? 0) eqn:E.
      - apply Z.eqb_eq in E. rewrite E. symmetry. apply Z.eqb_eq. lia.
      - apply Z.eqb_neq in E. symmetry. apply Z.eqb_neq. nia. }
  replace (2 * (a * (V mod u)) ?= a * u) with (2 * (V mod u) ?= u); [reflexivity|].
  replace (2 * (a * (V mod u))) with (a * (2 * (V mod u))) by lia.
  apply compare_scale. lia.
Qed.

(** Rounding respects integer bounds. *)
Lemma rhe_le V u k : 0 <= V -> 0 < u -> V <= k * u -> F32.rhe V u <= k.
Proof.
  intros HV Hu H.
  pose proof (Z.div_mod V u ltac:(lia)) as E.
  pose proof (Z.mod_pos_bound V u Hu) as B.
  destruct (rhe_cases V u HV Hu) as [[C1 H1]|[[C1 H1]|[C1 H1]]]; rewrite H1.
  - nia.
  - assert (V / u < k) by nia. lia.
  - assert (V / u < k) by nia. destruct (Z.even (V / u)); lia.
Qed.

Lemma rhe_ge V u k : 0 <= V -> 0 < u -> k * u <= V -> k <= F32.rhe V u.
Proof.
  intros HV Hu H.
  assert (k <= V / u) by (apply Z.div_le_lower_bound; lia).
  pose proof (rhe_bounds V u HV Hu). lia.
Qed.

Lemma Zdigits2_unique m d : 0 < d -> 2 ^ (d - 1) <= m < 2 ^ d -> Zdigits2 m = d.
Proof.
  intros Hd [L U].
  assert (0 < m) as Hm by (pose proof (pow2_pos (d - 1)); lia).
  pose proof (Zdigits2_bounds m Hm) as [L' U'].
  pose proof (Zdigits2_pos m Hm) as P.
  assert (Zdigits2 m - 1 < d) by (apply pow2_lt_inv; lia).
  assert (d - 1 < Zdigits2 m) by (apply pow2_lt_inv; lia).
  lia.
Qed.

Lemma Zdigits2_le m d : 0 <= d -> 0 <= m < 2 ^ d -> Zdigits2 m <= d.
Proof.
  intros Hd [L U]. destruct (Z.eq_dec m 0) as [->|N]; [cbn; lia|].
  pose proof (Zdigits2_bounds m ltac:(lia)) as [L' U'].
  pose proof (Zdigits2_pos m ltac:(lia)) as P.
  assert (Zdigits2 m - 1 < d) by (apply pow2_lt_inv; lia). lia.
Qed.

Lemma shr_nonpos mrs e n : n <= 0 -> shr mrs e n = (mrs, e).
Proof. intros H. destruct n; try lia; reflexivity. Qed.

Section Core.
Variables (s : bool) (V u ex : Z).
Hypothesis HV : 0 <= V.
Hypothesis Hu : 0 < u.
Let mx := V / u.
Let e' := fexp 24 128 (Zdigits2 mx + ex).
Hypothesis Hex : ex <= e'.
Let U := u * 2 ^ (e' - ex).
Let m'' := F32.rhe V U.

Lemma core_U_pos : 0 < U.
Proof. unfold U. apply Z.mul_pos_pos; [lia|apply pow2_pos; lia]. Qed.

Lemma core_emin : -149 <= e'.
Proof. unfold e'. rewrite fexp32. lia. Qed.

Lemma core_V_lt : V < U * 2 ^ 24.
Proof.
  pose proof (Zdigits2_lt mx ltac:(apply Z.div_pos; lia)) as D.
  pose proof (Zdigits2_nonneg mx) as Dn.
  assert (V < u * 2 ^ Zdigits2 mx) as B.
  { pose proof (Z.div_mod V u ltac:(lia)). pose proof (Z.mod_pos_bound V u Hu).
    fold mx in H. nia. }
  assert (Zdigits2 mx <= e' - ex + 24) as L by (unfold e'; rewrite fexp32; lia).
  assert (2 ^ Zdigits2 mx <= 2 ^ (e' - ex + 24)) by (apply pow2_le; lia).
  rewrite Z.pow_add_r in H by lia.
  unfold U. nia.
Qed.

Lemma core_bound : 0 <= m'' <= 2 ^ 24.
Proof.
  pose proof core_U_pos as UP. pose proof core_V_lt as VL. split.
  - pose proof (rhe_bounds V U HV UP). pose proof (Z.div_pos V U HV UP). unfold m''. lia.
  - apply rhe_le; try lia.
Qed.

Lemma core_normal : -149 < e' -> 2 ^ 23 <= m''.
Proof.
  intros He. pose proof core_U_pos as UP.
  assert (e' = Zdigits2 mx + ex - 24) as E by (unfold e' in *; rewrite fexp32 in *; lia).
  assert (0 < mx) as Hm.
  { destruct (Z.eq_dec mx 0) as [Z0|N].
    - exfalso. rewrite Z0 in E. cbn in E. lia.
    - pose proof (Z.div_pos V u HV Hu). unfold mx in *. lia. }
  pose proof (Zdigits2_bounds mx Hm) as [L _].
  pose proof (Zdigits2_pos mx Hm) as P.
  apply rhe_ge; try lia.
  assert (u * mx <= V) as B.
  { pose proof (Z.div_mod V u ltac:(lia)). pose proof (Z.mod_pos_bound V u Hu).
    fold mx in H. nia. }
  unfold U.
  assert (2 ^ 23 * 2 ^ (e' - ex) = 2 ^ (Zdigits2 mx - 1)) as P2.
  { rewrite <- Z.pow_add_r by lia. f_equal. lia. }
  nia.
Qed.

Lemma core_spec : binary_round_aux 24 128 s mx ex (F32.loc V u) = F32.pack s m'' e'.
Proof.
  pose proof core_U_pos as UP. pose proof core_bound as B. pose proof core_emin as Em.
  unfold binary_round_aux, shr_fexp. fold e'.
  unfold mx. rewrite (shr_loc V u ex (e' - ex) HV Hu ltac:(lia)). fold U.
  replace (ex + (e' - ex)) with e' by lia.
  destruct (record_loc (V / U) (F32.loc V U)) as [R1 R2]. rewrite R1, R2.
  change (round_nearest_even (V / U) (F32.loc V U)) with m''.
  unfold F32.pack.
  destruct (Z.eq_dec m'' 0) as [Z0|N0].
  - rewrite Z0. cbn [Zdigits2 Z.add shr_record_of_loc].
    replace (fexp 24 128 e' - e') with (Z.max (e' - 24) (-149) - e') by reflexivity.
    destruct (Z.max (e' - 24) (-149) - e') eqn:En; try lia; reflexivity.
  - destruct (Z.eq_dec m'' (2 ^ 24)) as [Z1|N1].
    + rewrite Z1. replace (2 ^ 24 =? 0) with false by reflexivity. rewrite Z.eqb_refl.
      change (Zdigits2 (2 ^ 24)) with 25.
      rewrite fexp32. replace (Z.max (25 + e' - 24) (-149) - e') with 1 by lia.
      cbn [shr shr_record_of_loc iter_pos shr_1 shr_m].
      replace (Z.sub 128 24) with 104 by reflexivity.
      change (2 ^ 24) with 16777216. cbn [shr_1 shr_m]. reflexivity.
    + replace (m'' =? 0) with false by (symmetry; apply Z.eqb_neq; lia).
      replace (m'' =? 2 ^ 24) with false by (symmetry; apply Z.eqb_neq; lia).
      assert (Zdigits2 m'' <= 24) as D by (apply Zdigits2_le; lia).
      rewrite fexp32.
      rewrite shr_nonpos by lia. cbn [shr_record_of_loc shr_m].
      replace (Z.sub 128 24) with 104 by reflexivity.
      destruct m'' as [|pm|pm]; try lia; reflexivity.
Qed.

End Core.

Lemma valid_finite s m e :
  F32.valid (S754_finite s m e) = true <->
  e = Z.max (Zpos (digits2_pos m) + e - 24) (-149) /\ e <= 104.
Proof.
  unfold F32.valid, F32.prec, F32.emax, valid_binary, bounded, canonical_mantissa.
  rewrite fexp32, andb_true_iff, Z.eqb_eq, Z.leb_le. change (128 - 24) with 104. lia.
Qed.

(** Magnitudes of canonical mantissas. *)
Lemma canonical_bounds m e :
  e = Z.max (Zpos (digits2_pos m) + e - 24) (-149) ->
  -149 <= e /\ Zpos m < 2 ^ 24 /\ (-149 < e -> 2 ^ 23 <= Zpos m).
Proof.
  intros H. pose proof (Zdigits2_pos_bounds m) as [L U].
  assert (Zpos (digits2_pos m) <= 24) as D by lia.
  split; [lia|]. split.
  - assert (2 ^ Zpos (digits2_pos m) <= 2 ^ 24) by (apply pow2_le; lia). lia.
  - intros He. assert (Zpos (digits2_pos m) = 24) as D' by lia. rewrite D' in L. exact L.
Qed.

Lemma mag_lt m1 e1 m2 e2 :
  -149 <= e1 -> 0 <= m1 <= 2 ^ 24 -> 2 ^ 23 <= m2 -> e1 < e2 ->
  m1 * 2 ^ (e1 + 149) <= m2 * 2 ^ (e2 + 149).
Proof.
  intros He1 Hm1 Hm2 He.
  assert (2 ^ (e2 + 149) = 2 ^ (e2 - e1 - 1) * (2 * 2 ^ (e1 + 149))) as E.
  { rewrite <- pow2_S by lia. rewrite <- Z.pow_add_r by lia. f_equal. lia. }
  pose proof (pow2_pos (e1 + 149) ltac:(lia)).
  pose proof (pow2_pos (e2 - e1 - 1) ltac:(lia)).
  rewrite E. change (2 ^ 24) with (2 * 2 ^ 23) in Hm1.
  assert (m1 * 2 ^ (e1 + 149) <= 2 ^ 23 * (2 * 2 ^ (e1 + 149))) by nia.
  assert (2 ^ 23 * (2 * 2 ^ (e1 + 149)) <= m2 * (2 ^ (e2 - e1 - 1) * (2 * 2 ^ (e1 + 149)))); [|lia].
  assert (0 < 2 ^ 23) by reflexivity.
  nia.
Qed.

Lemma mag_lt_strict m1 e1 m2 e2 :
  -149 <= e1 -> 0 <= m1 < 2 ^ 24 -> 2 ^ 23 <= m2 -> e1 < e2 ->
  m1 * 2 ^ (e1 + 149) < m2 * 2 ^ (e2 + 149).
Proof.
  intros He1 Hm1 Hm2 He.
  pose proof (mag_lt (m1 + 1) e1 m2 e2 He1 ltac:(lia) Hm2 He).
  pose proof (pow2_pos (e1 + 149) ltac:(lia)). nia.
Qed.

Lemma finite_lt_inf m e :
  e = Z.max (Zpos (digits2_pos m) + e - 24) (-149) -> e <= 104 ->
  Zpos m * 2 ^ (e + 149) < 2 ^ 277.
Proof.
  intros Hc He. destruct (canonical_bounds m e Hc) as (E1 & M & _).
  assert (2 ^ (e + 149) <= 2 ^ 253) by (apply pow2_le; lia).
  pose proof (pow2_pos (e + 149) ltac:(lia)).
  change (2 ^ 277) with (2 ^ 24 * 2 ^ 253). nia.
Qed.

Lemma compare_opp a b : (- a ?= - b) = CompOpp (a ?= b).
Proof. rewrite Z.compare_opp. rewrite Z.compare_antisym. reflexivity. Qed.

Ltac cmp_solve :=
  symmetry;
  first [apply Z.compare_eq_iff; lia | apply Z.compare_lt_iff; lia
        | apply Z.compare_gt_iff; lia].

Lemma SFcompare_zv x y :
  F32.valid x = true -> F32.valid y = true -> F32.is_nan x = false -> F32.is_nan y = false ->
  SFcompare x y = Some (F32.zv x ?= F32.zv y).
Proof.
  intros Vx Vy Nx Ny.
  assert (forall s m e, F32.valid (S754_finite s m e) = true ->
            -149 <= e /\ 0 < Zpos m * 2 ^ (e + 149) < 2 ^ 277) as FB.
  { intros s m e Hv. apply valid_finite in Hv. destruct Hv as [Hc He].
    destruct (canonical_bounds m e Hc) as (E1 & _).
    pose proof (finite_lt_inf m e Hc He). pose proof (pow2_pos (e + 149) ltac:(lia)).
    split; [lia|]. split; [nia|lia]. }
  assert (0 < 2 ^ 277) as P277 by reflexivity.
  destruct x as [sx|sx| |sx mx ex], y as [sy|sy| |sy my ey]; try discriminate;
    cbn [SFcompare F32.zv].
  - reflexivity.
  - destruct sy; cbn [cond_Zopp]; f_equal; try cmp_solve.
  - destruct (FB _ _ _ Vy) as [_ B]. destruct sy; cbn [cond_Zopp]; f_equal; try cmp_solve.
  - destruct sx; cbn [cond_Zopp]; f_equal; try cmp_solve.
  - destruct sx, sy; cbn [cond_Zopp]; f_equal; try cmp_solve.
  - destruct (FB _ _ _ Vy) as [_ B].
    destruct sx, sy; cbn [cond_Zopp]; f_equal; try cmp_solve.
  - destruct (FB _ _ _ Vx) as [_ B]. destruct sx; cbn [cond_Zopp]; f_equal; try cmp_solve.
  - destruct (FB _ _ _ Vx) as [_ B].
    destruct sx, sy; cbn [cond_Zopp]; f_equal; try cmp_solve.
  - destruct (FB _ _ _ Vx) as [Ex Bx]. destruct (FB _ _ _ Vy) as [Ey By].
    apply valid_finite in Vx, Vy. destruct Vx as [Cx Lx], Vy as [Cy Ly].
    destruct (canonical_bounds mx ex Cx) as (_ & Mx & Nx').
    destruct (canonical_bounds my ey Cy) as (_ & My & Ny').
    assert ((match ex ?= ey with
             | Eq => Pos.compare_cont Eq mx my
             | Lt => Lt
             | Gt => Gt
             end) = (Zpos mx * 2 ^ (ex + 149) ?= Zpos my * 2 ^ (ey + 149))) as Mag.
    { destruct (Z.compare_spec ex ey) as [E|E|E].
      - subst ey. change (Pos.compare_cont Eq mx my) with (Zpos mx ?= Zpos my).
        rewrite !(Z.mul_comm _ (2 ^ (ex + 149))). apply compare_scale.
        apply pow2_pos. lia.
      - symmetry. apply Z.compare_lt_iff.
        apply mag_lt_strict; lia.
      - symmetry. apply Z.compare_gt_iff.
        apply mag_lt_strict; lia. }
    destruct sx, sy; cbn [cond_Zopp]; f_equal.
    + rewrite compare_opp, <- Mag. destruct (ex ?= ey); reflexivity.
    + symmetry. apply Z.compare_lt_iff. lia.
    + symmetry. apply Z.compare_gt_iff. lia.
    + exact Mag.
Qed.

Lemma SFleb_zv x y :
  F32.valid x = true -> F32.valid y = true -> F32.is_nan x = false -> F32.is_nan y = false ->
  SFleb x y = (F32.zv x <=? F32.zv y).
Proof.
  intros. unfold SFleb. rewrite SFcompare_zv by assumption.
  unfold Z.leb. destruct (F32.zv x ?= F32.zv y); reflexivity.
Qed.

(** The float packed from a rounded mantissa. *)
Section Pack.
Variables (m e : Z).
Hypothesis Hm : 0 <= m <= 2 ^ 24.
Hypothesis He : -149 <= e.
Hypothesis Hn : -149 < e -> 2 ^ 23 <= m.

Lemma pack_valid s : F32.valid (F32.pack s m e) = true.
Proof.
  unfold F32.pack. destruct (m =? 0) eqn:E0; [reflexivity|]. apply Z.eqb_neq in E0.
  destruct (m =? 2 ^ 24) eqn:E1.
  - destruct (e + 1 <=? 104) eqn:E2; [|reflexivity]. apply Z.leb_le in E2.
    apply valid_finite. change (Zpos (digits2_pos (Z.to_pos (2 ^ 23)))) with 24. lia.
  - apply Z.eqb_neq in E1. destruct (e <=? 104) eqn:E2; [|reflexivity]. apply Z.leb_le in E2.
    apply valid_finite. split; [|lia].
    assert (Zpos (digits2_pos (Z.to_pos m)) = Zdigits2 m) as D.
    { destruct m; try lia; reflexivity. }
    rewrite D. pose proof (Zdigits2_le m 24 ltac:(lia) ltac:(lia)).
    destruct (Z.eq_dec e (-149)) as [->|Ne]; [lia|].
    assert (Zdigits2 m = 24) as D24.
    { apply Zdigits2_unique; [lia|]. change (24 - 1) with 23. split; [apply Hn|]; lia. }
    lia.
Qed.

Lemma pack_not_nan s : F32.is_nan (F32.pack s m e) = false.
Proof.
  unfold F32.pack. destruct (m =? 0); [reflexivity|].
  destruct (m =? 2 ^ 24); [destruct (e + 1 <=? 104); reflexivity|].
  destruct (e <=? 104); reflexivity.
Qed.

Lemma pack_zv : F32.zv (F32.pack false m e) = Z.min (m * 2 ^ (e + 149)) (2 ^ 277).
Proof.
  pose proof (pow2_pos (e + 149) ltac:(lia)) as P.
  unfold F32.pack. destruct (m =? 0) eqn:E0.
  - apply Z.eqb_eq in E0. subst m. cbn [F32.zv]. rewrite Z.mul_0_l. reflexivity.
  - apply Z.eqb_neq in E0. destruct (m =? 2 ^ 24) eqn:E1.
    + apply Z.eqb_eq in E1. destruct (e + 1 <=? 104) eqn:E2.
      * apply Z.leb_le in E2. cbn [F32.zv cond_Zopp].
        change (Zpos (Z.to_pos (2 ^ 23))) with (2 ^ 23).
        replace (e + 1 + 149) with (e + 149 + 1) by lia. rewrite pow2_S by lia.
        assert (2 ^ (e + 149) <= 2 ^ 252) by (apply pow2_le; lia).
        change (2 ^ 277) with (2 ^ 24 * (2 * 2 ^ 252)).
        change (2 ^ 24) with (2 * 2 ^ 23) in *. subst m.
        assert (0 < 2 ^ 23) by reflexivity. rewrite Z.min_l; nia.
      * apply Z.leb_gt in E2. cbn [F32.zv cond_Zopp].
        assert (2 ^ 253 <= 2 ^ (e + 149)) by (apply pow2_le; lia).
        change (2 ^ 277) with (2 ^ 24 * 2 ^ 253) at 2.
        rewrite Z.min_r; [reflexivity|]. subst m. change (2 ^ 277) with (2 ^ 24 * 2 ^ 253).
        assert (0 < 2 ^ 24) by reflexivity. nia.
    + apply Z.eqb_neq in E1. destruct (e <=? 104) eqn:E2.
      * apply Z.leb_le in E2. cbn [F32.zv cond_Zopp].
        rewrite Z2Pos.id by lia.
        assert (2 ^ (e + 149) <= 2 ^ 253) by (apply pow2_le; lia).
        change (2 ^ 277) with (2 ^ 24 * 2 ^ 253). rewrite Z.min_l; nia.
      * apply Z.leb_gt in E2. cbn [F32.zv cond_Zopp].
        assert (2 ^ 254 <= 2 ^ (e + 149)) by (apply pow2_le; lia).
        rewrite Z.min_r; [reflexivity|]. change (2 ^ 277) with (2 ^ 23 * 2 ^ 254).
        assert (2 ^ 23 <= m) by (apply Hn; lia). assert (0 < 2 ^ 23) by reflexivity. nia.
Qed.

Lemma pack_zv_neg : F32.zv (F32.pack true m e) = - F32.zv (F32.pack false m e).
Proof.
  unfold F32.pack. destruct (m =? 0); [reflexivity|].
  destruct (m =? 2 ^ 24); [destruct (e + 1 <=? 104); reflexivity|].
  destruct (e <=? 104); reflexivity.
Qed.

End Pack.

Lemma round_in_pack V u ex :
  F32.enough V u ex ->
  let e' := fexp 24 128 (Zdigits2 (V / u) + ex) in
  let m := F32.rhe V (u * 2 ^ (e' - ex)) in
  (forall s, binary_round_aux 24 128 s (V / u) ex (F32.loc V u) = F32.pack s m e') /\
  0 <= m <= 2 ^ 24 /\ -149 <= e' /\ (-149 < e' -> 2 ^ 23 <= m).
Proof.
  intros (HV & Hu & Hex). cbv zeta. split; [|split; [|split]].
  - intros s. exact (core_spec s V u ex HV Hu Hex).
  - exact (core_bound V u ex HV Hu Hex).
  - exact (core_emin V u ex Hex).
  - exact (core_normal V u ex HV Hu Hex).
Qed.

Lemma round_in_props V u ex :
  F32.enough V u ex ->
  F32.valid (F32.round_in V u ex) = true /\ F32.is_nan (F32.round_in V u ex) = false /\
  0 <= F32.zv (F32.round_in V u ex) <= 2 ^ 277 /\
  (forall s, F32.valid (binary_round_aux 24 128 s (V / u) ex (F32.loc V u)) = true /\
             F32.is_nan (binary_round_aux 24 128 s (V / u) ex (F32.loc V u)) = false) /\
  F32.zv (binary_round_aux 24 128 true (V / u) ex (F32.loc V u)) = - F32.zv (F32.round_in V u ex).
Proof.
  intros H. destruct (round_in_pack V u ex H) as (P & Hm & He & Hn). cbv zeta in *.
  unfold F32.round_in. rewrite !P.
  split; [apply pack_valid; assumption|]. split; [apply pack_not_nan|].
  split.
  - rewrite pack_zv by assumption.
    pose proof (pow2_pos (fexp 24 128 (Zdigits2 (V / u) + ex) + 149) ltac:(lia)).
    assert (0 < 2 ^ 277) by reflexivity.
    split; [apply Z.min_glb; nia|apply Z.le_min_r].
  - split.
    + intros s. rewrite P. split; [apply pack_valid; assumption|apply pack_not_nan].
    + apply pack_zv_neg.
Qed.

Section Mono.
Variables (V1 u1 ex1 V2 u2 ex2 c : Z).
Hypothesis H1 : F32.enough V1 u1 ex1.
Hypothesis H2 : F32.enough V2 u2 ex2.
Hypothesis Hc1 : c <= ex1.
Hypothesis Hc2 : c <= ex2.
Hypothesis VO : V1 * 2 ^ (ex1 - c) * u2 <= V2 * 2 ^ (ex2 - c) * u1.

Let d1 := Zdigits2 (V1 / u1).
Let d2 := Zdigits2 (V2 / u2).
Let e1 := fexp 24 128 (d1 + ex1).
Let e2 := fexp 24 128 (d2 + ex2).

Lemma mono_exp : e1 <= e2.
Proof.
  destruct H1 as (HV1 & Hu1 & Hex1). destruct H2 as (HV2 & Hu2 & Hex2).
  fold d1 e1 in Hex1. fold d2 e2 in Hex2.
  destruct (Z_le_gt_dec e1 e2) as [L|G]; [exact L|exfalso].
  unfold e1, e2 in *. rewrite !fexp32 in *.
  assert (0 <= V1 / u1) as Q1 by (apply Z.div_pos; lia).
  assert (0 <= V2 / u2) as Q2 by (apply Z.div_pos; lia).
  assert (d1 <> 0) as D1 by lia.
  assert (0 < V1 / u1) as P1.
  { destruct (Z.eq_dec (V1 / u1) 0) as [E|N]; [|lia].
    exfalso. apply D1. unfold d1. rewrite E. reflexivity. }
  pose proof (Zdigits2_bounds _ P1) as [L1 _]. fold d1 in L1.
  pose proof (Zdigits2_pos _ P1) as Dp. fold d1 in Dp.
  pose proof (Zdigits2_lt _ Q2) as U2. fold d2 in U2.
  pose proof (Zdigits2_nonneg (V2 / u2)) as Dn. fold d2 in Dn.
  assert (u1 * 2 ^ (d1 - 1) <= V1) as B1.
  { pose proof (Z.div_mod V1 u1 ltac:(lia)). pose proof (Z.mod_pos_bound V1 u1 Hu1). nia. }
  assert (V2 < u2 * 2 ^ d2) as B2.
  { pose proof (Z.div_mod V2 u2 ltac:(lia)). pose proof (Z.mod_pos_bound V2 u2 Hu2). nia. }
  pose proof (pow2_pos (ex1 - c) ltac:(lia)) as PA.
  pose proof (pow2_pos (ex2 - c) ltac:(lia)) as PB.
  assert (2 ^ (d1 - 1) * 2 ^ (ex1 - c) < 2 ^ d2 * 2 ^ (ex2 - c)) as K.
  { assert (u1 * u2 * (2 ^ (d1 - 1) * 2 ^ (ex1 - c)) <= V1 * 2 ^ (ex1 - c) * u2) by nia.
    assert (V2 * 2 ^ (ex2 - c) * u1 < u1 * u2 * (2 ^ d2 * 2 ^ (ex2 - c))) by nia.
    assert (0 < u1 * u2) by nia. nia. }
  rewrite <- !Z.pow_add_r in K by lia.
  apply pow2_lt_inv in K; lia.
Qed.

Lemma round_mono : F32.zv (F32.round_in V1 u1 ex1) <= F32.zv (F32.round_in V2 u2 ex2).
Proof.
  pose proof mono_exp as E.
  destruct (round_in_pack V1 u1 ex1 H1) as (P1 & Hm1 & He1 & Hn1).
  destruct (round_in_pack V2 u2 ex2 H2) as (P2 & Hm2 & He2 & Hn2).
  cbv zeta in *. fold d1 e1 in P1, Hm1, He1, Hn1. fold d2 e2 in P2, Hm2, He2, Hn2.
  unfold F32.round_in. rewrite P1, P2, !pack_zv by assumption.
  apply Z.min_le_compat_r.
  destruct H1 as (HV1 & Hu1 & Hex1). destruct H2 as (HV2 & Hu2 & Hex2).
  fold d1 e1 in Hex1. fold d2 e2 in Hex2.
  destruct (Z.eq_dec e1 e2) as [Eq|Ne].
  - rewrite Eq in *.
    pose proof (pow2_pos (ex1 - c) ltac:(lia)) as PA.
    pose proof (pow2_pos (ex2 - c) ltac:(lia)) as PB.
    pose proof (pow2_pos (e2 - c) ltac:(lia)) as PT.
    pose proof (pow2_pos (e2 + 149) ltac:(lia)) as PE.
    assert (2 ^ (ex1 - c) * 2 ^ (e2 - ex1) = 2 ^ (e2 - c)) as T1.
    { rewrite <- Z.pow_add_r by lia. f_equal. lia. }
    assert (2 ^ (ex2 - c) * 2 ^ (e2 - ex2) = 2 ^ (e2 - c)) as T2.
    { rewrite <- Z.pow_add_r by lia. f_equal. lia. }
    assert (F32.rhe V1 (u1 * 2 ^ (e2 - ex1)) <= F32.rhe V2 (u2 * 2 ^ (e2 - ex2))) as R.
    { rewrite <- (rhe_scale (u2 * 2 ^ (ex1 - c)) V1 (u1 * 2 ^ (e2 - ex1)))
        by (try apply Z.mul_pos_pos; try apply pow2_pos; lia).
      rewrite <- (rhe_scale (u1 * 2 ^ (ex2 - c)) V2 (u2 * 2 ^ (e2 - ex2)))
        by (try apply Z.mul_pos_pos; try apply pow2_pos; lia).
      replace (u2 * 2 ^ (ex1 - c) * (u1 * 2 ^ (e2 - ex1))) with (u1 * u2 * 2 ^ (e2 - c))
        by (rewrite <- T1; ring).
      replace (u1 * 2 ^ (ex2 - c) * (u2 * 2 ^ (e2 - ex2))) with (u1 * u2 * 2 ^ (e2 - c))
        by (rewrite <- T2; ring).
      apply rhe_mono; [|nia].
      split; [nia|]. nia. }
    nia.
  - apply mag_lt; lia.
Qed.

End Mono.

Lemma loc_1 V : F32.loc V 1 = loc_Exact.
Proof. unfold F32.loc. rewrite Z.mod_1_r. reflexivity. Qed.

Lemma pos_iter_xO m d : Zpos (Pos.iter xO m d) = Zpos m * 2 ^ Zpos d.
Proof.
  induction d as [|d IH] using Pos.peano_ind.
  - cbn [Pos.iter]. rewrite Pos2Z.inj_xO. change (2 ^ 1) with 2. lia.
  - rewrite Pos.iter_succ, Pos2Z.inj_xO, IH, Pos2Z.inj_succ, Z.pow_succ_r by lia. lia.
Qed.

Lemma shl_align_spec m e e' :
  (e' < e /\ shl_align m e e' = (Z.to_pos (Zpos m * 2 ^ (e - e')), e') /\
   Zpos (fst (shl_align m e e')) = Zpos m * 2 ^ (e - e')) \/
  (e <= e' /\ shl_align m e e' = (m, e)).
Proof.
  unfold shl_align. destruct (e' - e) as [|d|d] eqn:E.
  - right. split; [lia|reflexivity].
  - right. split; [lia|reflexivity].
  - left. split; [lia|]. replace (e - e') with (Zpos d) by lia.
    rewrite <- pos_iter_xO. cbn [fst Z.to_pos]. auto.
Qed.

Lemma shl_align_fst m e e' : e' <= e ->
  Zpos (fst (shl_align m e e')) = Zpos m * 2 ^ (e - e').
Proof.
  intros H. destruct (shl_align_spec m e e') as [(_ & _ & F)|(L & E)]; [exact F|].
  rewrite E. cbn [fst]. replace (e - e') with 0 by lia. cbn. lia.
Qed.

Lemma Zdigits2_shift m k : 0 < m -> 0 <= k -> Zdigits2 (m * 2 ^ k) = Zdigits2 m + k.
Proof.
  intros Hm Hk. pose proof (Zdigits2_bounds m Hm) as [L U].
  pose proof (Zdigits2_pos m Hm) as P. pose proof (pow2_pos k Hk) as Pk.
  apply Zdigits2_unique; [lia|].
  replace (Zdigits2 m + k - 1) with (Zdigits2 m - 1 + k) by lia.
  rewrite !Z.pow_add_r by lia. nia.
Qed.

(** [binary_round] rounds an exact dyadic input. *)
Lemma binary_round_in m e :
  exists mz ez,
    (forall s, binary_round 24 128 s m e =
               binary_round_aux 24 128 s (Zpos mz / 1) ez (F32.loc (Zpos mz) 1)) /\
    F32.enough (Zpos mz) 1 ez /\ ez <= e /\ Z.min e (-149) <= ez /\
    Zpos mz = Zpos m * 2 ^ (e - ez).
Proof.
  unfold binary_round.
  destruct (shl_align_spec m e (fexp 24 128 (Zpos (digits2_pos m) + e)))
    as [(L & E & F)|(L & E)]; rewrite E.
  - exists (Z.to_pos (Zpos m * 2 ^ (e - fexp 24 128 (Zpos (digits2_pos m) + e)))),
           (fexp 24 128 (Zpos (digits2_pos m) + e)).
    rewrite E in F. cbn [fst] in F. rewrite F.
    rewrite Z.div_1_r, loc_1. split; [reflexivity|]. split; [|split; [lia|split; [|reflexivity]]].
    + unfold F32.enough. rewrite Z.div_1_r.
      rewrite Zdigits2_shift by lia. cbn [Zdigits2].
      replace (Zpos (digits2_pos m) + (e - fexp 24 128 (Zpos (digits2_pos m) + e)) +
               fexp 24 128 (Zpos (digits2_pos m) + e)) with (Zpos (digits2_pos m) + e) by lia.
      pose proof (pow2_pos (e - fexp 24 128 (Zpos (digits2_pos m) + e)) ltac:(lia)). nia.
    + rewrite fexp32. lia.
  - exists m, e. rewrite Z.div_1_r, loc_1. split; [reflexivity|].
    split; [|split; [lia|split; [lia|]]].
    + unfold F32.enough. rewrite Z.div_1_r. cbn [Zdigits2]. lia.
    + rewrite Z.sub_diag. cbn. lia.
Qed.

Lemma binary_round_props s m e :
  F32.valid (binary_round 24 128 s m e) = true /\
  F32.is_nan (binary_round 24 128 s m e) = false /\
  0 <= F32.zv (binary_round 24 128 false m e) <= 2 ^ 277 /\
  F32.zv (binary_round 24 128 true m e) = - F32.zv (binary_round 24 128 false m e).
Proof.
  destruct (binary_round_in m e) as (mz & ez & E & En & _).
  destruct (round_in_props _ _ _ En) as (_ & _ & B & A & N).
  rewrite !E. unfold F32.round_in in *.
  split; [apply A|]. split; [apply A|]. split; [exact B|exact N].
Qed.

(** Rounding is monotone in the value rounded. *)
Lemma binary_round_mono m1 e1 m2 e2 c :
  c <= e1 -> c <= e2 -> c <= -149 ->
  Zpos m1 * 2 ^ (e1 - c) <= Zpos m2 * 2 ^ (e2 - c) ->
  F32.zv (binary_round 24 128 false m1 e1) <= F32.zv (binary_round 24 128 false m2 e2).
Proof.
  intros C1 C2 C VO.
  destruct (binary_round_in m1 e1) as (mz1 & ez1 & E1 & En1 & L1 & B1 & M1).
  destruct (binary_round_in m2 e2) as (mz2 & ez2 & E2 & En2 & L2 & B2 & M2).
  rewrite E1, E2.
  apply (round_mono (Zpos mz1) 1 ez1 (Zpos mz2) 1 ez2 c En1 En2); try lia.
  rewrite M1, M2, !Z.mul_1_r, <- !Z.mul_assoc, <- !Z.pow_add_r by lia.
  replace (e1 - ez1 + (ez1 - c)) with (e1 - c) by lia.
  replace (e2 - ez2 + (ez2 - c)) with (e2 - c) by lia. exact VO.
Qed.

Lemma binary_round_value m1 e1 m2 e2 c :
  c <= e1 -> c <= e2 -> c <= -149 ->
  Zpos m1 * 2 ^ (e1 - c) = Zpos m2 * 2 ^ (e2 - c) ->
  F32.zv (binary_round 24 128 false m1 e1) = F32.zv (binary_round 24 128 false m2 e2).
Proof.
  intros C1 C2 C VO. apply Z.le_antisymm; eapply binary_round_mono; eauto; lia.
Qed.

(** A representable value rounds to itself. *)
Lemma binary_round_id s m e :
  F32.valid (S754_finite s m e) = true ->
  binary_round 24 128 s m e = S754_finite s m e.
Proof.
  intros Hv. apply valid_finite in Hv. destruct Hv as [Hc He].
  unfold binary_round. rewrite fexp32, <- Hc.
  unfold shl_align. rewrite Z.sub_diag.
  unfold binary_round_aux, shr_fexp. cbn [Zdigits2]. rewrite fexp32, <- Hc, Z.sub_diag.
  cbn [shr shr_record_of_loc shr_m loc_of_shr_record round_nearest_even Zdigits2].
  rewrite fexp32, <- Hc, Z.sub_diag. cbn [shr shr_m].
  change (128 - 24) with 104. apply Z.leb_le in He. rewrite He. reflexivity.
Qed.

Lemma pack_nn m e : F32.nn (F32.pack false m e) = true.
Proof.
  unfold F32.pack. destruct (m =? 0); [reflexivity|].
  destruct (m =? 2 ^ 24); [destruct (e + 1 <=? 104); reflexivity|].
  destruct (e <=? 104); reflexivity.
Qed.

Lemma round_in_nn V u ex : F32.enough V u ex -> F32.nn (F32.round_in V u ex) = true.
Proof.
  intros H. destruct (round_in_pack V u ex H) as (P & _). cbv zeta in P.
  unfold F32.round_in. rewrite P. apply pack_nn.
Qed.

Lemma nn_zv f : F32.nn f = true -> 0 <= F32.zv f.
Proof.
  destruct f as [s|[]| |[] m e]; intros H; try discriminate; cbn [F32.zv cond_Zopp]; lia.
Qed.

Lemma finite_zv_pos m e : F32.valid (S754_finite false m e) = true ->
  0 < F32.zv (S754_finite false m e) < 2 ^ 277.
Proof.
  intros Hv. apply valid_finite in Hv. destruct Hv as [Hc He].
  destruct (canonical_bounds m e Hc) as (E1 & _).
  pose proof (finite_lt_inf m e Hc He). pose proof (pow2_pos (e + 149) ltac:(lia)).
  cbn [F32.zv cond_Zopp]. split; [nia|lia].
Qed.

Lemma RS_bounds T : - 2 ^ 277 <= F32.RS T <= 2 ^ 277.
Proof.
  assert (0 < 2 ^ 277) by reflexivity.
  destruct T as [|p|p]; cbn [F32.RS]; [lia| |];
    destruct (binary_round_props false p (-149)) as (_ & _ & B & _); lia.
Qed.

Lemma RS_mono T1 T2 : T1 <= T2 -> F32.RS T1 <= F32.RS T2.
Proof.
  intros H.
  assert (forall p q, Zpos p <= Zpos q ->
            F32.zv (binary_round 24 128 false p (-149)) <= F32.zv (binary_round 24 128 false q (-149)))
    as M.
  { intros p q L. apply (binary_round_mono p (-149) q (-149) (-149)); lia. }
  destruct T1 as [|p1|p1], T2 as [|p2|p2]; cbn [F32.RS]; try lia;
    try (destruct (binary_round_props false p1 (-149)) as (_ & _ & B1 & _));
    try (destruct (binary_round_props false p2 (-149)) as (_ & _ & B2 & _)); try lia.
  - apply M. lia.
  - assert (Zpos p2 <= Zpos p1) as L by lia. pose proof (M p2 p1 L). lia.
Qed.

Lemma RS_pos p e : -149 <= e ->
  F32.RS (Zpos p * 2 ^ (e + 149)) = F32.zv (binary_round 24 128 false p e).
Proof.
  intros He. pose proof (pow2_pos (e + 149) ltac:(lia)) as P.
  destruct (Zpos p * 2 ^ (e + 149)) as [|q|q] eqn:E; try lia.
  cbn [F32.RS]. apply (binary_round_value q (-149) p e (-149)); try lia.
  rewrite Z.sub_diag, Z.mul_1_r. replace (e - -149) with (e + 149) by lia. lia.
Qed.

Lemma RS_opp T : F32.RS (- T) = - F32.RS T.
Proof. destruct T; cbn [F32.RS Z.opp]; lia. Qed.

Lemma RS_id f : F32.valid f = true -> F32.is_finite f = true -> F32.RS (F32.zv f) = F32.zv f.
Proof.
  intros Hv Hf. destruct f as [s|s| |s m e]; try discriminate; [reflexivity|].
  assert (F32.valid (S754_finite false m e) = true) as Hv' by exact Hv.
  pose proof Hv' as Hv''. apply valid_finite in Hv''. destruct Hv'' as [Hc He].
  destruct (canonical_bounds m e Hc) as (E1 & _).
  cbn [F32.zv]. destruct s; cbn [cond_Zopp]; rewrite ?RS_opp, RS_pos by lia;
    rewrite (binary_round_id false m e Hv'); reflexivity.
Qed.

Lemma binary_normalize_zv S ez :
  -149 <= ez ->
  F32.zv (binary_normalize 24 128 S ez false) = F32.RS (S * 2 ^ (ez + 149)) /\
  F32.valid (binary_normalize 24 128 S ez false) = true /\
  F32.is_nan (binary_normalize 24 128 S ez false) = false.
Proof.
  intros He. destruct S as [|p|p]; cbn [binary_normalize].
  - repeat split; reflexivity.
  - destruct (binary_round_props false p ez) as (V & N & _).
    rewrite RS_pos by lia. auto.
  - destruct (binary_round_props true p ez) as (V & N & _ & O).
    change (Zneg p) with (- Zpos p). rewrite Z.mul_opp_l, RS_opp, RS_pos by lia. auto.
Qed.

Lemma add_zv x y :
  F32.valid x = true -> F32.valid y = true -> F32.is_finite x = true -> F32.is_finite y = true ->
  F32.zv (SFadd 24 128 x y) = F32.RS (F32.zv x + F32.zv y) /\
  F32.valid (SFadd 24 128 x y) = true /\ F32.is_nan (SFadd 24 128 x y) = false.
Proof.
  intros Vx Vy Fx Fy.
  destruct x as [sx|sx| |sx mx ex], y as [sy|sy| |sy my ey]; try discriminate.
  - cbn [SFadd]. destruct sx, sy; repeat split; reflexivity.
  - cbn [SFadd]. change (F32.zv (S754_zero sx)) with 0. rewrite Z.add_0_l, RS_id by assumption.
    auto.
  - cbn [SFadd]. change (F32.zv (S754_zero sy)) with 0. rewrite Z.add_0_r, RS_id by assumption.
    auto.
  - cbn [SFadd].
    pose proof Vx as Vx'. pose proof Vy as Vy'.
    apply valid_finite in Vx', Vy'. destruct Vx' as [Cx Lx], Vy' as [Cy Ly].
    destruct (canonical_bounds mx ex Cx) as (Ex & _).
    destruct (canonical_bounds my ey Cy) as (Ey & _).
    destruct (binary_normalize_zv
                (cond_Zopp sx (Zpos (fst (shl_align mx ex (Z.min ex ey)))) +
                 cond_Zopp sy (Zpos (fst (shl_align my ey (Z.min ex ey)))))
                (Z.min ex ey) ltac:(lia)) as (Z & V & N).
    rewrite Z. split; [|auto]. f_equal.
    rewrite !shl_align_fst by lia. cbn [F32.zv].
    assert (forall s m e, Z.min ex ey <= e ->
              cond_Zopp s (Zpos m * 2 ^ (e - Z.min ex ey)) * 2 ^ (Z.min ex ey + 149) =
              cond_Zopp s (Zpos m * 2 ^ (e + 149))) as A.
    { intros s m e Hle.
      assert (2 ^ (e - Z.min ex ey) * 2 ^ (Z.min ex ey + 149) = 2 ^ (e + 149)) as P.
      { rewrite <- Z.pow_add_r by lia. f_equal. lia. }
      destruct s; cbn [cond_Zopp]; rewrite <- P; ring. }
    rewrite Z.mul_add_distr_r, !A by lia. reflexivity.
Qed.

Lemma add_mono x y1 y2 :
  F32.valid x = true -> F32.is_finite x = true ->
  F32.valid y1 = true -> F32.nn y1 = true -> F32.valid y2 = true -> F32.nn y2 = true ->
  F32.zv y1 <= F32.zv y2 ->
  F32.zv (SFadd 24 128 x y1) <= F32.zv (SFadd 24 128 x y2) /\
  (F32.valid (SFadd 24 128 x y1) = true /\ F32.is_nan (SFadd 24 128 x y1) = false) /\
  (F32.valid (SFadd 24 128 x y2) = true /\ F32.is_nan (SFadd 24 128 x y2) = false).
Proof.
  intros Vx Fx V1 N1 V2 N2 H.
  assert (forall y, F32.valid y = true -> F32.nn y = true -> F32.is_finite y = false ->
            y = S754_infinity false) as Inf.
  { intros y _ Hn Hf. destruct y as [s|[]| |[] m e]; try discriminate; reflexivity. }
  assert (SFadd 24 128 x (S754_infinity false) = S754_infinity false) as AI.
  { destruct x as [sx|sx| |sx mx ex]; try discriminate; reflexivity. }
  assert (forall y, F32.valid y = true -> F32.is_finite y = true -> F32.zv y < 2 ^ 277) as FB.
  { intros y Vy Fy. destruct y as [s|s| |s m e]; try discriminate; [reflexivity|].
    assert (F32.valid (S754_finite false m e) = true) as Hv' by exact Vy.
    destruct (finite_zv_pos m e Hv'). cbn [F32.zv cond_Zopp] in *. destruct s; cbn [cond_Zopp]; lia. }
  destruct (F32.is_finite y2) eqn:F2.
  - destruct (F32.is_finite y1) eqn:F1.
    + destruct (add_zv x y1 Vx V1 Fx F1) as (Z1 & A1).
      destruct (add_zv x y2 Vx V2 Fx F2) as (Z2 & A2).
      rewrite Z1, Z2. split; [apply RS_mono; lia|auto].
    + rewrite (Inf y1 V1 N1 F1) in H. pose proof (FB y2 V2 F2). cbn [F32.zv cond_Zopp] in H. lia.
  - rewrite (Inf y2 V2 N2 F2), AI.
    destruct (F32.is_finite y1) eqn:F1.
    + destruct (add_zv x y1 Vx V1 Fx F1) as (Z1 & A1). rewrite Z1.
      split; [apply RS_bounds|]. split; [exact A1|split; reflexivity].
    + rewrite (Inf y1 V1 N1 F1), AI. split; [lia|]. repeat split; reflexivity.
Qed.

(** ** Multiplication *)

Lemma mul_enough mx ex my ey :
  F32.valid (S754_finite false mx ex) = true -> F32.valid (S754_finite false my ey) = true ->
  F32.enough (Zpos (mx * my)) 1 (ex + ey).
Proof.
  intros Vx Vy. apply valid_finite in Vx, Vy. destruct Vx as [Cx Lx], Vy as [Cy Ly].
  destruct (canonical_bounds mx ex Cx) as (Ex & Mx & Nx).
  destruct (canonical_bounds my ey Cy) as (Ey & My & Ny).
  unfold F32.enough. rewrite Z.div_1_r, fexp32. split; [lia|]. split; [lia|].
  destruct (Z.eq_dec ex (-149)) as [E1|E1]; [destruct (Z.eq_dec ey (-149)) as [E2|E2]|];
    [lia| |].
  - assert (2 ^ 23 <= Zpos (mx * my)) as B by (rewrite Pos2Z.inj_mul; nia).
    pose proof (Zdigits2_lt (Zpos (mx * my)) ltac:(lia)) as U.
    assert (23 < Zdigits2 (Zpos (mx * my))).
    { apply pow2_lt_inv; try lia. apply Zdigits2_nonneg. }
    lia.
  - assert (2 ^ 23 <= Zpos (mx * my)) as B by (rewrite Pos2Z.inj_mul; nia).
    pose proof (Zdigits2_lt (Zpos (mx * my)) ltac:(lia)) as U.
    assert (23 < Zdigits2 (Zpos (mx * my))).
    { apply pow2_lt_inv; try lia. apply Zdigits2_nonneg. }
    lia.
Qed.

Lemma mul_finite mx ex my ey :
  SFmul 24 128 (S754_finite false mx ex) (S754_finite false my ey) =
  F32.round_in (Zpos (mx * my)) 1 (ex + ey).
Proof.
  cbn [SFmul xorb]. unfold F32.round_in. rewrite Z.div_1_r, loc_1. reflexivity.
Qed.

Lemma mul_mono x1 x2 y :
  F32.valid x1 = true -> F32.valid x2 = true -> F32.valid y = true ->
  F32.nn x1 = true -> F32.is_finite x1 = true -> F32.nn x2 = true -> F32.is_finite x2 = true ->
  F32.nn y = true -> F32.is_finite y = true ->
  F32.zv x1 <= F32.zv x2 ->
  F32.zv (SFmul 24 128 x1 y) <= F32.zv (SFmul 24 128 x2 y) /\
  (F32.valid (SFmul 24 128 x1 y) = true /\ F32.nn (SFmul 24 128 x1 y) = true) /\
  (F32.valid (SFmul 24 128 x2 y) = true /\ F32.nn (SFmul 24 128 x2 y) = true).
Proof.
  intros V1 V2 Vy N1 F1 N2 F2 Ny Fy H.
  destruct y as [sy|sy| |[] my ey]; try discriminate.
  - destruct x1 as [s1|s1| |[] m1 e1], x2 as [s2|s2| |[] m2 e2]; try discriminate;
      cbn [SFmul F32.zv]; repeat split; try reflexivity; lia.
  - assert (forall m e, F32.valid (S754_finite false m e) = true ->
              0 <= F32.zv (SFmul 24 128 (S754_finite false m e) (S754_finite false my ey)) /\
              F32.valid (SFmul 24 128 (S754_finite false m e) (S754_finite false my ey)) = true /\
              F32.nn (SFmul 24 128 (S754_finite false m e) (S754_finite false my ey)) = true) as P.
    { intros m e Hv. rewrite mul_finite. pose proof (mul_enough m e my ey Hv Vy) as En.
      destruct (round_in_props _ _ _ En) as (A & _ & B & _).
      split; [lia|]. split; [exact A|apply round_in_nn; exact En]. }
    destruct x1 as [s1|s1| |[] m1 e1], x2 as [s2|s2| |[] m2 e2]; try discriminate.
    + cbn [SFmul F32.zv]. repeat split; try reflexivity; lia.
    + destruct (P m2 e2 V2) as (A & B & C). cbn [SFmul F32.zv] in *.
      split; [exact A|]. split; [split; reflexivity|split; assumption].
    + exfalso. destruct (finite_zv_pos m1 e1 V1). cbn [F32.zv] in H. cbn [F32.zv] in *. lia.
    + destruct (P m1 e1 V1) as (A1 & B1 & C1). destruct (P m2 e2 V2) as (A2 & B2 & C2).
      split; [|split; split; assumption].
      rewrite !mul_finite.
      pose proof V1 as V1'. pose proof V2 as V2'. pose proof Vy as Vy'.
      apply valid_finite in V1', V2', Vy'.
      destruct V1' as [C1' _], V2' as [C2' _], Vy' as [Cy' _].
      destruct (canonical_bounds m1 e1 C1') as (E1 & _).
      destruct (canonical_bounds m2 e2 C2') as (E2 & _).
      apply (round_mono _ 1 _ _ 1 _ (-149 + ey)
               (mul_enough m1 e1 my ey V1 Vy) (mul_enough m2 e2 my ey V2 Vy)); try lia.
      cbn [F32.zv cond_Zopp] in H. rewrite !Z.mul_1_r, !Pos2Z.inj_mul.
      replace (e1 + ey - (-149 + ey)) with (e1 + 149) by lia.
      replace (e2 + ey - (-149 + ey)) with (e2 + 149) by lia.
      nia.
Qed.

(** ** Division *)

Lemma new_location_spec u r :
  0 < u -> new_location u r = if r =? 0 then loc_Exact else loc_Inexact (2 * r ?= u).
Proof.
  intros Hu. unfold new_location, new_location_even, new_location_odd.
  destruct (Z.even u) eqn:E; [reflexivity|].
  destruct (r =? 0); [reflexivity|]. f_equal.
  assert (Z.odd u = true) as O by (rewrite <- Z.negb_even, E; reflexivity).
  apply Z.odd_spec in O. destruct O as [k Hk].
  destruct (Z.compare_spec (2 * r + 1) u); symmetry;
    [apply Z.compare_lt_iff|apply Z.compare_lt_iff|apply Z.compare_gt_iff]; lia.
Qed.

Lemma div_core_spec mx ex my ey :
  let D := Zdigits2 (Zpos mx) + ex - (Zdigits2 (Zpos my) + ey) in
  let e' := Z.min (fexp 24 128 D) (ex - ey) in
  let V := Zpos mx * 2 ^ (ex - ey - e') in
  SFdiv_core_binary 24 128 (Zpos mx) ex (Zpos my) ey = (V / Zpos my, e', F32.loc V (Zpos my)) /\
  F32.enough V (Zpos my) e'.
Proof.
  intros D e' V.
  assert (0 <= ex - ey - e') as Hs by (unfold e'; lia).
  pose proof (pow2_pos (ex - ey - e') Hs) as Ps.
  split.
  - unfold SFdiv_core_binary. fold D. fold e'.
    assert (match ex - ey - e' with
            | 0 => Zpos mx
            | Zpos _ => Z.shiftl (Zpos mx) (ex - ey - e')
            | Zneg _ => 0
            end = V) as M.
    { unfold V. destruct (ex - ey - e') as [|p|p] eqn:E; try lia.
      rewrite Z.shiftl_mul_pow2 by lia. reflexivity. }
    rewrite M.
    assert (Z.div_eucl V (Zpos my) = (V / Zpos my, V mod Zpos my)) as DE.
    { unfold Z.div, Z.modulo. destruct (Z.div_eucl V (Zpos my)); reflexivity. }
    rewrite DE. rewrite new_location_spec by lia. reflexivity.
  - unfold F32.enough. split; [unfold V; nia|]. split; [lia|].
    rewrite fexp32.
    destruct (Z_le_gt_dec e' (-149)) as [L|G]; [lia|].
    assert (e' <= D - 24) as HD by (unfold e' in *; rewrite fexp32 in *; lia).
    pose proof (Zdigits2_pos_bounds mx) as [Lx Ux].
    pose proof (Zdigits2_pos_bounds my) as [Ly Uy].
    cbn [Zdigits2] in D.
    set (dx := Zpos (digits2_pos mx)) in *. set (dy := Zpos (digits2_pos my)) in *.
    assert (0 < dx) as Px by (unfold dx; lia). assert (0 < dy) as Py by (unfold dy; lia).
    set (k := dx - 1 + (ex - ey - e') - dy).
    assert (23 <= k) as Hk by (unfold k, D in *; lia).
    assert (2 ^ k * 2 ^ dy = 2 ^ (dx - 1) * 2 ^ (ex - ey - e')) as PK.
    { rewrite <- !Z.pow_add_r by lia. f_equal. unfold k. lia. }
    assert (2 ^ k <= V / Zpos my) as Q.
    { apply Z.div_le_lower_bound; [lia|]. unfold V.
      pose proof (pow2_pos k ltac:(lia)). nia. }
    pose proof (Zdigits2_lt (V / Zpos my) ltac:(pose proof (pow2_pos k ltac:(lia)); lia)) as U.
    assert (k < Zdigits2 (V / Zpos my)).
    { apply pow2_lt_inv; try lia. apply Zdigits2_nonneg. }
    unfold k, D in *. lia.
Qed.

Lemma div_finite mx ex my ey :
  let D := Zdigits2 (Zpos mx) + ex - (Zdigits2 (Zpos my) + ey) in
  let e' := Z.min (fexp 24 128 D) (ex - ey) in
  let V := Zpos mx * 2 ^ (ex - ey - e') in
  SFdiv 24 128 (S754_finite false mx ex) (S754_finite false my ey) = F32.round_in V (Zpos my) e'.
Proof.
  intros D e' V. cbn [SFdiv xorb].
  destruct (div_core_spec mx ex my ey) as [E _]. cbv zeta in E. fold D e' V in E.
  rewrite E. reflexivity.
Qed.

Lemma div_mono x1 x2 my ey :
  F32.valid x1 = true -> F32.valid x2 = true -> F32.valid (S754_finite false my ey) = true ->
  F32.nn x1 = true -> F32.is_finite x1 = true -> F32.nn x2 = true -> F32.is_finite x2 = true ->
  F32.zv x1 <= F32.zv x2 ->
  F32.zv (SFdiv 24 128 x1 (S754_finite false my ey)) <=
    F32.zv (SFdiv 24 128 x2 (S754_finite false my ey)) /\
  (F32.valid (SFdiv 24 128 x1 (S754_finite false my ey)) = true /\
   F32.nn (SFdiv 24 128 x1 (S754_finite false my ey)) = true) /\
  (F32.valid (SFdiv 24 128 x2 (S754_finite false my ey)) = true /\
   F32.nn (SFdiv 24 128 x2 (S754_finite false my ey)) = true).
Proof.
  intros V1 V2 Vy N1 F1 N2 F2 H.
  assert (forall m e, F32.valid (S754_finite false m e) = true ->
            0 <= F32.zv (SFdiv 24 128 (S754_finite false m e) (S754_finite false my ey)) /\
            F32.valid (SFdiv 24 128 (S754_finite false m e) (S754_finite false my ey)) = true /\
            F32.nn (SFdiv 24 128 (S754_finite false m e) (S754_finite false my ey)) = true) as P.
  { intros m e Hv. rewrite div_finite. destruct (div_core_spec m e my ey) as [_ En].
    cbv zeta in En.
    destruct (round_in_props _ _ _ En) as (A & _ & B & _).
    split; [lia|]. split; [exact A|apply round_in_nn; exact En]. }
  destruct x1 as [s1|s1| |[] m1 e1], x2 as [s2|s2| |[] m2 e2]; try discriminate.
  - cbn [SFdiv F32.zv]. repeat split; try reflexivity; lia.
  - destruct (P m2 e2 V2) as (A & B & C). cbn [SFdiv F32.zv] in *.
    split; [exact A|]. split; [split; reflexivity|split; assumption].
  - exfalso. destruct (finite_zv_pos m1 e1 V1). cbn [F32.zv] in *. lia.
  - destruct (P m1 e1 V1) as (A1 & B1 & C1). destruct (P m2 e2 V2) as (A2 & B2 & C2).
    split; [|split; split; assumption].
    rewrite !div_finite.
    destruct (div_core_spec m1 e1 my ey) as [_ En1].
    destruct (div_core_spec m2 e2 my ey) as [_ En2]. cbv zeta in En1, En2.
    pose proof V1 as V1'. pose proof V2 as V2'.
    apply valid_finite in V1', V2'. destruct V1' as [C1' _], V2' as [C2' _].
    destruct (canonical_bounds m1 e1 C1') as (E1 & _).
    destruct (canonical_bounds m2 e2 C2') as (E2 & _).
    set (c := Z.min (-149) (-149 - ey)).
    apply (round_mono _ _ _ _ _ _ c En1 En2).
    + unfold c. rewrite fexp32. lia.
    + unfold c. rewrite fexp32. lia.
    + cbn [F32.zv cond_Zopp] in H.
      set (ea := Z.min (fexp 24 128 (Zdigits2 (Zpos m1) + e1 - (Zdigits2 (Zpos my) + ey))) (e1 - ey)).
      set (eb := Z.min (fexp 24 128 (Zdigits2 (Zpos m2) + e2 - (Zdigits2 (Zpos my) + ey))) (e2 - ey)).
      assert (c <= ea) by (unfold c, ea; rewrite fexp32; lia).
      assert (c <= eb) by (unfold c, eb; rewrite fexp32; lia).
      assert (ea <= e1 - ey) by (unfold ea; lia).
      assert (eb <= e2 - ey) by (unfold eb; lia).
      assert (2 ^ (e1 - ey - ea) * 2 ^ (ea - c) = 2 ^ (e1 + 149) * 2 ^ (-149 - ey - c)) as T1.
      { rewrite <- !Z.pow_add_r by (unfold c; lia). f_equal. lia. }
      assert (2 ^ (e2 - ey - eb) * 2 ^ (eb - c) = 2 ^ (e2 + 149) * 2 ^ (-149 - ey - c)) as T2.
      { rewrite <- !Z.pow_add_r by (unfold c; lia). f_equal. lia. }
      pose proof (pow2_pos (-149 - ey - c) ltac:(unfold c; lia)).
      rewrite <- !Z.mul_assoc, (Z.mul_assoc (2 ^ (e1 - ey - ea))), (Z.mul_assoc (2 ^ (e2 - ey - eb))).
      rewrite T1, T2. nia.
Qed.

Lemma SFltb_zv x y :
  F32.valid x = true -> F32.valid y = true -> F32.is_nan x = false -> F32.is_nan y = false ->
  SFltb x y = (F32.zv x <? F32.zv y).
Proof.
  intros. unfold SFltb. rewrite SFcompare_zv by assumption.
  unfold Z.ltb. destruct (F32.zv x ?= F32.zv y); reflexivity.
Qed.

Lemma binary_round_nn m e : F32.nn (binary_round 24 128 false m e) = true.
Proof.
  destruct (binary_round_in m e) as (mz & ez & E & En & _).
  rewrite E. apply (round_in_nn _ _ _ En).
Qed.

Lemma finite_zv_sign s m e :
  F32.valid (S754_finite s m e) = true ->
  if s then F32.zv (S754_finite s m e) < 0 else 0 < F32.zv (S754_finite s m e).
Proof.
  intros Hv. assert (F32.valid (S754_finite false m e) = true) as Hv' by exact Hv.
  destruct (finite_zv_pos m e Hv') as [P _]. cbn [F32.zv cond_Zopp] in *.
  destruct s; cbn [cond_Zopp]; lia.
Qed.

Lemma nn_fin_cases f :
  F32.valid f = true -> F32.is_nan f = false -> 0 <= F32.zv f < 2 ^ 277 ->
  F32.nn f = true /\ F32.is_finite f = true.
Proof.
  intros Hv Hn [L U]. destruct f as [s|s| |s m e]; try discriminate.
  - split; reflexivity.
  - exfalso. destruct s; cbn [F32.zv cond_Zopp] in *; lia.
  - pose proof (finite_zv_sign s m e Hv) as S. destruct s; [lia|split; reflexivity].
Qed.

(** ** Subtraction: the span max - min *)

Lemma sub_span x y :
  F32.valid x = true -> F32.valid y = true ->
  SFleb y x = true -> F32.is_finite (SFsub 24 128 x y) = true ->
  F32.valid (SFsub 24 128 x y) = true /\ F32.nn (SFsub 24 128 x y) = true /\
  F32.is_finite x = true /\ F32.is_finite y = true.
Proof.
  intros Vx Vy L F.
  assert (F32.is_nan x = false /\ F32.is_nan y = false) as [Nx Ny].
  { destruct x, y; try discriminate; split; reflexivity. }
  rewrite (SFleb_zv y x Vy Vx Ny Nx) in L. apply Z.leb_le in L.
  destruct x as [sx|sx| |sx mx ex], y as [sy|sy| |sy my ey]; try discriminate;
    try (destruct sx, sy; discriminate).
  - cbn [SFsub]. destruct sx, sy; repeat split; reflexivity.
  - pose proof (finite_zv_sign sy my ey Vy) as S. cbn [SFsub].
    destruct sy; [|change (F32.zv (S754_zero sx)) with 0 in L; lia].
    repeat split; try reflexivity. exact Vy.
  - pose proof (finite_zv_sign sx mx ex Vx) as S. cbn [SFsub].
    destruct sx; [change (F32.zv (S754_zero sy)) with 0 in L; lia|].
    repeat split; try reflexivity. exact Vx.
  - cbn [SFsub] in *.
    pose proof Vx as Vx'. pose proof Vy as Vy'.
    apply valid_finite in Vx', Vy'. destruct Vx' as [Cx Lx], Vy' as [Cy Ly].
    destruct (canonical_bounds mx ex Cx) as (Ex & _).
    destruct (canonical_bounds my ey Cy) as (Ey & _).
    set (S := cond_Zopp sx (Zpos (fst (shl_align mx ex (Z.min ex ey)))) -
              cond_Zopp sy (Zpos (fst (shl_align my ey (Z.min ex ey))))) in *.
    assert (0 <= S) as HS.
    { unfold S. rewrite !shl_align_fst by lia. cbn [F32.zv] in L.
      assert (forall s m e, Z.min ex ey <= e ->
                cond_Zopp s (Zpos m * 2 ^ (e - Z.min ex ey)) * 2 ^ (Z.min ex ey + 149) =
                cond_Zopp s (Zpos m * 2 ^ (e + 149))) as A.
      { intros s m e Hle.
        assert (2 ^ (e - Z.min ex ey) * 2 ^ (Z.min ex ey + 149) = 2 ^ (e + 149)) as P.
        { rewrite <- Z.pow_add_r by lia. f_equal. lia. }
        destruct s; cbn [cond_Zopp]; rewrite <- P; ring. }
      pose proof (A sx mx ex ltac:(lia)) as Ax. pose proof (A sy my ey ltac:(lia)) as Ay.
      pose proof (pow2_pos (Z.min ex ey + 149) ltac:(lia)). nia. }
    destruct S as [|p|p]; [| |lia]; cbn [binary_normalize].
    + repeat split; reflexivity.
    + destruct (binary_round_props false p (Z.min ex ey)) as (V & _).
      split; [exact V|]. split; [apply binary_round_nn|]. split; reflexivity.
Qed.

(** ** The pulse-width formula is monotone *)

Lemma clamp_zv a :
  F32.valid a = true -> F32.is_nan a = false ->
  F32.zv (Servo.clamp_angle a) = Z.max 0 (Z.min (F32.zv a) (F32.zv F32.c180)) /\
  F32.valid (Servo.clamp_angle a) = true /\ F32.nn (Servo.clamp_angle a) = true /\
  F32.is_finite (Servo.clamp_angle a) = true.
Proof.
  intros Va Na. unfold Servo.clamp_angle, F32.ltb.
  rewrite (SFltb_zv a F32.zero Va eq_refl Na eq_refl).
  rewrite (SFltb_zv F32.c180 a eq_refl Va eq_refl Na).
  assert (0 < F32.zv F32.c180 < 2 ^ 277) as B by (split; reflexivity).
  change (F32.zv F32.zero) with 0.
  destruct (F32.zv a <? 0) eqn:E0.
  - apply Z.ltb_lt in E0. split; [change (F32.zv F32.zero) with 0; lia|].
    repeat split; reflexivity.
  - apply Z.ltb_ge in E0. destruct (F32.zv F32.c180 <? F32.zv a) eqn:E1.
    + apply Z.ltb_lt in E1. split; [lia|]. repeat split; reflexivity.
    + apply Z.ltb_ge in E1. split; [lia|]. split; [exact Va|].
      apply nn_fin_cases; try assumption. lia.
Qed.

(** For well-formed binary32 values with a finite span [max - min] that is
    not negative, the pulse width of the limited angle does not decrease
    when the angle grows. *)
Lemma pulse_width_monotone config a1 a2 :
  F32.valid (min_pulse_width_us config) = true ->
  F32.valid (max_pulse_width_us config) = true ->
  F32.valid a1 = true -> F32.valid a2 = true ->
  F32.leb (min_pulse_width_us config) (max_pulse_width_us config) = true ->
  F32.is_finite (F32.sub (max_pulse_width_us config) (min_pulse_width_us config)) = true ->
  F32.leb a1 a2 = true ->
  F32.leb (Servo.pulse_width config (Servo.clamp_angle a1))
          (Servo.pulse_width config (Servo.clamp_angle a2)) = true.
Proof.
  unfold Servo.pulse_width, F32.leb, F32.add, F32.mul, F32.div, F32.sub, F32.prec, F32.emax.
  set (lo := min_pulse_width_us config). set (hi := max_pulse_width_us config).
  intros Vlo Vhi V1 V2 Lspan Fspan La.
  assert (F32.is_nan a1 = false /\ F32.is_nan a2 = false) as [N1 N2].
  { destruct a1, a2; try discriminate; split; reflexivity. }
  rewrite (SFleb_zv a1 a2 V1 V2 N1 N2) in La. apply Z.leb_le in La.
  destruct (sub_span hi lo Vhi Vlo Lspan Fspan) as (Vd & Nd & Fhi & Flo).
  destruct (clamp_zv a1 V1 N1) as (Z1 & Vc1 & Nc1 & Fc1).
  destruct (clamp_zv a2 V2 N2) as (Z2 & Vc2 & Nc2 & Fc2).
  assert (F32.zv (Servo.clamp_angle a1) <= F32.zv (Servo.clamp_angle a2)) as Lc by lia.
  assert (F32.valid F32.c180 = true) as V180 by reflexivity.
  destruct (div_mono (Servo.clamp_angle a1) (Servo.clamp_angle a2) 11796480 (-16)
              Vc1 Vc2 V180 Nc1 Fc1 Nc2 Fc2 Lc)
    as (Lq & (Vq1 & Nq1) & (Vq2 & Nq2)).
  fold F32.c180 in *.
  assert (forall a, F32.valid a = true -> F32.is_nan a = false ->
            F32.is_finite (SFdiv 24 128 (Servo.clamp_angle a) F32.c180) = true) as Fq.
  { intros a Va Na. destruct (clamp_zv a Va Na) as (Za & Vca & Nca & Fca).
    assert (0 < F32.zv F32.c180) as P180 by reflexivity.
    assert (F32.zv (Servo.clamp_angle a) <= F32.zv F32.c180) as Le by lia.
    destruct (div_mono (Servo.clamp_angle a) F32.c180 11796480 (-16)
                Vca V180 V180 Nca Fca eq_refl eq_refl Le)
      as (Lqa & (Vqa & Nqa) & _).
    fold F32.c180 in *.
    assert (F32.zv (SFdiv 24 128 F32.c180 F32.c180) < 2 ^ 277) as One by reflexivity.
    apply nn_fin_cases; try assumption.
    - destruct (SFdiv 24 128 (Servo.clamp_angle a) F32.c180) as [|[]| |[]];
        try discriminate; reflexivity.
    - pose proof (nn_zv _ Nqa). lia. }
  destruct (mul_mono _ _ (SFsub 24 128 hi lo) Vq1 Vq2 Vd Nq1 (Fq a1 V1 N1) Nq2 (Fq a2 V2 N2)
              Nd Fspan Lq) as (Lp & (Vp1 & Np1) & (Vp2 & Np2)).
  destruct (add_mono lo _ _ Vlo Flo Vp1 Np1 Vp2 Np2 Lp) as (Ls & (Vs1 & Ns1) & (Vs2 & Ns2)).
  rewrite SFleb_zv by assumption. apply Z.leb_le. exact Ls.
Qed.

(** C4, as stated, fails where [max_us - min_us] overflows: between the
    lowest and the highest finite number the span is infinite, the product
    at angle 0 is [0 * infinity], a NaN, and the pulse width at 0 is not
    below the one at 180. *)
Lemma pulse_width_span_overflow_counterexample :
  F32.valid (min_pulse_width_us widest_config) = true /\
  F32.valid (max_pulse_width_us widest_config) = true /\
  F32.leb (min_pulse_width_us widest_config) (max_pulse_width_us widest_config) = true /\
  F32.leb F32.zero F32.c180 = true /\
  Servo.pulse_width widest_config (Servo.clamp_angle F32.zero) = S754_nan /\
  F32.leb (Servo.pulse_width widest_config (Servo.clamp_angle F32.zero))
          (Servo.pulse_width widest_config (Servo.clamp_angle F32.c180)) = false.
Proof. repeat split; vm_compute; reflexivity. Qed.

(** C4, amended. The pulse width [sg90_set_angle] computes, and converts
    into the compare value it writes, is
    [min_us + (angle / 180) * (max_us - min_us)] on the limited angle, each
    operation in binary32. With 500 and 2500 it is 500 at 0, 1500 at 90 and
    2500 at 180 degrees. It does not decrease when the angle grows, provided
    [min_us <= max_us] and the span [max_us - min_us] is finite. *)
Theorem pulse_width_formula :
  (forall plat config a w,
     duty_writes (events (Servo.sg90_set_angle plat config a w)) =
       [(comparator config,
         F32.to_uint32 (fptoui_undef plat)
           (spec_pulse_width_for_angle a (min_pulse_width_us config)
              (max_pulse_width_us config)))]) /\
  (Servo.pulse_width Main.servo_config (Servo.clamp_angle (F32.of_Z 0)) = F32.of_Z 500 /\
   Servo.pulse_width Main.servo_config (Servo.clamp_angle (F32.of_Z 90)) = F32.of_Z 1500 /\
   Servo.pulse_width Main.servo_config (Servo.clamp_angle (F32.of_Z 180)) = F32.of_Z 2500) /\
  (forall plat,
     Servo.duty plat Main.servo_config (F32.of_Z 0) = 500 /\
     Servo.duty plat Main.servo_config (F32.of_Z 90) = 1500 /\
     Servo.duty plat Main.servo_config (F32.of_Z 180) = 2500) /\
  (forall config a1 a2,
     F32.valid (min_pulse_width_us config) = true ->
     F32.valid (max_pulse_width_us config) = true ->
     F32.valid a1 = true -> F32.valid a2 = true ->
     F32.leb (min_pulse_width_us config) (max_pulse_width_us config) = true ->
     F32.is_finite (F32.sub (max_pulse_width_us config) (min_pulse_width_us config)) = true ->
     F32.leb a1 a2 = true ->
     F32.leb (Servo.pulse_width config (Servo.clamp_angle a1))
             (Servo.pulse_width config (Servo.clamp_angle a2)) = true).
Proof.
  split; [|split; [|split]].
  - intros plat config a w. rewrite sg90_set_angle_run. cbv zeta.
    destruct (cmpr_set_ret plat (comparator config) _ =? ESP_OK); reflexivity.
  - repeat split; vm_compute; reflexivity.
  - intros plat. repeat split; vm_compute; reflexivity.
  - exact pulse_width_monotone.
Qed.

(** ** Concrete runs *)

(** C2 at 90 degrees: 1500 us, a second's delay, then home at 500 us. *)
Lemma set_angle_with_reset_run_90 :
  actions (events (Servo.sg90_set_angle_with_reset reference_platform live_servo_config
                     (F32.of_Z 90) 1000 ready_world)) =
    [EvSetCompare 3 1500 ESP_OK; EvDelay 1000; EvSetCompare 3 500 ESP_OK] /\
  compare_value
    {| compare_value := fun h => if h =? 3 then 500 else if h =? 3 then 1500
                                 else compare_value ready_world h;
       server_state := server_state ready_world;
       g_servo_config := g_servo_config ready_world |} 3 = 500 /\
  ESP_OK = ESP_OK.
Proof.
  exact (set_angle_with_reset_ends_at_home reference_platform live_servo_config
           (F32.of_Z 90) 1000 ready_world ESP_OK _ eq_refl).
Defined.

(** C7 for the command "5". *)
Lemma digit_5_response :
  sends (events (Main.command_handler reference_platform "5" 7 ready_world)) =
    [(7, "OK: Command 5 -> Angle 90° (auto reset in 1s)" ++ newline)%string].
Proof.
  exact (digit_command_response reference_platform live_servo_config "5" 7 ready_world _
           eq_refl (proj1 (Z.leb_le 0 7) eq_refl) eq_refl eq_refl).
Defined.

(** C8 for the command "5". *)
Lemma digit_5_uninitialized :
  sends (events (Main.command_handler reference_platform "5" 7 unconfigured_world)) =
    [(7, "ERROR: Servo not initialized" ++ newline)%string] /\
  duty_writes (events (Main.command_handler reference_platform "5" 7 unconfigured_world)) = [] /\
  actions (events (Main.command_handler reference_platform "5" 7 unconfigured_world)) =
    [EvSend 7 spec_error_response 29] /\
  result (Main.command_handler reference_platform "5" 7 unconfigured_world) =
    Ret tt unconfigured_world.
Proof.
  exact (digit_command_uninitialized reference_platform "5" 7 unconfigured_world
           eq_refl (proj1 (Z.leb_le 0 7) eq_refl) eq_refl).
Defined.

(** C9 when the port is taken: [bind] fails on the created socket 3. *)
Lemma init_bind_failure :
  exists w',
    result (TcpServer.tcp_server_init
              {| TcpServer.socket_ret := 3; TcpServer.setsockopt_ret := 0;
                 TcpServer.bind_ret := -1; TcpServer.listen_ret := 0 |}
              8080 unconfigured_world) = Ret ESP_FAIL w' /\
    server_fd (server_state w') = -1.
Proof.
  destruct (tcp_server_init_failure
              {| TcpServer.socket_ret := 3; TcpServer.setsockopt_ret := 0;
                 TcpServer.bind_ret := -1; TcpServer.listen_ret := 0 |}
              8080 pdPASS unconfigured_world
              (or_intror (or_introl (proj1 (Z.ltb_lt (-1) 0) eq_refl))))
    as (w' & Hr & _ & _ & Hfd & _).
  exists w'. split; [exact Hr|]. apply Hfd. apply (Z.leb_le 0 3). reflexivity.
Defined.

(** An angle of 200 degrees is limited to 180. *)
Lemma set_angle_clamps_200 :
  Servo.clamp_angle (F32.of_Z 200) = F32.c180 /\
  duty_writes (events (Servo.sg90_set_angle reference_platform live_servo_config
                         (F32.of_Z 200) ready_world)) = [(3, 2500)].
Proof.
  destruct (set_angle_clamps reference_platform live_servo_config (F32.of_Z 200)
              ready_world eq_refl) as (_ & _ & H180 & _ & Hd).
  split; [apply H180; reflexivity|exact Hd].
Defined.

(** C5 for a connection that delivers "a7\n" to the listener task of a
    ready system: one warning, for "a"; one command, digit 7, to 1900 us
    and back to 500 us; one response. *)
Lemma payload_a7_newline :
  actions (events (Main.tcp_server_task reference_platform
                     [TcpServer.InAccept 7 0 (TcpServer.RecvData ["a"; "7"; "010"]%char)]
                     ready_world)) =
    [EvAccept 3 7; EvRecv 7 63 3;
     EvSetCompare 3 1900 ESP_OK; EvDelay 1000; EvSetCompare 3 500 ESP_OK;
     EvSend 7 (spec_ok_response "7" 126) 48; EvClose 7; EvDelay 10] /\
  sends (events (Main.tcp_server_task reference_platform
                   [TcpServer.InAccept 7 0 (TcpServer.RecvData ["a"; "7"; "010"]%char)]
                   ready_world)) =
    [(7, "OK: Command 7 -> Angle 126° (auto reset in 1s)" ++ newline)%string] /\
  duty_writes (events (Main.tcp_server_task reference_platform
                         [TcpServer.InAccept 7 0 (TcpServer.RecvData ["a"; "7"; "010"]%char)]
                         ready_world)) =
    [(3, 1900); (3, 500)] /\
  warnings (events (Main.tcp_server_task reference_platform
                      [TcpServer.InAccept 7 0 (TcpServer.RecvData ["a"; "7"; "010"]%char)]
                      ready_world)) = ["a"%char].
Proof.
  split; [vm_compute; reflexivity|].
  destruct (listener_dispatches_digits_only reference_platform)
    as (_ & _ & _ & _ & _ & H & _).
  exact (H live_servo_config 7 0 (TcpServer.RecvData ["a"; "7"; "010"]%char) ready_world _
           (proj1 (Z.leb_le 0 7) eq_refl) eq_refl eq_refl eq_refl).
Defined.

(** C6 with two connections queued, "5" then "1": the second accept comes
    after the first connection's delay and close. *)
Lemma two_queued_connections :
  actions (events (Main.tcp_server_task reference_platform
                     [TcpServer.InAccept 7 0 (TcpServer.RecvData ["5"%char]);
                      TcpServer.InAccept 8 0 (TcpServer.RecvData ["1"%char])]
                     ready_world)) =
    [EvAccept 3 7; EvRecv 7 63 1;
     EvSetCompare 3 1500 ESP_OK; EvDelay 1000; EvSetCompare 3 500 ESP_OK;
     EvSend 7 (spec_ok_response "5" 90) 47; EvClose 7; EvDelay 10;
     EvAccept 3 8; EvRecv 8 63 1;
     EvSetCompare 3 700 ESP_OK; EvDelay 1000; EvSetCompare 3 500 ESP_OK;
     EvSend 8 (spec_ok_response "1" 18) 47; EvClose 8; EvDelay 10] /\
  exists s,
    conn_trace Listening
      (events (Main.tcp_server_task reference_platform
                 [TcpServer.InAccept 7 0 (TcpServer.RecvData ["5"%char]);
                  TcpServer.InAccept 8 0 (TcpServer.RecvData ["1"%char])]
                 ready_world)) = Some s.
Proof.
  split; [vm_compute; reflexivity|].
  destruct (serve_loop_one_connection_at_a_time reference_platform
              [TcpServer.InAccept 7 0 (TcpServer.RecvData ["5"%char]);
               TcpServer.InAccept 8 0 (TcpServer.RecvData ["1"%char])]
              ready_world) as [(s & Hs & _) _].
  exists s. exact Hs.
Defined.

(** C4 between 18 and 90 degrees of the program's calibration. *)
Lemma pulse_width_18_below_90 :
  F32.leb (Servo.pulse_width Main.servo_config (Servo.clamp_angle (F32.of_Z 18)))
          (Servo.pulse_width Main.servo_config (Servo.clamp_angle (F32.of_Z 90))) = true.
Proof.
  exact (proj2 (proj2 (proj2 pulse_width_formula)) Main.servo_config
           (F32.of_Z 18) (F32.of_Z 90) eq_refl eq_refl eq_refl eq_refl eq_refl eq_refl eq_refl).
Defined.

(* ===================================================================== *)
(** * Further properties of the listener and the driver *)
(* ===================================================================== *)

Lemma closes_app l1 l2 : closes (l1 ++ l2) = closes l1 ++ closes l2.
Proof. unfold closes. apply flat_map_app. Qed.

Lemma delays_app l1 l2 : delays (l1 ++ l2) = delays l1 ++ delays l2.
Proof. unfold delays. apply flat_map_app. Qed.


Lemma closes_actions l : closes (actions l) = closes l.
Proof.
  unfold closes, actions. induction l as [|e l IH]; [reflexivity|].
  destruct e; cbn; rewrite IH; reflexivity.
Qed.

Lemma delays_actions l : delays (actions l) = delays l.
Proof.
  unfold delays, actions. induction l as [|e l IH]; [reflexivity|].
  destruct e; cbn; rewrite IH; reflexivity.
Qed.

(** ** The listener's interface *)

(** X1. When [socket], [bind] and [listen] succeed, [tcp_server_init]
    returns [ESP_OK] whatever [setsockopt] answered: it has made exactly
    those four calls, in that order, binding the requested port, or 8080
    when the argument is 0, with a backlog of 5; it keeps the descriptor,
    leaves [running] and the callback as they were, and
    [tcp_server_get_port] then reports the port bound. *)
Theorem tcp_server_init_listens env port0 w :
  0 <= TcpServer.socket_ret env -> 0 <= TcpServer.bind_ret env ->
  0 <= TcpServer.listen_ret env ->
  exists w',
    result (TcpServer.tcp_server_init env port0 w) = Ret ESP_OK w' /\
    actions (events (TcpServer.tcp_server_init env port0 w)) =
      [EvSocket (TcpServer.socket_ret env);
       EvSetsockopt (TcpServer.socket_ret env) (TcpServer.setsockopt_ret env);
       EvBind (TcpServer.socket_ret env) (if port0 =? 0 then 8080 else port0)
              (TcpServer.bind_ret env);
       EvListen (TcpServer.socket_ret env) 5 (TcpServer.listen_ret env)] /\
    server_fd (server_state w') = TcpServer.socket_ret env /\
    running (server_state w') = running (server_state w) /\
    callback (server_state w') = callback (server_state w) /\
    result (TcpServer.tcp_server_get_port w') =
      Ret (if port0 =? 0 then 8080 else port0) w'.
Proof.
  intros Hs Hb Hl. apply Z.ltb_ge in Hs, Hb, Hl.
  unfold TcpServer.tcp_server_init.
  unfold bind, esp_log, emit, ret, TcpServer.set_port, TcpServer.set_server_fd,
    TcpServer.set_server_state.
  rewrite Hs, Hb, Hl.
  destruct (TcpServer.setsockopt_ret env <? 0);
    cbn; eexists; repeat split; reflexivity.
Qed.

(** X1 when [setsockopt] fails and the port argument is 0. *)
Lemma tcp_server_init_on_free_port :
  exists w',
    result (TcpServer.tcp_server_init
              {| TcpServer.socket_ret := 3; TcpServer.setsockopt_ret := -1;
                 TcpServer.bind_ret := 0; TcpServer.listen_ret := 0 |}
              0 unconfigured_world) = Ret ESP_OK w' /\
    result (TcpServer.tcp_server_get_port w') = Ret 8080 w'.
Proof.
  destruct (tcp_server_init_listens
              {| TcpServer.socket_ret := 3; TcpServer.setsockopt_ret := -1;
                 TcpServer.bind_ret := 0; TcpServer.listen_ret := 0 |}
              0 unconfigured_world
              (proj1 (Z.leb_le 0 3) eq_refl) (proj1 (Z.leb_le 0 0) eq_refl)
              (proj1 (Z.leb_le 0 0) eq_refl))
    as (w' & Hr & _ & _ & _ & _ & Hp).
  exists w'. split; [exact Hr|exact Hp].
Defined.

(** X2. [tcp_server_init] always returns, with [ESP_OK] or [ESP_FAIL], and
    [ESP_OK] exactly when it leaves a descriptor that is not negative. The
    port is recorded before the socket is created: [tcp_server_get_port]
    reports the requested port (8080 for 0) after a failed initialisation
    too. The servo's registers and configuration are not touched. *)
Theorem tcp_server_init_records_port env port0 w :
  exists r w',
    result (TcpServer.tcp_server_init env port0 w) = Ret r w' /\
    (r = ESP_OK \/ r = ESP_FAIL) /\
    (r = ESP_OK <-> 0 <= server_fd (server_state w')) /\
    result (TcpServer.tcp_server_get_port w') =
      Ret (if port0 =? 0 then 8080 else port0) w' /\
    compare_value w' = compare_value w /\
    g_servo_config w' = g_servo_config w.
Proof.
  pose proof (tcp_server_init_run env port0 w) as R. cbv zeta in R.
  destruct (TcpServer.socket_ret env <? 0) eqn:Es;
    [|destruct (TcpServer.bind_ret env <? 0) eqn:Eb;
      [|destruct (TcpServer.listen_ret env <? 0) eqn:El]];
    destruct R as (Rr & _); rewrite Rr;
    try apply Z.ltb_lt in Es; try apply Z.ltb_ge in Es.
  - exists ESP_FAIL. eexists. split; [reflexivity|]. cbn [server_state server_fd].
    split; [auto|]. split; [|repeat split; reflexivity].
    split; [discriminate|lia].
  - exists ESP_FAIL. eexists. split; [reflexivity|]. cbn [server_state server_fd].
    split; [auto|]. split; [|repeat split; reflexivity].
    split; [discriminate|lia].
  - exists ESP_FAIL. eexists. split; [reflexivity|]. cbn [server_state server_fd].
    split; [auto|]. split; [|repeat split; reflexivity].
    split; [discriminate|lia].
  - exists ESP_OK. eexists. split; [reflexivity|]. cbn [server_state server_fd].
    split; [auto|]. split; [|repeat split; reflexivity].
    split; [intros _; exact Es|reflexivity].
Qed.

(** The run of [tcp_server_start]. *)
Lemma tcp_server_start_run rc w :
  TcpServer.tcp_server_start rc w =
    if server_fd (server_state w) <? 0 then
      ([EvLog LogE TcpServer.TAG MsgNotInitialized], Ret ESP_ERR_INVALID_STATE w)
    else if running (server_state w) then
      ([EvLog LogW TcpServer.TAG MsgAlreadyRunning], Ret ESP_OK w)
    else if rc =? pdPASS then
      ([EvLog LogI TcpServer.TAG MsgStarting; EvTaskCreate "tcp_server" rc], Ret ESP_OK w)
    else
      ([EvLog LogI TcpServer.TAG MsgStarting; EvTaskCreate "tcp_server" rc;
        EvLog LogE TcpServer.TAG MsgTaskCreateFailed], Ret ESP_FAIL w).
Proof.
  unfold TcpServer.tcp_server_start, TcpServer.get_server_state, bind, esp_log, emit, ret.
  destruct (server_fd (server_state w) <? 0); [reflexivity|].
  destruct (running (server_state w)); [reflexivity|].
  destruct (rc =? pdPASS); reflexivity.
Qed.

(** X3. [tcp_server_start] does not change [server_state], and [running]
    is set by the task itself: on an initialised server that is not yet
    running, a call creates the task "tcp_server" and returns [ESP_OK] if
    [xTaskCreate] returned [pdPASS], [ESP_FAIL] otherwise; a second call
    made before the task has run creates a second task; once the task has
    started, a call returns [ESP_OK] and creates none. *)
Theorem tcp_server_start_twice invoke rc1 rc2 w :
  0 <= server_fd (server_state w) ->
  running (server_state w) = false ->
  result (TcpServer.tcp_server_start rc1 w) =
    Ret (if rc1 =? pdPASS then ESP_OK else ESP_FAIL) w /\
  task_creations
    (events ((TcpServer.tcp_server_start rc1 ;; TcpServer.tcp_server_start rc2) w)) =
    ["tcp_server"; "tcp_server"]%string /\
  exists w1,
    result (TcpServer.tcp_server_task invoke [] w) = Ret tt w1 /\
    result (TcpServer.tcp_server_start rc2 w1) = Ret ESP_OK w1 /\
    task_creations (events (TcpServer.tcp_server_start rc2 w1)) = [].
Proof.
  intros Hfd Hrun. apply Z.ltb_ge in Hfd.
  pose proof (tcp_server_start_run rc1 w) as R1. rewrite Hfd, Hrun in R1.
  pose proof (tcp_server_start_run rc2 w) as R2. rewrite Hfd, Hrun in R2.
  split; [|split].
  - rewrite R1. destruct (rc1 =? pdPASS); reflexivity.
  - rewrite events_bind, R1.
    destruct (rc1 =? pdPASS); cbn [result snd events fst]; rewrite R2;
      destruct (rc2 =? pdPASS); reflexivity.
  - eexists. split; [reflexivity|].
    rewrite tcp_server_start_run. cbn [server_state server_fd running].
    rewrite Hfd. split; reflexivity.
Qed.

(** X3 on the ready system: two tasks. *)
Lemma start_called_twice :
  task_creations
    (events ((TcpServer.tcp_server_start pdPASS ;; TcpServer.tcp_server_start pdPASS)
               ready_world)) = ["tcp_server"; "tcp_server"]%string.
Proof.
  exact (proj1 (proj2 (tcp_server_start_twice (Main.invoke reference_platform)
                         pdPASS pdPASS ready_world
                         (proj1 (Z.leb_le 0 3) eq_refl) eq_refl))).
Defined.

(** The run of [tcp_server_stop]. *)
Lemma tcp_server_stop_run w :
  let fd := server_fd (server_state w) in
  TcpServer.tcp_server_stop w =
    (EvLog LogI TcpServer.TAG MsgStopping ::
     (if 0 <=? fd then [EvClose fd] else []) ++ [EvLog LogI TcpServer.TAG MsgStopped],
     Ret tt {| compare_value := compare_value w;
               server_state := {| server_fd := if 0 <=? fd then -1 else fd;
                                  port := port (server_state w);
                                  running := false;
                                  callback := callback (server_state w) |};
               g_servo_config := g_servo_config w |}).
Proof.
  cbv zeta. unfold TcpServer.tcp_server_stop, TcpServer.get_server_state,
    TcpServer.set_running, TcpServer.set_server_fd, TcpServer.set_server_state,
    bind, esp_log, emit, ret.
  cbn [server_state server_fd].
  destruct (0 <=? server_fd (server_state w)); reflexivity.
Qed.

(** X4. [tcp_server_stop] always returns and leaves the server stopped:
    [running] is false, the descriptor is negative, [tcp_server_is_running]
    answers false and [tcp_server_start] is refused with
    [ESP_ERR_INVALID_STATE] without creating a task. The listening socket
    is closed exactly when one was open; port, callback and servo state are
    kept; stopping again closes nothing and changes nothing. *)
Theorem tcp_server_stop_shuts_down w :
  exists w',
    result (TcpServer.tcp_server_stop w) = Ret tt w' /\
    closes (events (TcpServer.tcp_server_stop w)) =
      (if 0 <=? server_fd (server_state w) then [server_fd (server_state w)] else []) /\
    running (server_state w') = false /\
    server_fd (server_state w') < 0 /\
    port (server_state w') = port (server_state w) /\
    callback (server_state w') = callback (server_state w) /\
    compare_value w' = compare_value w /\
    g_servo_config w' = g_servo_config w /\
    result (TcpServer.tcp_server_is_running w') = Ret false w' /\
    (forall rc,
       result (TcpServer.tcp_server_start rc w') = Ret ESP_ERR_INVALID_STATE w' /\
       task_creations (events (TcpServer.tcp_server_start rc w')) = []) /\
    result (TcpServer.tcp_server_stop w') = Ret tt w' /\
    closes (events (TcpServer.tcp_server_stop w')) = [].
Proof.
  pose proof (tcp_server_stop_run w) as R. cbv zeta in R.
  set (w' := {| compare_value := compare_value w;
                server_state :=
                  {| server_fd := if 0 <=? server_fd (server_state w) then -1
                                  else server_fd (server_state w);
                     port := port (server_state w);
                     running := false;
                     callback := callback (server_state w) |};
                g_servo_config := g_servo_config w |}) in *.
  assert (server_fd (server_state w') < 0) as Hneg.
  { cbn. destruct (0 <=? server_fd (server_state w)) eqn:E; [lia|].
    apply Z.leb_gt in E. exact E. }
  assert ((0 <=? server_fd (server_state w')) = false) as Hle by (apply Z.leb_gt; exact Hneg).
  assert ((server_fd (server_state w') <? 0) = true) as Hlt by (apply Z.ltb_lt; exact Hneg).
  exists w'. rewrite R. split; [reflexivity|]. split.
  { cbn [events fst]. destruct (0 <=? server_fd (server_state w)); reflexivity. }
  split; [reflexivity|]. split; [exact Hneg|].
  split; [reflexivity|]. split; [reflexivity|]. split; [reflexivity|].
  split; [reflexivity|]. split.
  { unfold TcpServer.tcp_server_is_running, TcpServer.get_server_state, bind, ret.
    cbn [result snd]. rewrite Hle. reflexivity. }
  split.
  { intros rc. rewrite tcp_server_start_run, Hlt. split; reflexivity. }
  pose proof (tcp_server_stop_run w') as R'. cbv zeta in R'. rewrite Hle in R'.
  rewrite R'. split; reflexivity.
Qed.

(** X5. After a successful [tcp_server_init] and [tcp_server_start],
    [tcp_server_is_running] still answers false: it answers true only from
    the moment the created task has set [running]. *)
Theorem is_running_needs_the_task invoke env port0 rc w :
  0 <= TcpServer.socket_ret env -> 0 <= TcpServer.bind_ret env ->
  0 <= TcpServer.listen_ret env ->
  running (server_state w) = false ->
  exists w1 w2,
    result ((TcpServer.tcp_server_init env port0 ;; TcpServer.tcp_server_start rc) w) =
      Ret (if rc =? pdPASS then ESP_OK else ESP_FAIL) w1 /\
    result (TcpServer.tcp_server_is_running w1) = Ret false w1 /\
    result (TcpServer.tcp_server_task invoke [] w1) = Ret tt w2 /\
    result (TcpServer.tcp_server_is_running w2) = Ret true w2.
Proof.
  intros Hs Hb Hl Hrun.
  destruct (tcp_server_init_success env port0 w Hs Hb Hl) as (w1 & Hr & Hfd & _).
  pose proof (tcp_server_init_run env port0 w) as R. cbv zeta in R.
  pose proof Hs as Hs'. pose proof Hb as Hb'. pose proof Hl as Hl'.
  apply Z.ltb_ge in Hs', Hb', Hl'. rewrite Hs', Hb', Hl' in R. destruct R as (R & _).
  rewrite R in Hr. inversion Hr as [Hw1]. clear Hr.
  assert (running (server_state w1) = false) as Hrun1 by (rewrite <- Hw1; exact Hrun).
  assert ((server_fd (server_state w1) <? 0) = false) as Hfd1
    by (apply Z.ltb_ge; rewrite Hfd; exact Hs).
  assert ((0 <=? server_fd (server_state w1)) = true) as Hfd2
    by (apply Z.leb_le; rewrite Hfd; exact Hs).
  exists w1. eexists. split; [|split; [|split]].
  - rewrite result_bind, R, Hw1, tcp_server_start_run, Hfd1, Hrun1.
    destruct (rc =? pdPASS); reflexivity.
  - unfold TcpServer.tcp_server_is_running, TcpServer.get_server_state, bind, ret.
    cbn [result snd]. rewrite Hrun1. reflexivity.
  - reflexivity.
  - unfold TcpServer.tcp_server_is_running, TcpServer.get_server_state, bind, ret.
    cbn [result snd server_state server_fd running]. rewrite Hfd2. reflexivity.
Qed.

(** X5 from a successful start on port 8080. *)
Lemma is_running_after_start :
  exists w1 w2,
    result ((TcpServer.tcp_server_init
               {| TcpServer.socket_ret := 3; TcpServer.setsockopt_ret := 0;
                  TcpServer.bind_ret := 0; TcpServer.listen_ret := 0 |} 8080 ;;
             TcpServer.tcp_server_start pdPASS) unconfigured_world) = Ret ESP_OK w1 /\
    result (TcpServer.tcp_server_is_running w1) = Ret false w1 /\
    result (TcpServer.tcp_server_task (Main.invoke reference_platform) [] w1) = Ret tt w2 /\
    result (TcpServer.tcp_server_is_running w2) = Ret true w2.
Proof.
  exact (is_running_needs_the_task (Main.invoke reference_platform)
           {| TcpServer.socket_ret := 3; TcpServer.setsockopt_ret := 0;
              TcpServer.bind_ret := 0; TcpServer.listen_ret := 0 |} 8080 pdPASS
           unconfigured_world
           (proj1 (Z.leb_le 0 3) eq_refl) (proj1 (Z.leb_le 0 0) eq_refl)
           (proj1 (Z.leb_le 0 0) eq_refl) eq_refl).
Defined.

(** ** The command handler and the network *)

(** X6. [command_handler] ignores what [send] returns: on two platforms
    that differ only in the results of [send], it ends in the same state
    (or aborts in both), writes the same compare values, waits the same
    delays, and writes to the same descriptors. *)
Theorem command_handler_ignores_send_result undef cmpr send1 send2 c fd w :
  let plat1 := {| fptoui_undef := undef; cmpr_set_ret := cmpr; send_ret := send1 |} in
  let plat2 := {| fptoui_undef := undef; cmpr_set_ret := cmpr; send_ret := send2 |} in
  result (Main.command_handler plat1 c fd w) = result (Main.command_handler plat2 c fd w) /\
  duty_writes (events (Main.command_handler plat1 c fd w)) =
    duty_writes (events (Main.command_handler plat2 c fd w)) /\
  delays (events (Main.command_handler plat1 c fd w)) =
    delays (events (Main.command_handler plat2 c fd w)) /\
  map fst (sends (events (Main.command_handler plat1 c fd w))) =
    map fst (sends (events (Main.command_handler plat2 c fd w))).
Proof.
  cbv zeta. unfold Main.command_handler.
  destruct ((char_code c <? char_code "0") || (char_code "9" <? char_code c));
    [repeat split; reflexivity|].
  mstep.
  assert (forall config a d w0,
    Servo.sg90_set_angle_with_reset
      {| fptoui_undef := undef; cmpr_set_ret := cmpr; send_ret := send1 |} config a d w0 =
    Servo.sg90_set_angle_with_reset
      {| fptoui_undef := undef; cmpr_set_ret := cmpr; send_ret := send2 |} config a d w0)
    as Same by reflexivity.
  assert (forall s w0,
    let r1 := TcpServer.tcp_server_send_response
                {| fptoui_undef := undef; cmpr_set_ret := cmpr; send_ret := send1 |}
                fd (Some s) w0 in
    let r2 := TcpServer.tcp_server_send_response
                {| fptoui_undef := undef; cmpr_set_ret := cmpr; send_ret := send2 |}
                fd (Some s) w0 in
    (exists n1, result r1 = Ret n1 w0) /\ (exists n2, result r2 = Ret n2 w0) /\
    duty_writes (events r1) = [] /\ duty_writes (events r2) = [] /\
    delays (events r1) = [] /\ delays (events r2) = [] /\
    map fst (sends (events r1)) = map fst (sends (events r2))) as Send.
  { intros s w0. cbv zeta. unfold TcpServer.tcp_server_send_response.
    destruct (fd <? 0); [cbn; repeat split; eauto|].
    mstep. cbn [send_ret].
    destruct (send1 fd (c_str s) <? 0), (send2 fd (c_str s) <? 0); mstep; cbn;
      repeat split; eauto. }
  destruct (g_servo_config w) as [config|].
  - mstep. rewrite !duty_writes_app, !delays_app, !sends_app, !map_app.
    rewrite Same.
    destruct (result (Servo.sg90_set_angle_with_reset _ config _ 1000 w)) as [r1 w1|];
      [|repeat split; reflexivity].
    mstep. rewrite !duty_writes_app, !delays_app, !sends_app, !map_app.
    destruct (Send (snprintf 64
                ("OK: Command " ++ fmt_c c ++ " -> Angle " ++
                 fmt_d (Main.angle_for_digit (char_code c - char_code "0")) ++
                 degree ++ " (auto reset in 1s)" ++ newline)) w1)
      as ((n1 & R1) & (n2 & R2) & D1 & D2 & L1 & L2 & S).
    rewrite R1, R2, D1, D2, L1, L2, S. repeat split; reflexivity.
  - mstep. rewrite !duty_writes_app, !delays_app, !sends_app, !map_app.
    destruct (Send (snprintf 64 ("ERROR: Servo not initialized" ++ newline)) w)
      as ((n1 & R1) & (n2 & R2) & D1 & D2 & L1 & L2 & S).
    rewrite R1, R2, D1, D2, L1, L2, S. repeat split; reflexivity.
Qed.

(** X16. With the servo configured, a digit command aborts the process
    exactly when the SDK rejects one of its two compare values (the
    target's or the home position's); then no response is sent and nothing
    is closed, and when it is the target's value that is rejected there has
    been no delay either. *)
Theorem rejected_compare_value_aborts plat config c fd w :
  TcpServer.is_digit c = true ->
  g_servo_config w = Some config ->
  let angle := Main.angle_for_digit (char_code c - char_code "0") in
  let accepted t := cmpr_set_ret plat (comparator config) t =? ESP_OK in
  (result (Main.command_handler plat c fd w) = Abort <->
   accepted (Servo.duty plat config (F32.of_Z angle)) &&
   accepted (Servo.duty plat config F32.zero) = false) /\
  (result (Main.command_handler plat c fd w) = Abort ->
   sends (events (Main.command_handler plat c fd w)) = [] /\
   closes (events (Main.command_handler plat c fd w)) = []) /\
  (accepted (Servo.duty plat config (F32.of_Z angle)) = false ->
   delays (events (Main.command_handler plat c fd w)) = []).
Proof.
  intros Hd Hcfg. cbv zeta. unfold Main.command_handler.
  rewrite (is_digit_guard c Hd). mstep. rewrite Hcfg. mstep.
  pose proof (with_reset_run plat config
    (F32.of_Z (Main.angle_for_digit (char_code c - char_code "0"))) 1000 w) as W.
  cbv zeta in W.
  rewrite <- (sends_actions (_ ++ _)), <- (closes_actions (_ ++ _)),
    <- (delays_actions (_ ++ _)), !actions_app.
  destruct (cmpr_set_ret plat (comparator config) _ =? ESP_OK);
    [destruct (cmpr_set_ret plat (comparator config) _ =? ESP_OK)|];
    destruct W as [Wa Wr]; rewrite Wr, Wa; cbn [andb].
  - mstep.
    assert (exists n, result (TcpServer.tcp_server_send_response plat fd
              (Some (snprintf 64
                ("OK: Command " ++ fmt_c c ++ " -> Angle " ++
                 fmt_d (Main.angle_for_digit (char_code c - char_code "0")) ++
                 degree ++ " (auto reset in 1s)" ++ newline)))
              {| compare_value := fun h =>
                   if h =? comparator config then Servo.duty plat config F32.zero
                   else if h =? comparator config
                        then Servo.duty plat config
                               (F32.of_Z (Main.angle_for_digit (char_code c - char_code "0")))
                        else compare_value w h;
                 server_state := server_state w;
                 g_servo_config := g_servo_config w |}) = Ret n
              {| compare_value := fun h =>
                   if h =? comparator config then Servo.duty plat config F32.zero
                   else if h =? comparator config
                        then Servo.duty plat config
                               (F32.of_Z (Main.angle_for_digit (char_code c - char_code "0")))
                        else compare_value w h;
                 server_state := server_state w;
                 g_servo_config := g_servo_config w |}) as [n Hn].
    { unfold TcpServer.tcp_server_send_response.
      destruct (fd <? 0); [eexists; reflexivity|]. mstep.
      destruct (send_ret plat fd _ <? 0); mstep; eexists; reflexivity. }
    rewrite Hn. cbn [result snd ret].
    split; [split; discriminate|]. split; discriminate.
  - split; [split; reflexivity|]. split; [intros _; split; reflexivity|discriminate].
  - split; [split; reflexivity|]. split; intros _; [split|]; reflexivity.
Qed.

(** X16 where the driver rejects compare values above 1000: command "9". *)
Lemma command_over_the_period :
  result (Main.command_handler
            {| fptoui_undef := fun _ => 0;
               cmpr_set_ret := fun _ ticks => if ticks <=? 1000 then ESP_OK else 258;
               send_ret := fun _ data => Z.of_nat (String.length data) |}
            "9" 7 ready_world) = Abort /\
  sends (events (Main.command_handler
            {| fptoui_undef := fun _ => 0;
               cmpr_set_ret := fun _ ticks => if ticks <=? 1000 then ESP_OK else 258;
               send_ret := fun _ data => Z.of_nat (String.length data) |}
            "9" 7 ready_world)) = [].
Proof.
  pose proof (rejected_compare_value_aborts
            {| fptoui_undef := fun _ => 0;
               cmpr_set_ret := fun _ ticks => if ticks <=? 1000 then ESP_OK else 258;
               send_ret := fun _ data => Z.of_nat (String.length data) |}
            live_servo_config "9" 7 ready_world eq_refl eq_refl) as (H1 & H2 & _).
  pose proof (proj2 H1 eq_refl) as A. split; [exact A|exact (proj1 (H2 A))].
Defined.

(** ** One pass of the listener's loop *)

Section LoopPass.
Variable plat : platform.

(** A completed digit command: its actions and the world it leaves. *)
Lemma command_handler_digit_world config c fd w w' :
  TcpServer.is_digit c = true ->
  0 <= fd ->
  g_servo_config w = Some config ->
  result (Main.command_handler plat c fd w) = Ret tt w' ->
  actions (events (Main.command_handler plat c fd w)) = digit_actions plat config fd c /\
  server_state w' = server_state w /\
  g_servo_config w' = g_servo_config w /\
  forall h, compare_value w' h =
            if h =? comparator config then Servo.duty plat config F32.zero
            else compare_value w h.
Proof.
  intros Hd Hfd Hcfg Hret.
  pose proof (command_handler_ok_run plat config c fd w Hd Hfd Hcfg) as R. cbv zeta in R.
  pose proof (with_reset_run plat config
    (F32.of_Z (Main.angle_for_digit (char_code c - char_code "0"))) 1000 w) as W.
  cbv zeta in W.
  destruct (cmpr_set_ret plat (comparator config) _ =? ESP_OK);
    [destruct (cmpr_set_ret plat (comparator config) _ =? ESP_OK)|];
    destruct W as [Wa Wr]; rewrite Wr in R; destruct R as [Ra Rr];
    rewrite Rr in Hret; try discriminate Hret.
  inversion Hret; subst w'. rewrite Ra, Wa. cbn.
  repeat split. intros h. destruct (h =? comparator config); reflexivity.
Qed.

Lemma for_each_digit_actions config fd ds : forall w w',
  Forall (fun c => TcpServer.is_digit c = true) ds ->
  0 <= fd ->
  g_servo_config w = Some config ->
  callback (server_state w) = Some Fn_command_handler ->
  result (for_each ds (dispatch (Main.invoke plat) fd) w) = Ret tt w' ->
  actions (events (for_each ds (dispatch (Main.invoke plat) fd) w)) =
    flat_map (digit_actions plat config fd) ds /\
  server_state w' = server_state w /\
  g_servo_config w' = g_servo_config w /\
  forall h, compare_value w' h =
            if (h =? comparator config) && negb (Nat.eqb (List.length ds) 0)
            then Servo.duty plat config F32.zero
            else compare_value w h.
Proof.
  induction ds as [|c ds IH]; intros w w' Hds Hfd Hcfg Hcb Hret.
  - cbn in Hret. inversion Hret; subst w'. cbn [List.length Nat.eqb negb].
    repeat split. intros h. rewrite andb_false_r. reflexivity.
  - inversion Hds as [|? ? Hc Hds']; subst.
    cbn [for_each] in *. rewrite result_bind in Hret. rewrite events_bind, actions_app.
    rewrite (dispatch_program plat fd c w Hcb) in *.
    destruct (result (Main.command_handler plat c fd w)) as [[] w1|] eqn:E; [|discriminate].
    destruct (command_handler_digit_world config c fd w w1 Hc Hfd Hcfg E)
      as (Ha & Hs & Hg & Hv).
    assert (g_servo_config w1 = Some config) as Hcfg1 by (rewrite Hg; exact Hcfg).
    assert (callback (server_state w1) = Some Fn_command_handler) as Hcb1
      by (rewrite Hs; exact Hcb).
    destruct (IH w1 w' Hds' Hfd Hcfg1 Hcb1 Hret) as (IHa & IHs & IHg & IHv).
    rewrite Ha, IHa. split; [reflexivity|].
    split; [rewrite IHs; exact Hs|]. split; [rewrite IHg; exact Hg|].
    intros h. rewrite IHv, Hv. cbn [List.length Nat.eqb negb]. rewrite andb_true_r.
    destruct (h =? comparator config); [|reflexivity].
    destruct (negb (Nat.eqb (List.length ds) 0)); reflexivity.
Qed.

(** The whole of a completed pass while the program's handler is
    registered and the servo configured. *)
Lemma loop_body_served config accept_ret errno rx w w' :
  g_servo_config w = Some config ->
  callback (server_state w) = Some Fn_command_handler ->
  result (TcpServer.loop_body (Main.invoke plat) accept_ret errno rx w) = Ret tt w' ->
  actions (events (TcpServer.loop_body (Main.invoke plat) accept_ret errno rx w)) =
    EvAccept (server_fd (server_state w)) accept_ret ::
    (if accept_ret <? 0 then [EvDelay 100]
     else EvRecv accept_ret 63 (TcpServer.recv_received rx) ::
          flat_map (digit_actions plat config accept_ret) (digits_served accept_ret rx) ++
          [EvClose accept_ret; EvDelay 10]) /\
  server_state w' = server_state w /\
  g_servo_config w' = g_servo_config w /\
  forall h, compare_value w' h =
            if (h =? comparator config) &&
               negb (Nat.eqb (List.length (digits_served accept_ret rx)) 0)
            then Servo.duty plat config F32.zero
            else compare_value w h.
Proof.
  intros Hcfg Hcb. unfold TcpServer.loop_body, digits_served. mstep.
  destruct (accept_ret <? 0) eqn:Ea.
  - destruct ((errno =? EAGAIN) || (errno =? EWOULDBLOCK)); mstep;
      intros Hret; inversion Hret; subst w'; cbn [List.length Nat.eqb negb];
      (split; [reflexivity|]); repeat split; intros h; rewrite andb_false_r; reflexivity.
  - pose proof Ea as Ea'. apply Z.ltb_ge in Ea'. mstep.
    assert (Forall (fun c => TcpServer.is_digit c = true)
              (filter TcpServer.is_digit (TcpServer.recv_buffer rx))) as Hds.
    { apply Forall_forall. intros c Hin. apply filter_In in Hin. apply Hin. }
    destruct (0 <? TcpServer.recv_received rx) eqn:Er.
    + mstep.
      destruct (process_buffer_digits (Main.invoke plat) (TcpServer.recv_buffer rx)
                  accept_ret w) as [Pr Pa].
      rewrite Pr.
      destruct (result (for_each _ _ w)) as [[] w1|] eqn:E; [|discriminate].
      mstep. intros Hret. inversion Hret; subst w'.
      destruct (for_each_digit_actions config accept_ret _ w w1 Hds Ea' Hcfg Hcb E)
        as (Fa & Fs & Fg & Fv).
      split; [|repeat split; assumption].
      cbn [app]. unfold actions at 1. cbn [filter is_log negb].
      fold (actions (events (TcpServer.process_buffer (Main.invoke plat)
                               (TcpServer.recv_buffer rx) accept_ret w) ++
                     [EvClose accept_ret; EvLog LogI TcpServer.TAG
                                            (MsgConnectionClosed accept_ret); EvDelay 10])).
      rewrite actions_app, Pa, Fa. reflexivity.
    + assert (TcpServer.recv_buffer rx = []) as Hb.
      { destruct rx as [bytes|en]; [|reflexivity].
        unfold TcpServer.recv_received in Er. apply Z.ltb_ge in Er.
        destruct (TcpServer.recv_buffer (TcpServer.RecvData bytes)); [reflexivity|].
        cbn [List.length] in Er. lia. }
      rewrite Hb. cbn [filter flat_map List.length Nat.eqb negb app].
      destruct (TcpServer.recv_received rx =? 0);
        [|destruct (negb (TcpServer.recv_errno rx =? EAGAIN) &&
                    negb (TcpServer.recv_errno rx =? EWOULDBLOCK))];
        mstep; intros Hret; inversion Hret; subst w';
        (split; [reflexivity|]); repeat split; intros h; rewrite andb_false_r; reflexivity.
Qed.

End LoopPass.

Section LoopPassProps.
Variable plat : platform.

Lemma command_handler_closes_none c fd w :
  0 <= fd -> closes (events (Main.command_handler plat c fd w)) = [].
Proof.
  intros Hfd. destruct (TcpServer.is_digit c) eqn:Hd.
  - destruct (g_servo_config w) as [config|] eqn:Hcfg.
    + pose proof (command_handler_ok_run plat config c fd w Hd Hfd Hcfg) as R.
      cbv zeta in R.
      pose proof (with_reset_run plat config
        (F32.of_Z (Main.angle_for_digit (char_code c - char_code "0"))) 1000 w) as W.
      cbv zeta in W.
      destruct (cmpr_set_ret plat (comparator config) _ =? ESP_OK);
        [destruct (cmpr_set_ret plat (comparator config) _ =? ESP_OK)|];
        destruct W as [Wa Wr]; rewrite Wr in R; destruct R as [Ra Rr].
      * rewrite <- closes_actions, Ra, Wa. reflexivity.
      * rewrite Ra. cbn [closes flat_map app]. fold (closes (events
          (Servo.sg90_set_angle_with_reset plat config
             (F32.of_Z (Main.angle_for_digit (char_code c - char_code "0"))) 1000 w))).
        rewrite <- closes_actions, Wa. reflexivity.
      * rewrite Ra. cbn [closes flat_map app]. fold (closes (events
          (Servo.sg90_set_angle_with_reset plat config
             (F32.of_Z (Main.angle_for_digit (char_code c - char_code "0"))) 1000 w))).
        rewrite <- closes_actions, Wa. reflexivity.
    + destruct (command_handler_uninit_run plat c fd w Hd Hfd Hcfg) as (Ha & _).
      rewrite <- closes_actions, Ha. reflexivity.
  - unfold Main.command_handler. rewrite (not_digit_guard c Hd). reflexivity.
Qed.

Lemma process_buffer_closes_none buf fd : forall w,
  0 <= fd ->
  closes (events (TcpServer.process_buffer (Main.invoke plat) buf fd w)) = [].
Proof.
  induction buf as [|c rest IH]; intros w Hfd; [reflexivity|].
  cbn [TcpServer.process_buffer]. rewrite events_bind, closes_app.
  assert (closes
            (events ((if TcpServer.is_digit c
                      then esp_log LogI TcpServer.TAG (MsgValidCommand c) ;;
                           s <- TcpServer.get_server_state ;;
                           match callback s with
                           | Some f => Main.invoke plat f c fd
                           | None => ret tt
                           end
                      else if TcpServer.is_newline c then ret tt
                      else esp_log LogW TcpServer.TAG (MsgInvalidCommand c)) w)) = []) as Hc.
  { destruct (TcpServer.is_digit c).
    - mstep. rewrite !closes_app. cbn [closes flat_map app].
      destruct (callback (server_state w)) as [[]|]; [|reflexivity].
      cbn [Main.invoke]. apply command_handler_closes_none. exact Hfd.
    - destruct (TcpServer.is_newline c); reflexivity. }
  rewrite Hc.
  match goal with |- context [result ?r] => destruct (result r) as [[] w1|] end;
    [apply IH; exact Hfd|reflexivity].
Qed.

(** X8. A pass of the listener's loop closes the descriptor [accept]
    returned, once, and no other; it closes nothing when [accept] failed,
    and nothing when a command aborted the process. *)
Theorem loop_body_closes_what_it_accepted accept_ret errno rx w :
  closes (events (TcpServer.loop_body (Main.invoke plat) accept_ret errno rx w)) =
    match result (TcpServer.loop_body (Main.invoke plat) accept_ret errno rx w) with
    | Ret _ _ => if accept_ret <? 0 then [] else [accept_ret]
    | Abort => []
    end.
Proof.
  unfold TcpServer.loop_body. mstep.
  destruct (accept_ret <? 0) eqn:Ea.
  - destruct ((errno =? EAGAIN) || (errno =? EWOULDBLOCK)); mstep; reflexivity.
  - pose proof Ea as Ea'. apply Z.ltb_ge in Ea'.
    pose proof (process_buffer_closes_none (TcpServer.recv_buffer rx) accept_ret w Ea') as P.
    destruct (0 <? TcpServer.recv_received rx);
      [|destruct (TcpServer.recv_received rx =? 0);
        [|destruct (negb (TcpServer.recv_errno rx =? EAGAIN) &&
                    negb (TcpServer.recv_errno rx =? EWOULDBLOCK))]];
      mstep; try reflexivity.
    cbn [app closes flat_map]. fold (closes (events (TcpServer.process_buffer
      (Main.invoke plat) (TcpServer.recv_buffer rx) accept_ret w) ++
      match result (TcpServer.process_buffer (Main.invoke plat)
                      (TcpServer.recv_buffer rx) accept_ret w) with
      | Ret _ _ => [EvClose accept_ret;
                    EvLog LogI TcpServer.TAG (MsgConnectionClosed accept_ret); EvDelay 10]
      | Abort => []
      end)).
    rewrite closes_app, P.
    destruct (result (TcpServer.process_buffer _ _ _ _)) as [[] w1|]; reflexivity.
Qed.

End LoopPassProps.






Section Connection.
Variable plat : platform.

(** X7. While no callback is registered a pass of the loop still accepts
    the connection, reads it, and closes it after the 10 ms pause of every
    pass (or waits 100 ms after a failed [accept]), but the digits it reads
    are only logged: nothing else happens and the world is unchanged. *)
Theorem no_callback_no_command invoke accept_ret errno rx w :
  callback (server_state w) = None ->
  result (TcpServer.loop_body invoke accept_ret errno rx w) = Ret tt w /\
  actions (events (TcpServer.loop_body invoke accept_ret errno rx w)) =
    EvAccept (server_fd (server_state w)) accept_ret ::
    (if accept_ret <? 0 then [EvDelay 100]
     else [EvRecv accept_ret 63 (TcpServer.recv_received rx);
           EvClose accept_ret; EvDelay 10]).
Proof.
  intros Hcb.
  assert (forall buf, result (TcpServer.process_buffer invoke buf accept_ret w) = Ret tt w /\
                      actions (events (TcpServer.process_buffer invoke buf accept_ret w)) = [])
    as P.
  { induction buf as [|c rest [IHr IHa]]; [split; reflexivity|].
    cbn [TcpServer.process_buffer].
    destruct (TcpServer.is_digit c); [|destruct (TcpServer.is_newline c)];
      mstep; rewrite ?Hcb; mstep; rewrite IHr; rewrite ?actions_app, IHa; split; reflexivity. }
  unfold TcpServer.loop_body. mstep.
  destruct (accept_ret <? 0).
  - destruct ((errno =? EAGAIN) || (errno =? EWOULDBLOCK)); mstep; split; reflexivity.
  - destruct (P (TcpServer.recv_buffer rx)) as [Pr Pa].
    destruct (0 <? TcpServer.recv_received rx);
      [|destruct (TcpServer.recv_received rx =? 0);
        [|destruct (negb (TcpServer.recv_errno rx =? EAGAIN) &&
                    negb (TcpServer.recv_errno rx =? EWOULDBLOCK))]];
      mstep; rewrite ?Pr; mstep; try (split; reflexivity).
    split; [reflexivity|].
    cbn [app]. unfold actions at 1. cbn [filter is_log negb].
    fold (actions (events (TcpServer.process_buffer invoke (TcpServer.recv_buffer rx)
                             accept_ret w) ++
                   [EvClose accept_ret; EvLog LogI TcpServer.TAG
                                          (MsgConnectionClosed accept_ret); EvDelay 10])).
    rewrite actions_app, Pa. reflexivity.
Qed.

(** X9. With [command_handler] registered and the servo configured, a
    completed pass of the loop consists of: the accept; after a failed
    accept a 100 ms wait; otherwise one read of at most 63 bytes, then for
    each digit byte read, in order, the target's compare value, a 1000 ms
    wait, the home compare value and the response, then the close and a
    10 ms wait. *)
Theorem loop_pass_actions config accept_ret errno rx w w' :
  g_servo_config w = Some config ->
  callback (server_state w) = Some Fn_command_handler ->
  result (TcpServer.loop_body (Main.invoke plat) accept_ret errno rx w) = Ret tt w' ->
  actions (events (TcpServer.loop_body (Main.invoke plat) accept_ret errno rx w)) =
    EvAccept (server_fd (server_state w)) accept_ret ::
    (if accept_ret <? 0 then [EvDelay 100]
     else EvRecv accept_ret 63 (TcpServer.recv_received rx) ::
          flat_map (digit_actions plat config accept_ret) (digits_served accept_ret rx) ++
          [EvClose accept_ret; EvDelay 10]).
Proof.
  intros Hcfg Hcb Hret.
  exact (proj1 (loop_body_served plat config accept_ret errno rx w w' Hcfg Hcb Hret)).
Qed.


(** X11. With [command_handler] registered and the servo configured, a
    completed pass of the loop changes neither [server_state] nor
    [g_servo_config], nor any compare register but the servo's; and the
    servo's register holds the home value if a digit was served, its
    previous value otherwise. *)
Theorem loop_pass_leaves_servo_home config accept_ret errno rx w w' :
  g_servo_config w = Some config ->
  callback (server_state w) = Some Fn_command_handler ->
  result (TcpServer.loop_body (Main.invoke plat) accept_ret errno rx w) = Ret tt w' ->
  server_state w' = server_state w /\
  g_servo_config w' = g_servo_config w /\
  (forall h, h <> comparator config -> compare_value w' h = compare_value w h) /\
  compare_value w' (comparator config) =
    match digits_served accept_ret rx with
    | [] => compare_value w (comparator config)
    | _ :: _ => Servo.duty plat config F32.zero
    end.
Proof.
  intros Hcfg Hcb Hret.
  destruct (loop_body_served plat config accept_ret errno rx w w' Hcfg Hcb Hret)
    as (_ & Hs & Hg & Hv).
  split; [exact Hs|]. split; [exact Hg|]. split.
  - intros h Hh. rewrite Hv. apply Z.eqb_neq in Hh. rewrite Hh. reflexivity.
  - rewrite Hv, Z.eqb_refl. destruct (digits_served accept_ret rx); reflexivity.
Qed.

End Connection.

(** ** Stopping the listener *)

Section Stopping.
Variable invoke : command_callback_t -> ascii -> Z -> M unit.



(** X13. A [tcp_server_stop] that runs before the created task's first
    instruction does not stop it: the task sets [running] when it starts,
    whatever it was, and enters its loop, calling [accept] on descriptor
    -1, although [tcp_server_is_running] answered false after the stop. *)
Theorem stop_before_task_start_is_lost accept_ret errno rx w :
  0 <= server_fd (server_state w) ->
  exists w1,
    result (TcpServer.tcp_server_stop w) = Ret tt w1 /\
    running (server_state w1) = false /\
    result (TcpServer.tcp_server_is_running w1) = Ret false w1 /\
    exists rest,
      actions (events (TcpServer.tcp_server_task invoke
                         [TcpServer.InAccept accept_ret errno rx] w1)) =
      EvAccept (-1) accept_ret :: rest.
Proof.
  intros Hfd. apply Z.leb_le in Hfd.
  pose proof (tcp_server_stop_run w) as R. cbv zeta in R. rewrite Hfd in R.
  eexists. rewrite R. split; [reflexivity|]. split; [reflexivity|]. split; [reflexivity|].
  unfold TcpServer.tcp_server_task. mstep. cbn [TcpServer.serve_loop]. mstep.
  cbn [server_state running]. unfold TcpServer.loop_body. mstep.
  cbn [server_state server_fd app]. eexists. reflexivity.
Qed.

End Stopping.

(** ** Compare values of the program's calibration *)

Lemma clamp_angle_idem a : Servo.clamp_angle (Servo.clamp_angle a) = Servo.clamp_angle a.
Proof.
  destruct (clamp_angle_cases a) as [[_ E]|[(_ & _ & E)|(H0 & H180 & E)]]; rewrite E.
  - reflexivity.
  - reflexivity.
  - unfold Servo.clamp_angle. rewrite H0, H180. reflexivity.
Qed.

(** The order of pulse widths, on their values. *)
Lemma pulse_width_order config a1 a2 :
  F32.valid (min_pulse_width_us config) = true ->
  F32.valid (max_pulse_width_us config) = true ->
  F32.valid a1 = true -> F32.valid a2 = true ->
  F32.leb (min_pulse_width_us config) (max_pulse_width_us config) = true ->
  F32.is_finite (F32.sub (max_pulse_width_us config) (min_pulse_width_us config)) = true ->
  F32.leb a1 a2 = true ->
  let p1 := Servo.pulse_width config (Servo.clamp_angle a1) in
  let p2 := Servo.pulse_width config (Servo.clamp_angle a2) in
  F32.zv p1 <= F32.zv p2 /\
  (F32.valid p1 = true /\ F32.is_nan p1 = false) /\
  (F32.valid p2 = true /\ F32.is_nan p2 = false).
Proof.
  cbv zeta.
  unfold Servo.pulse_width, F32.leb, F32.add, F32.mul, F32.div, F32.sub, F32.prec, F32.emax.
  set (lo := min_pulse_width_us config). set (hi := max_pulse_width_us config).
  intros Vlo Vhi V1 V2 Lspan Fspan La.
  assert (F32.is_nan a1 = false /\ F32.is_nan a2 = false) as [N1 N2].
  { destruct a1, a2; try discriminate; split; reflexivity. }
  rewrite (SFleb_zv a1 a2 V1 V2 N1 N2) in La. apply Z.leb_le in La.
  destruct (sub_span hi lo Vhi Vlo Lspan Fspan) as (Vd & Nd & Fhi & Flo).
  destruct (clamp_zv a1 V1 N1) as (Z1 & Vc1 & Nc1 & Fc1).
  destruct (clamp_zv a2 V2 N2) as (Z2 & Vc2 & Nc2 & Fc2).
  assert (F32.zv (Servo.clamp_angle a1) <= F32.zv (Servo.clamp_angle a2)) as Lc by lia.
  assert (F32.valid F32.c180 = true) as V180 by reflexivity.
  destruct (div_mono (Servo.clamp_angle a1) (Servo.clamp_angle a2) 11796480 (-16)
              Vc1 Vc2 V180 Nc1 Fc1 Nc2 Fc2 Lc)
    as (Lq & (Vq1 & Nq1) & (Vq2 & Nq2)).
  fold F32.c180 in *.
  assert (forall a, F32.valid a = true -> F32.is_nan a = false ->
            F32.is_finite (SFdiv 24 128 (Servo.clamp_angle a) F32.c180) = true) as Fq.
  { intros a Va Na. destruct (clamp_zv a Va Na) as (Za & Vca & Nca & Fca).
    assert (0 < F32.zv F32.c180) as P180 by reflexivity.
    assert (F32.zv (Servo.clamp_angle a) <= F32.zv F32.c180) as Le by lia.
    destruct (div_mono (Servo.clamp_angle a) F32.c180 11796480 (-16)
                Vca V180 V180 Nca Fca eq_refl eq_refl Le)
      as (Lqa & (Vqa & Nqa) & _).
    fold F32.c180 in *.
    assert (F32.zv (SFdiv 24 128 F32.c180 F32.c180) < 2 ^ 277) as One by reflexivity.
    apply nn_fin_cases; try assumption.
    - destruct (SFdiv 24 128 (Servo.clamp_angle a) F32.c180) as [|[]| |[]];
        try discriminate; reflexivity.
    - pose proof (nn_zv _ Nqa). lia. }
  destruct (mul_mono _ _ (SFsub 24 128 hi lo) Vq1 Vq2 Vd Nq1 (Fq a1 V1 N1) Nq2 (Fq a2 V2 N2)
              Nd Fspan Lq) as (Lp & (Vp1 & Np1) & (Vp2 & Np2)).
  destruct (add_mono lo _ _ Vlo Flo Vp1 Np1 Vp2 Np2 Lp) as (Ls & (Vs1 & Ns1) & (Vs2 & Ns2)).
  repeat split; assumption.
Qed.

(** The truncation of a finite number is the quotient of its value. *)
Lemma trunc_zv f :
  F32.valid f = true -> F32.is_finite f = true ->
  F32.trunc f = Some (Z.quot (F32.zv f) (2 ^ 149)).
Proof.
  intros Hv Hf. destruct f as [s|s| |s m e]; try discriminate.
  - reflexivity.
  - apply valid_finite in Hv. destruct Hv as [Hc _].
    destruct (canonical_bounds m e Hc) as (He & _).
    cbn [F32.trunc F32.zv]. f_equal.
    assert (Z.shiftl (Zpos m) e = Z.quot (Zpos m * 2 ^ (e + 149)) (2 ^ 149)) as E.
    { rewrite Z.quot_div_nonneg by (try apply Z.mul_nonneg_nonneg; try apply Z.pow_nonneg; lia).
      destruct (Z.le_gt_cases 0 e) as [P|N].
      - rewrite Z.shiftl_mul_pow2 by exact P.
        rewrite Z.pow_add_r by lia. rewrite Z.mul_assoc.
        rewrite Z.div_mul by (apply Z.pow_nonzero; lia). reflexivity.
      - rewrite Z.shiftl_div_pow2 by lia.
        replace (2 ^ 149) with (2 ^ (- e) * 2 ^ (e + 149)).
        + rewrite Z.div_mul_cancel_r.
          * reflexivity.
          * apply Z.pow_nonzero; lia.
          * apply Z.pow_nonzero; lia.
        + rewrite <- Z.pow_add_r by lia. f_equal. lia. }
    destruct s; cbn [cond_Zopp].
    + rewrite E, Z.quot_opp_l by (apply Z.pow_nonzero; lia). reflexivity.
    + exact E.
Qed.

(** A pulse width between 0 and 2^32 - 1 microseconds converts exactly. *)
Lemma to_uint32_zv undef f lo hi :
  F32.valid f = true -> F32.is_nan f = false ->
  0 <= lo -> hi < 2 ^ 32 ->
  lo * 2 ^ 149 <= F32.zv f <= hi * 2 ^ 149 ->
  F32.to_uint32 undef f = Z.quot (F32.zv f) (2 ^ 149) /\
  lo <= Z.quot (F32.zv f) (2 ^ 149) <= hi.
Proof.
  intros Hv Hn Hlo Hhi [L U].
  assert (0 < 2 ^ 149) as P by (apply Z.pow_pos_nonneg; lia).
  assert (0 <= F32.zv f < 2 ^ 277) as B.
  { split; [nia|]. assert (hi * 2 ^ 149 < 2 ^ 32 * 2 ^ 149) by nia.
    assert (2 ^ 32 * 2 ^ 149 < 2 ^ 277) by reflexivity. lia. }
  destruct (nn_fin_cases f Hv Hn B) as [_ Hf].
  assert (lo <= Z.quot (F32.zv f) (2 ^ 149) <= hi) as Q.
  { rewrite Z.quot_div_nonneg by lia. split.
    - apply Z.div_le_lower_bound; lia.
    - apply Z.div_le_upper_bound; lia. }
  split; [|exact Q].
  unfold F32.to_uint32. rewrite (trunc_zv f Hv Hf).
  assert ((0 <=? Z.quot (F32.zv f) (2 ^ 149)) = true) as A by (apply Z.leb_le; lia).
  assert ((Z.quot (F32.zv f) (2 ^ 149) <? 2 ^ 32) = true) as A' by (apply Z.ltb_lt; lia).
  rewrite A, A'. reflexivity.
Qed.

(** X14. With the program's calibration (500 to 2500 us) the compare
    value [sg90_set_angle] writes never leaves [500, 2500], for any angle
    that is not NaN, and it does not decrease when the angle grows. *)
Theorem duty_within_calibration plat a1 a2 :
  F32.valid a1 = true -> F32.valid a2 = true ->
  F32.leb a1 a2 = true ->
  500 <= Servo.duty plat Main.servo_config a1 /\
  Servo.duty plat Main.servo_config a1 <= Servo.duty plat Main.servo_config a2 /\
  Servo.duty plat Main.servo_config a2 <= 2500.
Proof.
  intros V1 V2 L.
  assert (F32.is_nan a1 = false /\ F32.is_nan a2 = false) as [N1 N2].
  { destruct a1, a2; try discriminate; split; reflexivity. }
  assert (forall x y, F32.valid x = true -> F32.valid y = true -> F32.leb x y = true ->
            F32.zv (Servo.pulse_width Main.servo_config (Servo.clamp_angle x)) <=
            F32.zv (Servo.pulse_width Main.servo_config (Servo.clamp_angle y)) /\
            F32.valid (Servo.pulse_width Main.servo_config (Servo.clamp_angle x)) = true /\
            F32.is_nan (Servo.pulse_width Main.servo_config (Servo.clamp_angle x)) = false)
    as Ord.
  { intros x y Vx Vy Lxy.
    destruct (pulse_width_order Main.servo_config x y eq_refl eq_refl Vx Vy eq_refl
                eq_refl Lxy) as (H & (Hv & Hn) & _).
    auto. }
  assert (forall a, F32.valid a = true -> F32.is_nan a = false ->
            500 * 2 ^ 149 <=
              F32.zv (Servo.pulse_width Main.servo_config (Servo.clamp_angle a)) <=
              2500 * 2 ^ 149) as Range.
  { intros a Va Na. destruct (clamp_zv a Va Na) as (Za & Vc & Nc & Fc).
    assert (F32.is_nan (Servo.clamp_angle a) = false) as Nn
      by (destruct (Servo.clamp_angle a); try discriminate; reflexivity).
    assert (0 < F32.zv F32.c180) as P180 by reflexivity.
    assert (F32.leb F32.zero (Servo.clamp_angle a) = true) as L0.
    { unfold F32.leb. rewrite SFleb_zv by (try assumption; reflexivity).
      apply Z.leb_le. change (F32.zv F32.zero) with 0. lia. }
    assert (F32.leb (Servo.clamp_angle a) F32.c180 = true) as L180.
    { unfold F32.leb. rewrite SFleb_zv by (try assumption; reflexivity).
      apply Z.leb_le. lia. }
    destruct (Ord F32.zero (Servo.clamp_angle a) eq_refl Vc L0) as (Lo & _).
    destruct (Ord (Servo.clamp_angle a) F32.c180 Vc eq_refl L180) as (Hi & _).
    rewrite clamp_angle_idem in Lo, Hi.
    assert (F32.zv (Servo.pulse_width Main.servo_config (Servo.clamp_angle F32.zero)) =
            500 * 2 ^ 149) as E0 by (vm_compute; reflexivity).
    assert (F32.zv (Servo.pulse_width Main.servo_config (Servo.clamp_angle F32.c180)) =
            2500 * 2 ^ 149) as E180 by (vm_compute; reflexivity).
    rewrite E0 in Lo. rewrite E180 in Hi. split; assumption. }
  destruct (Ord a1 a2 V1 V2 L) as (L12 & Vp1 & Np1).
  destruct (Ord a2 a2 V2 V2) as (_ & Vp2 & Np2).
  { unfold F32.leb. rewrite SFleb_zv by assumption. apply Z.leb_le. lia. }
  unfold Servo.duty.
  destruct (to_uint32_zv (fptoui_undef plat) _ 500 2500 Vp1 Np1 ltac:(lia) eq_refl
              (Range a1 V1 N1)) as (E1 & B1).
  destruct (to_uint32_zv (fptoui_undef plat) _ 500 2500 Vp2 Np2 ltac:(lia) eq_refl
              (Range a2 V2 N2)) as (E2 & B2).
  rewrite E1, E2. split; [lia|]. split; [|lia].
  apply Z.quot_le_mono; [reflexivity|exact L12].
Qed.

(** X14 between 54 and 126 degrees. *)
Lemma duty_between_54_and_126 :
  500 <= Servo.duty reference_platform Main.servo_config (F32.of_Z 54) /\
  Servo.duty reference_platform Main.servo_config (F32.of_Z 54) <=
    Servo.duty reference_platform Main.servo_config (F32.of_Z 126) /\
  Servo.duty reference_platform Main.servo_config (F32.of_Z 126) <= 2500.
Proof.
  exact (duty_within_calibration reference_platform (F32.of_Z 54) (F32.of_Z 126)
           eq_refl eq_refl eq_refl).
Defined.

(** X15. The compare values of the ten commands are exact: the binary32
    computation loses nothing, and command d gets [500 + 200 * d]
    microseconds for d up to 8 and 2500 for 9. *)
Theorem command_duties_are_exact plat d :
  0 <= d <= 9 ->
  180 * (Servo.duty plat Main.servo_config (F32.of_Z (Main.angle_for_digit d)) - 500) =
    2000 * Main.angle_for_digit d /\
  Servo.duty plat Main.servo_config (F32.of_Z (Main.angle_for_digit d)) =
    if d =? 9 then 2500 else 500 + 200 * d.
Proof.
  intros Hd.
  assert (d = 0 \/ d = 1 \/ d = 2 \/ d = 3 \/ d = 4 \/ d = 5 \/ d = 6 \/ d = 7 \/
          d = 8 \/ d = 9) as C by lia.
  repeat (destruct C as [C|C]; [subst d; split; vm_compute; reflexivity|]).
  subst d; split; vm_compute; reflexivity.
Qed.

(** X15 for command 7: 1900 us. *)
Lemma duty_of_command_7 :
  Servo.duty reference_platform Main.servo_config (F32.of_Z (Main.angle_for_digit 7)) = 1900.
Proof.
  exact (proj2 (command_duties_are_exact reference_platform 7
                  (conj (proj1 (Z.leb_le 0 7) eq_refl) (proj1 (Z.leb_le 7 9) eq_refl)))).
Defined.

(** X7 for a connection that arrives before any registration. *)
Lemma connection_before_registration :
  result (TcpServer.loop_body (Main.invoke reference_platform) 7 0
            (TcpServer.RecvData ["5"; "1"]%char) boot_world) = Ret tt boot_world /\
  actions (events (TcpServer.loop_body (Main.invoke reference_platform) 7 0
                     (TcpServer.RecvData ["5"; "1"]%char) boot_world)) =
    [EvAccept (-1) 7; EvRecv 7 63 2; EvClose 7; EvDelay 10].
Proof.
  exact (no_callback_no_command (Main.invoke reference_platform) 7 0
           (TcpServer.RecvData ["5"; "1"]%char) boot_world eq_refl).
Defined.

(** X9 for a connection that delivers "5x1". *)
Lemma connection_with_5_and_1 :
  actions (events (TcpServer.loop_body (Main.invoke reference_platform) 7 0
                     (TcpServer.RecvData ["5"; "x"; "1"]%char) ready_world)) =
    [EvAccept 3 7; EvRecv 7 63 3;
     EvSetCompare 3 1500 ESP_OK; EvDelay 1000; EvSetCompare 3 500 ESP_OK;
     EvSend 7 (spec_ok_response "5" 90) 47;
     EvSetCompare 3 700 ESP_OK; EvDelay 1000; EvSetCompare 3 500 ESP_OK;
     EvSend 7 (spec_ok_response "1" 18) 47;
     EvClose 7; EvDelay 10].
Proof.
  exact (loop_pass_actions reference_platform live_servo_config 7 0
           (TcpServer.RecvData ["5"; "x"; "1"]%char) ready_world _ eq_refl eq_refl eq_refl).
Defined.


(** X11 after a connection that delivers "9". *)
Lemma servo_home_after_a_connection :
  compare_value
    (match result (TcpServer.loop_body (Main.invoke reference_platform) 7 0
                     (TcpServer.RecvData ["9"]%char) ready_world) with
     | Ret _ w' => w'
     | Abort => ready_world
     end) 3 = 500.
Proof.
  exact (proj2 (proj2 (proj2
           (loop_pass_leaves_servo_home reference_platform live_servo_config 7 0
              (TcpServer.RecvData ["9"]%char) ready_world _ eq_refl eq_refl eq_refl)))).
Defined.

(** X13 on the ready system. *)
Lemma stop_then_late_task_start :
  exists w1,
    result (TcpServer.tcp_server_stop ready_world) = Ret tt w1 /\
    running (server_state w1) = false /\
    result (TcpServer.tcp_server_is_running w1) = Ret false w1 /\
    exists rest,
      actions (events (TcpServer.tcp_server_task (Main.invoke reference_platform)
                         [TcpServer.InAccept (-1) 9 (TcpServer.RecvError 9)] w1)) =
      EvAccept (-1) (-1) :: rest.
Proof.
  exact (stop_before_task_start_is_lost (Main.invoke reference_platform) (-1) 9
           (TcpServer.RecvError 9) ready_world (proj1 (Z.leb_le 0 3) eq_refl)).
Defined.

(* ===================================================================== *)
(** * Properties of the rest of the program *)
(* ===================================================================== *)

(** ** Running code that calls the SDK *)

Lemma sys_result_bind {A B} (m : P A) (k : A -> P B) s :
  snd (Sys.bind m k s) =
  match snd (m s) with Some (a, s') => snd (k a s') | None => None end.
Proof.
  unfold Sys.bind. destruct (m s) as [ev [[a s']|]]; [|reflexivity].
  cbn. destruct (k a s'); reflexivity.
Qed.

Lemma sys_events_bind {A B} (m : P A) (k : A -> P B) s :
  fst (Sys.bind m k s) =
  fst (m s) ++ match snd (m s) with Some (a, s') => fst (k a s') | None => [] end.
Proof.
  unfold Sys.bind. destruct (m s) as [ev [[a s']|]]; cbn.
  - destruct (k a s'); reflexivity.
  - symmetry. apply app_nil_r.
Qed.

Lemma sdk_calls_app l1 l2 : sdk_calls (l1 ++ l2) = sdk_calls l1 ++ sdk_calls l2.
Proof. unfold sdk_calls. apply flat_map_app. Qed.

Lemma core_events_app l1 l2 : core_events (l1 ++ l2) = core_events l1 ++ core_events l2.
Proof. unfold core_events. apply flat_map_app. Qed.

Lemma sdk_calls_core l : sdk_calls (map Core l) = [].
Proof. induction l; [reflexivity|assumption]. Qed.


Ltac sys_step :=
  repeat (rewrite ?sys_events_bind, ?sys_result_bind;
          cbn [Sys.ret Sys.emit Sys.log Sys.abort Sys.call Sys.call_handle Sys.get_wifi Sys.set_wifi
               fst snd]).

(** Closing the case of a failed call. *)
Ltac sys_failed :=
  sys_step; cbn [app sdk_calls core_events flat_map andb];
  repeat split; try reflexivity; intros; try discriminate.

Section InitFacts.
Variable plat : platform.
Variable env : sdk_env.

Lemma sg90_init_run config s :
  let r := Sg90.sg90_init plat env config s in
  let c' := initialised env config in
  let home := Servo.duty plat c' F32.zero in
  sdk_calls (fst r) = until_failed (init_passes env) (init_calls env config) /\
  (forallb (init_passes env) (init_calls env config) = true ->
     core_events (fst r) = fst (Servo.sg90_set_angle plat c' F32.zero (sys_world s)) /\
     snd r =
       if cmpr_set_ret plat (comparator c') home =? ESP_OK
       then Some ((ESP_OK, c'),
                  {| sys_world :=
                       {| compare_value := fun h => if h =? comparator c' then home
                                                    else compare_value (sys_world s) h;
                          server_state := server_state (sys_world s);
                          g_servo_config := g_servo_config (sys_world s) |};
                     sys_wifi := sys_wifi s |})
       else None) /\
  (forallb (init_passes env) (init_calls env config) = false ->
     snd r = None /\ duty_writes (core_events (fst r)) = []).
Proof.
  cbv zeta. unfold Sg90.sg90_init, Sg90.checked_new, checked, check_code, init_calls, initialised,
    init_generator, init_comparator, init_oper, init_timer,
    Sg90.SG90_RESOLUTION_HZ, Sg90.SG90_PERIOD_TICKS.
  cbn [until_failed forallb init_passes andb].
  sys_step.
  destruct (sdk_ret env (gpio_config _) =? ESP_OK); [|sys_failed].
  sys_step.
  destruct (sdk_ret env (mcpwm_new_timer _ _ _) =? ESP_OK); [|sys_failed].
  sys_step.
  destruct (sdk_ret env (mcpwm_new_operator _) =? ESP_OK); [|sys_failed].
  sys_step.
  destruct (sdk_ret env (mcpwm_operator_connect_timer _ _) =? ESP_OK); [|sys_failed].
  sys_step.
  destruct (sdk_ret env (mcpwm_new_comparator _) =? ESP_OK); [|sys_failed].
  sys_step.
  destruct (sdk_ret env (mcpwm_new_generator _ _) =? ESP_OK); [|sys_failed].
  sys_step.
  destruct (sdk_ret env (mcpwm_generator_set_actions_on_timer_event _ _) =? ESP_OK); [|sys_failed].
  sys_step.
  destruct (sdk_ret env (mcpwm_generator_set_actions_on_compare_event _ _) =? ESP_OK); [|sys_failed].
  sys_step.
  destruct (sdk_ret env (mcpwm_timer_enable _) =? ESP_OK); [|sys_failed].
  sys_step.
  destruct (sdk_ret env (mcpwm_timer_start_stop _ _) =? ESP_OK); [|sys_failed].
  sys_step.
  unfold Sys.lift. rewrite sg90_set_angle_run. cbv zeta. cbn [comparator].
  destruct (cmpr_set_ret plat _ _ =? ESP_OK); sys_step;
    rewrite !sdk_calls_app, !core_events_app;
    cbn [app sdk_calls core_events flat_map map]; repeat split; try reflexivity;
    intros; discriminate.
Qed.

Lemma sg90_deinit_run config s :
  snd (Sg90.sg90_deinit env config s) = Some ((ESP_OK, released config), s) /\
  sdk_calls (fst (Sg90.sg90_deinit env config s)) = deinit_calls config /\
  core_events (fst (Sg90.sg90_deinit env config s)) = [] /\
  snd (Sg90.sg90_deinit env (released config) s) = Some ((ESP_OK, released config), s) /\
  sdk_calls (fst (Sg90.sg90_deinit env (released config) s)) = [].
Proof.
  unfold Sg90.sg90_deinit, deinit_calls, released. cbn [generator comparator oper timer
    signal_pin min_pulse_width_us max_pulse_width_us]. cbn [Z.eqb negb].
  destruct (generator config =? 0), (comparator config =? 0), (oper config =? 0),
    (timer config =? 0); cbn [negb]; sys_step; repeat split; reflexivity.
Qed.

(** X17. [sg90_init] makes its calls into the SDK in the order of the
    source and stops at the first checked call that fails; the level set on
    the pin is the one call it does not check. When all pass, the handles
    the SDK handed out are in the struct, the servo has been homed by
    [sg90_set_angle] at 0 degrees, and the function returns [ESP_OK] unless
    the driver refuses that compare value, in which case it aborts. When a
    checked call fails, it aborts without having written a compare value. *)
Theorem sg90_init_sets_up_the_servo config s :
  let r := Sg90.sg90_init plat env config s in
  let c' := initialised env config in
  let home := Servo.duty plat c' F32.zero in
  sdk_calls (fst r) = until_failed (init_passes env) (init_calls env config) /\
  (forallb (init_passes env) (init_calls env config) = true ->
     core_events (fst r) = fst (Servo.sg90_set_angle plat c' F32.zero (sys_world s)) /\
     snd r =
       if cmpr_set_ret plat (comparator c') home =? ESP_OK
       then Some ((ESP_OK, c'),
                  {| sys_world :=
                       {| compare_value := fun h => if h =? comparator c' then home
                                                    else compare_value (sys_world s) h;
                          server_state := server_state (sys_world s);
                          g_servo_config := g_servo_config (sys_world s) |};
                     sys_wifi := sys_wifi s |})
       else None) /\
  (forallb (init_passes env) (init_calls env config) = false ->
     snd r = None /\ duty_writes (core_events (fst r)) = []).
Proof. exact (sg90_init_run config s). Qed.

(** X18. [sg90_deinit] looks at no return code: it always returns
    [ESP_OK] and leaves the four handles NULL; it deletes exactly the
    objects whose handle was not NULL, the generator first and the timer
    last, touches nothing else, and called again on the struct it left it
    makes no call into the SDK. *)
Theorem sg90_deinit_releases_the_handles config s :
  snd (Sg90.sg90_deinit env config s) = Some ((ESP_OK, released config), s) /\
  sdk_calls (fst (Sg90.sg90_deinit env config s)) = deinit_calls config /\
  core_events (fst (Sg90.sg90_deinit env config s)) = [] /\
  snd (Sg90.sg90_deinit env (released config) s) = Some ((ESP_OK, released config), s) /\
  sdk_calls (fst (Sg90.sg90_deinit env (released config) s)) = [].
Proof. exact (sg90_deinit_run config s). Qed.

(** X19. Round trip: when [sg90_init] returns, it returned [ESP_OK] and
    the struct holds the handles of the SDK; [sg90_deinit] on that struct
    returns [ESP_OK] and gives back the struct as it was before [sg90_init]
    when its handles were NULL then, and, when the SDK handed out no NULL
    handle, deletes the generator, the comparator, the operator and the
    timer it created, in that order. *)
Theorem sg90_init_deinit_round_trip config s r c' s' :
  snd (Sg90.sg90_init plat env config s) = Some ((r, c'), s') ->
  r = ESP_OK /\
  c' = initialised env config /\
  snd (Sg90.sg90_deinit env c' s') = Some ((ESP_OK, released config), s') /\
  (timer config = 0 -> oper config = 0 -> comparator config = 0 -> generator config = 0 ->
   released config = config) /\
  (init_timer env <> 0 -> init_oper env <> 0 -> init_comparator env <> 0 ->
   init_generator env config <> 0 ->
   sdk_calls (fst (Sg90.sg90_deinit env c' s')) =
     [mcpwm_generator_set_actions_on_timer_event (init_generator env config) [];
      mcpwm_generator_set_actions_on_compare_event (init_generator env config) [];
      mcpwm_del_generator (init_generator env config);
      mcpwm_del_comparator (init_comparator env);
      mcpwm_del_operator (init_oper env);
      mcpwm_timer_start_stop (init_timer env) MCPWM_TIMER_STOP_EMPTY;
      mcpwm_del_timer (init_timer env)]).
Proof.
  intros H. pose proof (sg90_init_run config s) as R. cbv zeta in R.
  destruct R as (_ & Rok & Rfail).
  destruct (forallb (init_passes env) (init_calls env config)) eqn:E.
  - destruct (Rok eq_refl) as (_ & Rr). rewrite Rr in H.
    destruct (cmpr_set_ret plat _ _ =? ESP_OK); [|discriminate].
    destruct (sg90_deinit_run c' s') as (Dr & Dc & _).
    injection H as Hr Hc Hs. rewrite <- Hc in Dr, Dc. subst r c'.
    split; [reflexivity|]. split; [reflexivity|]. split; [exact Dr|]. split.
    + intros Ht Ho Hc Hg. destruct config as [pin t o c g lo hi]. cbn in *. subst.
      reflexivity.
    + intros Ht Ho Hc Hg. rewrite Dc. unfold deinit_calls.
      cbn [initialised generator comparator oper timer].
      apply Z.eqb_neq in Ht, Ho, Hc, Hg. rewrite Ht, Ho, Hc, Hg. reflexivity.
  - destruct (Rfail eq_refl) as (Rr & _). rewrite Rr in H. discriminate.
Qed.

End InitFacts.

(** The servo of [servo_control_task] on a target that accepts every call. *)
Lemma servo_set_up_on_a_willing_sdk :
  sdk_calls (fst (Sg90.sg90_init reference_platform willing_sdk Main.servo_config
                    boot_system)) =
    [gpio_config 131072; gpio_set_level 17 0;
     mcpwm_new_timer 0 1000000 20000; mcpwm_new_operator 0;
     mcpwm_operator_connect_timer 12 11;
     mcpwm_new_comparator 12; mcpwm_new_generator 12 17;
     mcpwm_generator_set_actions_on_timer_event 14
       [(MCPWM_TIMER_DIRECTION_UP, MCPWM_TIMER_EVENT_EMPTY, MCPWM_GEN_ACTION_HIGH)];
     mcpwm_generator_set_actions_on_compare_event 14
       [(MCPWM_TIMER_DIRECTION_UP, 13, MCPWM_GEN_ACTION_LOW)];
     mcpwm_timer_enable 11; mcpwm_timer_start_stop 11 MCPWM_TIMER_START_NO_STOP] /\
  duty_writes (core_events (fst (Sg90.sg90_init reference_platform willing_sdk
                                   Main.servo_config boot_system))) = [(13, 500)].
Proof.
  destruct (sg90_init_sets_up_the_servo reference_platform willing_sdk Main.servo_config
              boot_system)
    as (Hc & Hok & _).
  split; [exact Hc|]. destruct (Hok eq_refl) as (He & _).
  cbv zeta in He. rewrite He. reflexivity.
Defined.

(** The same servo set up and torn down again. *)
Lemma servo_set_up_and_released :
  exists c' s',
    snd (Sg90.sg90_init reference_platform willing_sdk Main.servo_config boot_system) =
      Some ((ESP_OK, c'), s') /\
    snd (Sg90.sg90_deinit willing_sdk c' s') = Some ((ESP_OK, Main.servo_config), s').
Proof.
  assert (exists c' s',
            snd (Sg90.sg90_init reference_platform willing_sdk Main.servo_config
                   boot_system) = Some ((ESP_OK, c'), s')) as (c' & s' & Hi).
  { eexists. eexists. vm_compute. reflexivity. }
  exists c', s'. split; [exact Hi|].
  destruct (sg90_init_deinit_round_trip reference_platform willing_sdk Main.servo_config
              boot_system ESP_OK c' s' Hi) as (_ & _ & D & H & _).
  rewrite D, (H eq_refl eq_refl eq_refl eq_refl). reflexivity.
Defined.

(** ** WiFi: waiting and events *)

Lemma lift_delay ms s :
  Sys.lift (vTaskDelay_ms ms) s = ([Core (EvDelay ms)], Some (tt, s)).
Proof. destruct s. reflexivity. Qed.

Section Waiting.
Variable env : sdk_env.
Variable invoke_user : wifi_event_callback_t -> Z -> string -> Z -> P unit.

Lemma wait_loop_outcomes timeout_ms tick_start rounds : forall s,
  (wifi_connected (sys_wifi s) = true ->
   Wifi.wait_loop env invoke_user timeout_ms tick_start rounds s =
     ([], Some (Some ESP_OK, s))) /\
  (forall r s', snd (Wifi.wait_loop env invoke_user timeout_ms tick_start rounds s) =
                  Some (Some r, s') ->
     (r = ESP_OK /\ wifi_connected (sys_wifi s') = true) \/
     (r = ESP_ERR_TIMEOUT /\ timeout_ms < 2 ^ 32 - 1 /\
      In (Core (EvDelay 100))
         (fst (Wifi.wait_loop env invoke_user timeout_ms tick_start rounds s)))).
Proof.
  induction rounds as [|rd rest IH]; intros s.
  - cbn [Wifi.wait_loop]. sys_step. split.
    + intros H. unfold Sys.bind, Sys.get_wifi. rewrite H. reflexivity.
    + intros r s'. destruct (wifi_connected (sys_wifi s)) eqn:E; cbn [Sys.ret snd].
      * intros H. inversion H; subst. left. split; [reflexivity|exact E].
      * intros H. discriminate.
  - cbn [Wifi.wait_loop]. split.
    + intros H. unfold Sys.bind at 1, Sys.get_wifi. rewrite H. reflexivity.
    + intros r s'. sys_step.
      destruct (wifi_connected (sys_wifi s)) eqn:E.
      * cbn [Sys.ret snd]. intros H. inversion H; subst. left. split; [reflexivity|exact E].
      * sys_step. rewrite lift_delay. sys_step.
        destruct (snd (sys_for_each (Wifi.arrived rd) (Wifi.deliver env invoke_user) s))
          as [[[] s1]|]; [|discriminate].
        sys_step.
        match goal with |- context [timeout_ms <? ?v] =>
          destruct (timeout_ms <? v) eqn:T; [assert (v < 2 ^ 32) as B
            by (apply Z.mod_pos_bound; reflexivity)|] end.
        -- sys_step. intros H. inversion H; subst. right.
           apply Z.ltb_lt in T. split; [reflexivity|]. split; [lia|]. left. reflexivity.
        -- intros H. destruct (IH s1) as [_ IH2]. destruct (IH2 r s' H) as [L|(R1 & R2 & R3)].
           ++ left. exact L.
           ++ right. split; [exact R1|]. split; [exact R2|]. left. reflexivity.
Qed.

(** X20. [wifi_wait_connected] returns [ESP_OK] at once, without
    suspending, when the flag is already set. Whatever it returns is either
    [ESP_OK], with the flag set, or [ESP_ERR_TIMEOUT] after at least one
    suspension of 100 ms; a timeout is impossible when [timeout_ms] is the
    largest 32-bit value. *)
Theorem wifi_wait_connected_outcomes timeout_ms tick_start rounds s :
  (wifi_connected (sys_wifi s) = true ->
   Wifi.wifi_wait_connected env invoke_user timeout_ms tick_start rounds s =
     ([Sdk xTaskGetTickCount tick_start], Some (Some ESP_OK, s))) /\
  (forall r s',
     snd (Wifi.wifi_wait_connected env invoke_user timeout_ms tick_start rounds s) =
       Some (Some r, s') ->
     (r = ESP_OK /\ wifi_connected (sys_wifi s') = true) \/
     (r = ESP_ERR_TIMEOUT /\ timeout_ms < 2 ^ 32 - 1 /\
      In (Core (EvDelay 100))
         (fst (Wifi.wifi_wait_connected env invoke_user timeout_ms tick_start rounds s)))).
Proof.
  destruct (wait_loop_outcomes timeout_ms tick_start rounds s) as [H1 H2].
  unfold Wifi.wifi_wait_connected. split.
  - intros H. unfold Sys.bind, Sys.emit. rewrite (H1 H). reflexivity.
  - intros r s'. sys_step. intros H. destruct (H2 r s' H) as [L|(R1 & R2 & R3)].
    + left. exact L.
    + right. split; [exact R1|]. split; [exact R2|]. right. exact R3.
Qed.

End Waiting.

Section Events.
Variable env : sdk_env.

Lemma with_connected_same s : with_connected (wifi_connected (sys_wifi s)) s = s.
Proof. destruct s as [w [a b c d e f g]]. reflexivity. Qed.

Lemma user_reports_app l1 l2 : user_reports (l1 ++ l2) = user_reports l1 ++ user_reports l2.
Proof. unfold user_reports. apply flat_map_app. Qed.

(** One event of the event loop, handled. *)
Lemma deliver_run ev s :
  let r := Wifi.deliver env App.invoke_user ev s in
  snd r = Some (tt, with_connected (flag_after (wifi_connected (sys_wifi s)) ev) s) /\
  sdk_calls (fst r) = handler_calls ev /\
  core_events (fst r) = [] /\
  user_reports (fst r) =
    match user_callback (sys_wifi s) with
    | Some _ => hotspot_report ev
    | None => []
    end.
Proof.
  cbv zeta. destruct ev as [event_base event_id].
  unfold Wifi.deliver, flag_after, handler_calls, hotspot_report.
  destruct (String.eqb event_base WIFI_EVENT) eqn:Eb.
  - apply String.eqb_eq in Eb. subst event_base. cbn [andb].
    unfold Wifi.wifi_event_handler.
    assert (forall s0,
      let u := (st <- Sys.get_wifi ;;
                match user_callback st with
                | Some f => App.invoke_user f (user_callback_arg st) WIFI_EVENT event_id
                | None => Sys.ret tt
                end)%sys s0 in
      snd u = Some (tt, s0) /\ sdk_calls (fst u) = [] /\ core_events (fst u) = [] /\
      user_reports (fst u) =
        match user_callback (sys_wifi s0) with
        | Some _ => if event_id =? WIFI_EVENT_STA_CONNECTED then [MsgHotspotConnected]
                    else if event_id =? WIFI_EVENT_STA_DISCONNECTED
                    then [MsgHotspotDisconnected] else []
        | None => []
        end) as U.
    { intros s0. cbv zeta. sys_step.
      destruct (user_callback (sys_wifi s0)) as [[]|]; [|repeat split; reflexivity].
      cbn [App.invoke_user]. unfold App.wifi_event_handler.
      change (String.eqb (c_str WIFI_EVENT) (c_str WIFI_EVENT)) with true. cbv iota.
      destruct (event_id =? WIFI_EVENT_STA_CONNECTED);
        [|destruct (event_id =? WIFI_EVENT_STA_DISCONNECTED)];
        repeat split; reflexivity. }
    cbv zeta in U.
    set (tail := (st <- Sys.get_wifi ;;
                  match user_callback st with
                  | Some f => App.invoke_user f (user_callback_arg st) WIFI_EVENT event_id
                  | None => Sys.ret tt
                  end)%sys) in *.
    sys_step.
    destruct (event_id =? WIFI_EVENT_STA_START) eqn:E1.
    { assert ((event_id =? WIFI_EVENT_STA_CONNECTED) = false /\
              (event_id =? WIFI_EVENT_STA_DISCONNECTED) = false) as [E2 E3].
      { apply Z.eqb_eq in E1. subst event_id. split; reflexivity. }
      sys_step. destruct (U s) as (U1 & U2 & U3 & U4).
      rewrite U1, !sdk_calls_app, !core_events_app, !user_reports_app, U2, U3, U4.
      rewrite E2, E3, with_connected_same. repeat split; reflexivity. }
    destruct (event_id =? WIFI_EVENT_STA_CONNECTED) eqn:E2.
    { sys_step. destruct (U s) as (U1 & U2 & U3 & U4).
      rewrite U1, !sdk_calls_app, !core_events_app, !user_reports_app, U2, U3, U4.
      assert ((event_id =? WIFI_EVENT_STA_DISCONNECTED) = false) as E3.
      { apply Z.eqb_eq in E2. subst event_id. reflexivity. }
      rewrite E3, with_connected_same. repeat split; reflexivity. }
    destruct (event_id =? WIFI_EVENT_STA_DISCONNECTED) eqn:E3.
    { sys_step. unfold Wifi.set_connected. sys_step.
      match goal with |- context [tail ?s1] =>
        destruct (U s1) as (U1 & U2 & U3 & U4) end.
      rewrite U1, !sdk_calls_app, !core_events_app, !user_reports_app, U2, U3, U4.
      repeat split; reflexivity. }
    sys_step. destruct (U s) as (U1 & U2 & U3 & U4).
    rewrite U1, !sdk_calls_app, !core_events_app, !user_reports_app, U2, U3, U4.
    rewrite with_connected_same. repeat split; reflexivity.
  - cbn [andb]. destruct (String.eqb event_base IP_EVENT && (event_id =? IP_EVENT_STA_GOT_IP))
      eqn:Ei.
    + apply andb_true_iff in Ei. destruct Ei as [_ Ei]. unfold Wifi.ip_event_handler.
      rewrite Ei. unfold Wifi.set_connected. sys_step.
      split; [reflexivity|]. split; [reflexivity|]. split; [reflexivity|].
      destruct (user_callback (sys_wifi s)); reflexivity.
    + rewrite with_connected_same.
      split; [reflexivity|]. split; [reflexivity|]. split; [reflexivity|].
      destruct (user_callback (sys_wifi s)); reflexivity.
Qed.


Lemma with_connected_twice b b' s :
  with_connected b' (with_connected b s) = with_connected b' s.
Proof. reflexivity. Qed.

(** A list of events, handled one after the other. *)
Lemma deliver_all_run evs : forall s,
  let r := sys_for_each evs (Wifi.deliver env App.invoke_user) s in
  snd r = Some (tt, with_connected (fold_left flag_after evs (wifi_connected (sys_wifi s))) s) /\
  sdk_calls (fst r) = flat_map handler_calls evs /\
  core_events (fst r) = [] /\
  user_reports (fst r) =
    match user_callback (sys_wifi s) with
    | Some _ => flat_map hotspot_report evs
    | None => []
    end.
Proof.
  induction evs as [|ev rest IH]; intros s; cbv zeta.
  - cbn [sys_for_each fold_left flat_map Sys.ret fst snd]. rewrite with_connected_same.
    split; [reflexivity|]. split; [reflexivity|]. split; [reflexivity|].
    destruct (user_callback (sys_wifi s)); reflexivity.
  - cbn [sys_for_each fold_left flat_map]. sys_step.
    destruct (deliver_run ev s) as (D1 & D2 & D3 & D4). cbv zeta in D1, D2, D3, D4.
    rewrite D1.
    destruct (IH (with_connected (flag_after (wifi_connected (sys_wifi s)) ev) s))
      as (I1 & I2 & I3 & I4). cbv zeta in I1, I2, I3, I4.
    rewrite I1, sdk_calls_app, core_events_app, user_reports_app, D2, D3, D4, I2, I3, I4.
    cbn [with_connected sys_wifi wifi_connected user_callback].
    split; [reflexivity|]. split; [reflexivity|]. split; [reflexivity|].
    destruct (user_callback (sys_wifi s)); reflexivity.
Qed.

Lemma hotspot_report_no_ip evs :
  existsb is_ip_obtained (flat_map hotspot_report evs) = false.
Proof.
  induction evs as [|[event_base event_id] rest IH]; [reflexivity|].
  cbn [flat_map]. rewrite existsb_app, IH, orb_false_r. unfold hotspot_report.
  destruct (String.eqb event_base WIFI_EVENT); [|reflexivity].
  destruct (event_id =? WIFI_EVENT_STA_CONNECTED); [reflexivity|].
  destruct (event_id =? WIFI_EVENT_STA_DISCONNECTED); reflexivity.
Qed.

(** X21. Whatever events the event loop delivers, the two handlers leave
    [wifi_connected] as the events say, one after the other: set by
    [IP_EVENT_STA_GOT_IP], cleared by [WIFI_EVENT_STA_DISCONNECTED], left
    alone by everything else. Their only calls into the SDK are one
    [esp_wifi_connect] for each disconnection, and [wifi_is_connected]
    returns the flag they left. *)
Theorem wifi_connected_follows_events evs s :
  let r := sys_for_each evs (Wifi.deliver env App.invoke_user) s in
  let s' := with_connected (fold_left flag_after evs (wifi_connected (sys_wifi s))) s in
  snd r = Some (tt, s') /\
  sdk_calls (fst r) = flat_map handler_calls evs /\
  core_events (fst r) = [] /\
  Wifi.wifi_is_connected s' =
    ([], Some (fold_left flag_after evs (wifi_connected (sys_wifi s)), s')).
Proof.
  cbv zeta. destruct (deliver_all_run evs s) as (H1 & H2 & H3 & _). cbv zeta in H1, H2, H3.
  split; [exact H1|]. split; [exact H2|]. split; [exact H3|]. reflexivity.
Qed.


(** X23. The callback that [app_main] registers is called from
    [wifi_event_handler] of wifi_config.c only, which hears the events of
    base [WIFI_EVENT]: it reports connections to and disconnections from the
    access point, and never that an address was obtained, although it has a
    branch that would report it. *)
Theorem ip_obtained_is_never_reported evs s :
  let r := sys_for_each evs (Wifi.deliver env App.invoke_user) s in
  user_reports (fst r) =
    match user_callback (sys_wifi s) with
    | Some _ => flat_map hotspot_report evs
    | None => []
    end /\
  existsb is_ip_obtained (user_reports (fst r)) = false /\
  (forall arg, App.wifi_event_handler arg IP_EVENT IP_EVENT_STA_GOT_IP s =
                 ([SysLog LogI Main.TAG MsgIpObtained], Some (tt, s))).
Proof.
  cbv zeta. destruct (deliver_all_run evs s) as (_ & _ & _ & H). cbv zeta in H.
  split; [exact H|]. split.
  - rewrite H. destruct (user_callback (sys_wifi s)); [apply hotspot_report_no_ip|reflexivity].
  - intros arg. reflexivity.
Qed.

End Events.

(** Two disconnections among five events: two reconnection attempts. *)
Lemma reconnects_after_each_disconnection :
  sdk_calls (fst (sys_for_each
                    [(IP_EVENT, IP_EVENT_STA_GOT_IP); (WIFI_EVENT, WIFI_EVENT_STA_DISCONNECTED);
                     (WIFI_EVENT, WIFI_EVENT_STA_CONNECTED); (IP_EVENT, IP_EVENT_STA_GOT_IP);
                     (WIFI_EVENT, WIFI_EVENT_STA_DISCONNECTED)]
                    (Wifi.deliver willing_sdk App.invoke_user) listening_system)) =
    [esp_wifi_connect; esp_wifi_connect].
Proof.
  destruct (wifi_connected_follows_events willing_sdk
              [(IP_EVENT, IP_EVENT_STA_GOT_IP); (WIFI_EVENT, WIFI_EVENT_STA_DISCONNECTED);
               (WIFI_EVENT, WIFI_EVENT_STA_CONNECTED); (IP_EVENT, IP_EVENT_STA_GOT_IP);
               (WIFI_EVENT, WIFI_EVENT_STA_DISCONNECTED)] listening_system) as (_ & H & _).
  exact H.
Defined.

(** ** WiFi: bringing the station up *)

Lemma wifi_started_app l1 l2 : wifi_started (l1 ++ l2) = wifi_started l1 || wifi_started l2.
Proof. unfold wifi_started. rewrite sdk_calls_app. apply existsb_app. Qed.

Section InitSta.
Variable env : sdk_env.
Variable build : build_config.

Lemma load_wifi_config_run s :
  exists st,
    snd (Wifi.load_wifi_config_from_env env build s) =
      Some (tt, {| sys_world := sys_world s; sys_wifi := st |}) /\
    sdk_calls (fst (Wifi.load_wifi_config_from_env env build s)) = [] /\
    core_events (fst (Wifi.load_wifi_config_from_env env build s)) = [] /\
    wifi_initialized st = wifi_initialized (sys_wifi s) /\
    wifi_connected st = wifi_connected (sys_wifi s) /\
    user_callback st = user_callback (sys_wifi s) /\
    sta_netif st = sta_netif (sys_wifi s) /\
    sta_ssid st =
      match WIFI_SSID build with
      | Some m => Wifi.strncpy_str (ssid_size env) m
      | None => match getenv env "WIFI_SSID" with
                | Some v => Wifi.strncpy_str (ssid_size env) v
                | None => sta_ssid (sys_wifi s)
                end
      end /\
    sta_password st =
      match WIFI_PASSWORD build with
      | Some m => Wifi.strncpy_str (password_size env) m
      | None => match getenv env "WIFI_PASSWORD" with
                | Some v => Wifi.strncpy_str (password_size env) v
                | None => sta_password (sys_wifi s)
                end
      end.
Proof.
  unfold Wifi.load_wifi_config_from_env, Wifi.set_ssid, Wifi.set_password.
  destruct s as [w [a b c d e f g]].
  destruct (WIFI_SSID build), (WIFI_PASSWORD build),
    (getenv env "WIFI_SSID"), (getenv env "WIFI_PASSWORD");
    sys_step; eexists; repeat split; reflexivity.
Qed.

Lemma length_zero_iff (x : string) : (String.length x =? 0)%nat = true <-> x = EmptyString.
Proof.
  destruct x; cbn; split; intros H; try reflexivity; discriminate.
Qed.

Lemma config_sent_app l1 l2 : config_sent (l1 ++ l2) = config_sent l1 ++ config_sent l2.
Proof. unfold config_sent. rewrite sdk_calls_app. apply flat_map_app. Qed.

Lemma wifi_init_sta_configure_run ssid password s r s' :
  let run := Wifi.wifi_init_sta_configure env build ssid password s in
  snd run = Some (r, s') ->
  sys_world s' = sys_world s /\
  wifi_initialized (sys_wifi s') = true /\
  sta_netif (sys_wifi s') = sta_netif (sys_wifi s) /\
  user_callback (sys_wifi s') = user_callback (sys_wifi s) /\
  wifi_connected (sys_wifi s') = wifi_connected (sys_wifi s) /\
  sta_ssid (sys_wifi s') =
    credential (ssid_size env) ssid (WIFI_SSID build) (getenv env "WIFI_SSID")
      (both_given ssid password) (sta_ssid (sys_wifi s)) /\
  sta_password (sys_wifi s') =
    credential (password_size env) password (WIFI_PASSWORD build) (getenv env "WIFI_PASSWORD")
      (both_given ssid password) (sta_password (sys_wifi s)) /\
  ((r = ESP_ERR_INVALID_ARG /\ sta_ssid (sys_wifi s') = EmptyString /\
    wifi_started (fst run) = false /\ config_sent (fst run) = []) \/
   (r = ESP_OK /\ sta_ssid (sys_wifi s') <> EmptyString /\
    wifi_started (fst run) = true /\
    config_sent (fst run) = [(sta_ssid (sys_wifi s'), sta_password (sys_wifi s'))])).
Proof.
  cbv zeta. unfold Wifi.wifi_init_sta_configure.
  set (tail := (st <- Sys.get_wifi ;;
                if (String.length (sta_ssid st) =? 0)%nat
                then Sys.log LogE Wifi.TAG MsgSsidEmpty ;; Sys.ret ESP_ERR_INVALID_ARG
                else checked env (esp_wifi_set_mode WIFI_MODE_STA) ;;
                     checked env (esp_wifi_set_config WIFI_IF_STA (sta_ssid st)
                                    (sta_password st)) ;;
                     checked env esp_wifi_start ;;
                     checked env esp_wifi_connect ;;
                     Sys.log LogI Wifi.TAG MsgWifiInitDone ;; Sys.ret ESP_OK)%sys).
  assert (forall s1, snd (tail s1) = Some (r, s') ->
            s' = s1 /\
            ((r = ESP_ERR_INVALID_ARG /\ sta_ssid (sys_wifi s1) = EmptyString /\
              wifi_started (fst (tail s1)) = false /\ config_sent (fst (tail s1)) = []) \/
             (r = ESP_OK /\ sta_ssid (sys_wifi s1) <> EmptyString /\
              wifi_started (fst (tail s1)) = true /\
              config_sent (fst (tail s1)) =
                [(sta_ssid (sys_wifi s1), sta_password (sys_wifi s1))]))) as T.
  { intros s1. unfold tail, checked, check_code. sys_step.
    destruct (String.length (sta_ssid (sys_wifi s1)) =? 0)%nat eqn:E.
    - sys_step. intros H. inversion H; subst. split; [reflexivity|]. left.
      split; [reflexivity|]. split; [apply length_zero_iff; exact E|].
      split; reflexivity.
    - sys_step. destruct (sdk_ret env (esp_wifi_set_mode _) =? ESP_OK); [|discriminate].
      sys_step. destruct (sdk_ret env (esp_wifi_set_config _ _ _) =? ESP_OK); [|discriminate].
      sys_step. destruct (sdk_ret env esp_wifi_start =? ESP_OK); [|discriminate].
      sys_step. destruct (sdk_ret env esp_wifi_connect =? ESP_OK); [|discriminate].
      sys_step. intros H. inversion H; subst. split; [reflexivity|]. right.
      split; [reflexivity|]. split; [|split; reflexivity].
      intros C. apply length_zero_iff in C. congruence. }
  clearbody tail. unfold Wifi.set_initialized, Wifi.set_ssid, Wifi.set_password.
  sys_step.
  match goal with |- context [snd (?m ?s0)] =>
    match type of m with P unit =>
      assert (exists st, snd (m s0) = Some (tt, {| sys_world := sys_world s; sys_wifi := st |}) /\
                         wifi_initialized st = true /\
                         sta_netif st = sta_netif (sys_wifi s) /\
                         user_callback st = user_callback (sys_wifi s) /\
                         wifi_connected st = wifi_connected (sys_wifi s) /\
                         sta_ssid st =
                           credential (ssid_size env) ssid (WIFI_SSID build)
                             (getenv env "WIFI_SSID") (both_given ssid password)
                             (sta_ssid (sys_wifi s)) /\
                         sta_password st =
                           credential (password_size env) password (WIFI_PASSWORD build)
                             (getenv env "WIFI_PASSWORD") (both_given ssid password)
                             (sta_password (sys_wifi s)) /\
                         wifi_started (fst (m s0)) = false /\
                         config_sent (fst (m s0)) = [])
        as (st & M1 & M2 & M3 & Mu & Mc & M4 & M5 & M6 & M7)
    end
  end.
  { destruct ssid as [x|], password as [y|];
      try (sys_step; eexists; repeat split; reflexivity);
      match goal with |- context [Wifi.load_wifi_config_from_env env build ?s0] =>
        destruct (load_wifi_config_run s0)
          as (st & L1 & L2 & L3 & L4 & L5 & L6 & L7 & L8 & L9)
      end;
      exists st; (split; [exact L1|]); (split; [exact L4|]); (split; [exact L7|]);
      (split; [exact L6|]); (split; [exact L5|]);
      (split; [rewrite L8; unfold credential, both_given;
               destruct (WIFI_SSID build), (getenv env "WIFI_SSID"); reflexivity|]);
      (split; [rewrite L9; unfold credential, both_given;
               destruct (WIFI_PASSWORD build), (getenv env "WIFI_PASSWORD"); reflexivity|]);
      unfold wifi_started, config_sent; rewrite L2; split; reflexivity. }
  rewrite M1. intros H. destruct (T _ H) as (Hs & Hr). subst s'.
  cbn [sys_world sys_wifi]. split; [reflexivity|]. split; [exact M2|]. split; [exact M3|].
  split; [exact Mu|]. split; [exact Mc|]. split; [exact M4|]. split; [exact M5|].
  rewrite !wifi_started_app, !config_sent_app, M6, M7.
  cbn [wifi_started config_sent sdk_calls flat_map existsb app orb].
  cbn [sys_wifi] in Hr. exact Hr.
Qed.

(** The whole of [wifi_init_sta] when it was not called before. *)
Lemma wifi_init_sta_run ssid password s r s' :
  let run := Wifi.wifi_init_sta env build ssid password s in
  wifi_initialized (sys_wifi s) = false ->
  snd run = Some (r, s') ->
  sys_world s' = sys_world s /\
  user_callback (sys_wifi s') = user_callback (sys_wifi s) /\
  wifi_connected (sys_wifi s') = wifi_connected (sys_wifi s) /\
  ((r = ESP_FAIL /\ wifi_initialized (sys_wifi s') = false /\ sta_netif (sys_wifi s') = 0 /\
    wifi_started (fst run) = false /\ config_sent (fst run) = []) \/
   (wifi_initialized (sys_wifi s') = true /\ sta_netif (sys_wifi s') <> 0 /\
    sta_ssid (sys_wifi s') =
      credential (ssid_size env) ssid (WIFI_SSID build) (getenv env "WIFI_SSID")
        (both_given ssid password) (sta_ssid (sys_wifi s)) /\
    sta_password (sys_wifi s') =
      credential (password_size env) password (WIFI_PASSWORD build)
        (getenv env "WIFI_PASSWORD") (both_given ssid password) (sta_password (sys_wifi s)) /\
    ((r = ESP_ERR_INVALID_ARG /\ sta_ssid (sys_wifi s') = EmptyString /\
      wifi_started (fst run) = false /\ config_sent (fst run) = []) \/
     (r = ESP_OK /\ sta_ssid (sys_wifi s') <> EmptyString /\
      wifi_started (fst run) = true /\
      config_sent (fst run) = [(sta_ssid (sys_wifi s'), sta_password (sys_wifi s'))])))).
Proof.
  cbv zeta. intros Hi. unfold Wifi.wifi_init_sta, checked, check_code, Wifi.set_netif.
  sys_step. rewrite Hi.
  repeat (sys_step;
          try match goal with
              | |- context [if ?c then _ else _] =>
                lazymatch c with
                | context [snd] => fail
                | context [fst] => fail
                | _ => destruct c eqn:?
                end
              end; try discriminate).
  all: try (intros H; inversion H; subst;
            cbn [sys_world sys_wifi wifi_initialized sta_netif user_callback wifi_connected];
            split; [reflexivity|]; split; [reflexivity|]; split; [reflexivity|];
            left; split; [reflexivity|]; split; [exact Hi|];
            split; [apply Z.eqb_eq; assumption|]; split; reflexivity).
  all: intros H; apply wifi_init_sta_configure_run in H;
    destruct H as (H1 & H2 & H3 & Hu & Hc & H4 & H5 & H6);
    cbn [sys_world sys_wifi sta_netif sta_ssid sta_password user_callback wifi_connected]
      in H1, H3, Hu, Hc, H4, H5;
    (split; [exact H1|]); (split; [exact Hu|]); (split; [exact Hc|]);
    right; (split; [exact H2|]);
    (split; [rewrite H3; apply Z.eqb_neq;
             match goal with E : negb _ = true |- _ => apply negb_true_iff in E; exact E
                        | E : (_ =? 0) = false |- _ => exact E end|]);
    (split; [exact H4|]); (split; [exact H5|]);
    rewrite !wifi_started_app, !config_sent_app;
    cbn [wifi_started config_sent sdk_calls flat_map existsb app orb]; exact H6.
Qed.

Lemma substring_length n : forall s m, (String.length (substring m n s) <= n)%nat.
Proof.
  induction n as [|n IHn]; intros s m.
  - destruct s, m; cbn; auto. clear. revert m. induction s as [|c s IH]; intros m.
    + destruct m; cbn; auto.
    + destruct m; cbn; [auto|]. destruct m; cbn; [destruct s; cbn; auto|]. apply IH.
  - revert m. induction s as [|c s IH]; intros m.
    + destruct m; cbn; auto with arith.
    + destruct m; cbn; [apply le_n_S, IHn|apply IH].
Qed.

Lemma credential_length size given macro env_value both old :
  (String.length (credential size given macro env_value both old) <=
   Nat.max (size - 1) (String.length old))%nat.
Proof.
  unfold credential, Wifi.strncpy_str.
  destruct given, both, macro, env_value;
    try (eapply Nat.le_trans; [apply substring_length|apply Nat.le_max_l]);
    apply Nat.le_max_r.
Qed.

(** X24. [wifi_init_sta] initialises once. A first call that returns has
    started the station exactly when it returns [ESP_OK]; unless the network
    interface could not be created ([ESP_FAIL]), it has set
    [wifi_initialized], also when it returns [ESP_ERR_INVALID_ARG] for an
    empty SSID. From then on a call, whatever its arguments, logs a warning
    and returns [ESP_OK] without calling the SDK. *)
Theorem wifi_init_sta_only_once ssid password ssid2 password2 s r s' :
  wifi_initialized (sys_wifi s) = false ->
  snd (Wifi.wifi_init_sta env build ssid password s) = Some (r, s') ->
  wifi_started (fst (Wifi.wifi_init_sta env build ssid password s)) = (r =? ESP_OK) /\
  ((r = ESP_FAIL /\ wifi_initialized (sys_wifi s') = false) \/
   ((r = ESP_OK \/ r = ESP_ERR_INVALID_ARG) /\
    wifi_initialized (sys_wifi s') = true /\
    Wifi.wifi_init_sta env build ssid2 password2 s' =
      ([SysLog LogI Wifi.TAG MsgWifiInitStart; SysLog LogW Wifi.TAG MsgWifiAlreadyInitialized],
       Some (ESP_OK, s')))).
Proof.
  intros Hi H. pose proof (wifi_init_sta_run ssid password s r s') as R. cbv zeta in R.
  destruct (R Hi H) as (_ & _ & _ & [(Hr & Hn & _ & Hs & _)|(Hn & _ & _ & _ & Hr)]).
  - subst r. split; [exact Hs|]. left. split; [reflexivity|exact Hn].
  - assert (Wifi.wifi_init_sta env build ssid2 password2 s' =
              ([SysLog LogI Wifi.TAG MsgWifiInitStart;
                SysLog LogW Wifi.TAG MsgWifiAlreadyInitialized], Some (ESP_OK, s'))) as Again.
    { unfold Wifi.wifi_init_sta. unfold Sys.bind at 1 2. cbn [Sys.log Sys.emit Sys.get_wifi].
      rewrite Hn. reflexivity. }
    destruct Hr as [(Hr & _ & Hs & _)|(Hr & _ & Hs & _)]; subst r;
      (split; [exact Hs|]); right; (split; [|split; [exact Hn|exact Again]]); [right|left];
      reflexivity.
Qed.

(** X25. The credentials [wifi_init_sta] stores: the arguments when both
    are given (an SSID passed without a password is ignored), else the macro
    of the build, else the environment variable, else what the array held;
    each cut to the size of its array less one. The function returns
    [ESP_ERR_INVALID_ARG] when the SSID so stored is empty, having sent
    nothing to the driver; when it returns [ESP_OK] it has sent exactly the
    stored credentials to [esp_wifi_set_config], once. *)
Theorem wifi_init_sta_credentials ssid password s r s' :
  let run := Wifi.wifi_init_sta env build ssid password s in
  wifi_initialized (sys_wifi s) = false ->
  snd run = Some (r, s') ->
  (r = ESP_FAIL /\ config_sent (fst run) = []) \/
  (sta_ssid (sys_wifi s') =
     credential (ssid_size env) ssid (WIFI_SSID build) (getenv env "WIFI_SSID")
       (both_given ssid password) (sta_ssid (sys_wifi s)) /\
   sta_password (sys_wifi s') =
     credential (password_size env) password (WIFI_PASSWORD build)
       (getenv env "WIFI_PASSWORD") (both_given ssid password) (sta_password (sys_wifi s)) /\
   (String.length (sta_ssid (sys_wifi s')) <=
    Nat.max (ssid_size env - 1) (String.length (sta_ssid (sys_wifi s))))%nat /\
   (String.length (sta_password (sys_wifi s')) <=
    Nat.max (password_size env - 1) (String.length (sta_password (sys_wifi s))))%nat /\
   ((r = ESP_ERR_INVALID_ARG /\ sta_ssid (sys_wifi s') = EmptyString /\
     config_sent (fst run) = []) \/
    (r = ESP_OK /\ sta_ssid (sys_wifi s') <> EmptyString /\
     config_sent (fst run) = [(sta_ssid (sys_wifi s'), sta_password (sys_wifi s'))]))).
Proof.
  cbv zeta. intros Hi H. pose proof (wifi_init_sta_run ssid password s r s') as R.
  cbv zeta in R.
  destruct (R Hi H) as (_ & _ & _ & [(Hr & _ & _ & _ & Hc)|(_ & _ & Hs & Hp & Hr)]).
  - left. split; assumption.
  - right. split; [exact Hs|]. split; [exact Hp|].
    split; [rewrite Hs; apply credential_length|].
    split; [rewrite Hp; apply credential_length|].
    destruct Hr as [(Hr & He & _ & Hc)|(Hr & He & _ & Hc)]; [left|right];
      (split; [exact Hr|]); split; assumption.
Qed.

End InitSta.

(** A first call without any SSID, then a second with credentials. *)
Lemma retry_with_credentials_does_nothing :
  exists s',
    snd (Wifi.wifi_init_sta willing_sdk no_macros None None boot_system) =
      Some (ESP_ERR_INVALID_ARG, s') /\
    Wifi.wifi_init_sta willing_sdk no_macros (Some "feeder"%string) (Some "secret"%string) s' =
      ([SysLog LogI Wifi.TAG MsgWifiInitStart; SysLog LogW Wifi.TAG MsgWifiAlreadyInitialized],
       Some (ESP_OK, s')).
Proof.
  assert (exists s', snd (Wifi.wifi_init_sta willing_sdk no_macros None None boot_system) =
                       Some (ESP_ERR_INVALID_ARG, s')) as (s' & H).
  { eexists. vm_compute. reflexivity. }
  exists s'. split; [exact H|].
  destruct (wifi_init_sta_only_once willing_sdk no_macros None None
              (Some "feeder"%string) (Some "secret"%string) boot_system
              ESP_ERR_INVALID_ARG s' eq_refl H) as (_ & [(C & _)|(_ & _ & A)]).
  - discriminate C.
  - exact A.
Defined.

(** A network name of 40 bytes reaches the driver cut to 31. *)
Lemma a_name_of_40_bytes_is_cut_to_31 :
  exists s',
    snd (Wifi.wifi_init_sta willing_sdk no_macros
           (Some "a-network-name-that-is-forty-bytes-long."%string) (Some "secret"%string)
           boot_system) = Some (ESP_OK, s') /\
    config_sent (fst (Wifi.wifi_init_sta willing_sdk no_macros
                        (Some "a-network-name-that-is-forty-bytes-long."%string)
                        (Some "secret"%string) boot_system)) =
      [("a-network-name-that-is-forty-by"%string, "secret"%string)].
Proof.
  assert (exists s', snd (Wifi.wifi_init_sta willing_sdk no_macros
                            (Some "a-network-name-that-is-forty-bytes-long."%string)
                            (Some "secret"%string) boot_system) = Some (ESP_OK, s'))
    as (s' & H).
  { eexists. vm_compute. reflexivity. }
  exists s'. split; [exact H|].
  destruct (wifi_init_sta_credentials willing_sdk no_macros
              (Some "a-network-name-that-is-forty-bytes-long."%string) (Some "secret"%string)
              boot_system ESP_OK s' eq_refl H)
    as [(C & _)|(Hs & Hp & _ & _ & [(C & _)|(_ & _ & Hc)])]; try discriminate C.
  rewrite Hc, Hs, Hp. reflexivity.
Defined.

(** ** WiFi: address and disconnection *)

Lemma string_length_app (a b : string) :
  String.length (a ++ b) = (String.length a + String.length b)%nat.
Proof. induction a as [|c a IH]; cbn; [reflexivity|]. rewrite IH. reflexivity. Qed.

Lemma substring_all s : forall n, (String.length s <= n)%nat -> substring 0 n s = s.
Proof.
  induction s as [|c s IH]; intros n H.
  - destruct n; reflexivity.
  - destruct n; cbn in H; [inversion H|]. cbn. rewrite IH; [reflexivity|].
    apply le_S_n. exact H.
Qed.

Lemma fmt_d_byte n : 0 <= n < 256 -> (String.length (fmt_d n) <= 3)%nat.
Proof.
  intros H.
  assert (forallb (fun k => (String.length (fmt_d (Z.of_nat k)) <=? 3)%nat) (seq 0 256) = true)
    as A by (vm_compute; reflexivity).
  rewrite forallb_forall in A. specialize (A (Z.to_nat n)).
  rewrite Z2Nat.id in A by lia. apply Nat.leb_le, A, in_seq. lia.
Qed.

Lemma ipstr_length ip : (String.length (Wifi.ipstr ip) <= 15)%nat.
Proof.
  destruct ip as [[[a b] c] d]. unfold Wifi.ipstr.
  rewrite !string_length_app.
  pose proof (fmt_d_byte (a mod 256) (Z.mod_pos_bound a 256 eq_refl)).
  pose proof (fmt_d_byte (b mod 256) (Z.mod_pos_bound b 256 eq_refl)).
  pose proof (fmt_d_byte (c mod 256) (Z.mod_pos_bound c 256 eq_refl)).
  pose proof (fmt_d_byte (d mod 256) (Z.mod_pos_bound d 256 eq_refl)).
  cbn [String.length]. lia.
Qed.

Section Address.
Variable env : sdk_env.

(** X26. [wifi_get_ip_address] asks the driver only when an interface
    exists and the flag is set, and changes no state. It returns the address
    the driver stored, in dotted decimal, when that call succeeds, and
    "0.0.0.0" in every other case; the 16 bytes of its buffer never cut an
    address short. *)
Theorem wifi_get_ip_address_value s :
  let r := Wifi.wifi_get_ip_address env s in
  let asked := negb (sta_netif (sys_wifi s) =? 0) && wifi_connected (sys_wifi s) in
  let call := esp_netif_get_ip_info (sta_netif (sys_wifi s)) in
  snd r = Some (if asked && (sdk_ret env call =? ESP_OK)
                then Wifi.ipstr (ip_info env (sta_netif (sys_wifi s)))
                else "0.0.0.0"%string, s) /\
  sdk_calls (fst r) = (if asked then [call] else []) /\
  (forall ip, snprintf 16 (Wifi.ipstr ip) = Wifi.ipstr ip).
Proof.
  cbv zeta. unfold Wifi.wifi_get_ip_address. sys_step.
  destruct (negb (sta_netif (sys_wifi s) =? 0) && wifi_connected (sys_wifi s)).
  - sys_step. cbn [andb].
    destruct (sdk_ret env (esp_netif_get_ip_info (sta_netif (sys_wifi s))) =? ESP_OK).
    + cbn [Sys.ret fst snd]. unfold snprintf. rewrite substring_all by apply ipstr_length.
      split; [reflexivity|]. split; [reflexivity|].
      intros ip. apply substring_all, ipstr_length.
    + cbn [Sys.ret fst snd]. split; [reflexivity|]. split; [reflexivity|].
      intros ip. apply substring_all, ipstr_length.
  - cbn [Sys.ret fst snd andb]. split; [reflexivity|]. split; [reflexivity|].
    intros ip. apply substring_all, ipstr_length.
Qed.

(** X27. [wifi_disconnect] calls the driver only when the flag is set and
    leaves the flag cleared. When the disconnection event that follows is
    handled, [wifi_event_handler] calls [esp_wifi_connect]: the program
    reconnects after a disconnection it asked for. *)
Theorem wifi_disconnect_is_followed_by_a_reconnection s :
  let r := (Wifi.wifi_disconnect env ;;
            Wifi.deliver env App.invoke_user (WIFI_EVENT, WIFI_EVENT_STA_DISCONNECTED))%sys s in
  snd (Wifi.wifi_disconnect env s) = Some (tt, with_connected false s) /\
  sdk_calls (fst (Wifi.wifi_disconnect env s)) =
    (if wifi_connected (sys_wifi s) then [esp_wifi_disconnect] else []) /\
  snd r = Some (tt, with_connected false s) /\
  sdk_calls (fst r) =
    (if wifi_connected (sys_wifi s) then [esp_wifi_disconnect] else []) ++ [esp_wifi_connect].
Proof.
  cbv zeta.
  assert (snd (Wifi.wifi_disconnect env s) = Some (tt, with_connected false s) /\
          sdk_calls (fst (Wifi.wifi_disconnect env s)) =
            (if wifi_connected (sys_wifi s) then [esp_wifi_disconnect] else [])) as [D1 D2].
  { unfold Wifi.wifi_disconnect, Wifi.set_connected. sys_step.
    destruct (wifi_connected (sys_wifi s)) eqn:E.
    - sys_step. split; reflexivity.
    - cbn [Sys.ret fst snd]. rewrite <- E, with_connected_same. split; reflexivity. }
  split; [exact D1|]. split; [exact D2|]. sys_step. rewrite D1.
  destruct (deliver_run env (WIFI_EVENT, WIFI_EVENT_STA_DISCONNECTED) (with_connected false s))
    as (R1 & R2 & _). cbv zeta in R1, R2.
  rewrite R1, sdk_calls_app, D2, R2. split; reflexivity.
Qed.

End Address.

(** The address 192.168.4.1 of a connected station. *)
Lemma address_192_168_4_1 :
  snd (Wifi.wifi_get_ip_address willing_sdk (with_connected true listening_system)) =
    Some ("192.168.4.1"%string, with_connected true listening_system).
Proof.
  destruct (wifi_get_ip_address_value willing_sdk (with_connected true listening_system))
    as (H & _).
  exact H.
Defined.

(** ** main.c: start-up *)

Section Boot.
Variable plat : platform.
Variable env : sdk_env.
Variable build : build_config.

(** X28. With neither the macro [WIFI_SSID] nor that environment
    variable, on a first start (the SSID array empty, WiFi not initialised),
    [app_main], when it returns, has seen [wifi_init_sta] fail with
    [ESP_FAIL] or [ESP_ERR_INVALID_ARG], has logged that failure, has not
    started the station, and has created the servo task all the same as its
    last action; its callback is registered and the statics of the other
    files are untouched. *)
Theorem app_main_without_ssid rc s s' :
  WIFI_SSID build = None ->
  getenv env "WIFI_SSID" = None ->
  sta_ssid (sys_wifi s) = EmptyString ->
  wifi_initialized (sys_wifi s) = false ->
  snd (App.app_main env build rc s) = Some (tt, s') ->
  exists r l,
    (r = ESP_FAIL \/ r = ESP_ERR_INVALID_ARG) /\
    fst (App.app_main env build rc s) =
      l ++ [SysLog LogE Main.TAG (MsgWifiInitFailed r);
            Core (EvTaskCreate "servo_control" rc)] /\
    wifi_started (fst (App.app_main env build rc s)) = false /\
    user_callback (sys_wifi s') = Some Fn_wifi_event_handler /\
    sys_world s' = sys_world s.
Proof.
  intros Hm He Hs Hi. unfold App.app_main, Wifi.wifi_register_event_callback,
    Wifi.set_user_callback.
  rewrite Hm. sys_step.
  match goal with |- context [Wifi.wifi_init_sta env build None None ?s0] =>
    set (s1 := s0) end.
  destruct (snd (Wifi.wifi_init_sta env build None None s1)) as [[r s2]|] eqn:E;
    [|discriminate].
  pose proof (wifi_init_sta_run env build None None s1 r s2) as R. cbv zeta in R.
  destruct (R Hi E) as (Rw & Ru & _ & Rr).
  assert ((r = ESP_FAIL \/ r = ESP_ERR_INVALID_ARG) /\
          wifi_started (fst (Wifi.wifi_init_sta env build None None s1)) = false)
    as [Hr Hst].
  { destruct Rr as [(Hr & _ & _ & Hst & _)|(_ & _ & Hssid & _ & [(Hr & _ & Hst & _)|(_ & Hne & _)])].
    - split; [left; exact Hr|exact Hst].
    - split; [right; exact Hr|exact Hst].
    - exfalso. apply Hne. rewrite Hssid. unfold credential, both_given. rewrite Hm, He.
      exact Hs. }
  assert (negb (r =? ESP_OK) = true) as Hn by (destruct Hr; subst r; reflexivity).
  rewrite Hn. sys_step. unfold Sys.lift. cbn [emit fst snd map].
  intros H. inversion H; subst s'. exists r. eexists. split; [exact Hr|]. split.
  - rewrite !app_assoc. rewrite <- app_assoc. reflexivity.
  - rewrite !wifi_started_app, Hst. split; [reflexivity|]. split; [exact Ru|exact Rw].
Qed.

End Boot.

(** The start of the program on a build without credentials. *)
Lemma app_main_on_an_unconfigured_build :
  exists s',
    snd (App.app_main willing_sdk no_macros pdPASS boot_system) = Some (tt, s') /\
    user_callback (sys_wifi s') = Some Fn_wifi_event_handler /\
    task_creations (core_events (fst (App.app_main willing_sdk no_macros pdPASS
                                        boot_system))) = ["servo_control"%string].
Proof.
  assert (exists s', snd (App.app_main willing_sdk no_macros pdPASS boot_system) =
                       Some (tt, s')) as (s' & H).
  { eexists. vm_compute. reflexivity. }
  exists s'. split; [exact H|].
  destruct (app_main_without_ssid willing_sdk no_macros pdPASS boot_system s'
              eq_refl eq_refl eq_refl eq_refl H) as (r & l & _ & _ & _ & Hu & _).
  split; [exact Hu|]. vm_compute. reflexivity.
Defined.

(** ** main.c: the servo task *)





Lemma home_is_500 plat env :
  Servo.duty plat (initialised env Main.servo_config) F32.zero = 500.
Proof. reflexivity. Qed.













Section ServoTask.
Variable plat : platform.
Variable env : sdk_env.





End ServoTask.


